(** * OperationChecker and op_transform: a shallow embedding

    This development embeds two modules of the repository,

    - [pennylane/debugging/operation_checker.py] (the consistency checker) and
    - [pennylane/ops/functions/op_transform.py] (the dispatcher),

    and states the properties of their specification against the embedding.

    Conventions.
    - Floating point numbers are idealised as exact rationals ([Q]); a complex
      number is a pair of rationals.  Rounding error is outside the model, so
      no property below rests on an exact cancellation that a double would
      miss: the numeric statements are evaluations at concrete inputs,
      comparisons of a value with itself or with zero, and tolerance tests.
    - A NumPy two-dimensional array is a list of rows of one length; the list
      without rows stands for the array of shape (0, 0).
    - A Python call either returns or raises: [outcome].
    - The operator model (operation classes, their instances) and the numeric
      backend ([qml.matrix], [scipy.linalg.expm], [numpy.linalg.eigvals]) are
      not part of the two modules; they enter as records of capabilities. *)

From Stdlib Require Import QArith Qfield Lqa Lia.
From stdpp Require Import base option list gmap strings pretty.

Local Open Scope string_scope.
Local Open Scope list_scope.
Local Open Scope Z_scope.

(** ** Python exceptions and call outcomes *)

Inductive exc_class :=
| CheckerError | OperationTransformError
| AttributeError | NotImplementedError | TypeError | IndexError | KeyError
| ValueError | AssertionError | OverflowError | UnboundLocalError | RuntimeError
| MatrixUndefinedError | SparseMatrixUndefinedError | GeneratorUndefinedError
| DiagGatesUndefinedError | EigvalsUndefinedError | TermsUndefinedError
| DecompositionUndefinedError.

#[global] Instance exc_class_eq_dec : EqDecision exc_class.
Proof. solve_decision. Defined.

(** An exception object: its class, its message, and the
    [__suppress_context__] flag that [raise ... from None] sets. *)
Record exn := Exn {
  exc_type : exc_class;
  exc_msg : string;
  exc_suppress_context : bool
}.

#[global] Instance exn_eq_dec : EqDecision exn.
Proof. solve_decision. Defined.

Definition new_exn (c : exc_class) (msg : string) : exn := Exn c msg false.

Inductive outcome (A : Type) : Type :=
| Returns (a : A)
| Raises (e : exn).
Arguments Returns {A} a.
Arguments Raises {A} e.

Definition outcome_bind {A B} (o : outcome A) (k : A -> outcome B) : outcome B :=
  match o with
  | Returns a => k a
  | Raises e => Raises e
  end.

(** ** Complex rationals *)

Record C := mkC { re : Q; im : Q }.

Definition C0 : C := mkC 0 0.
Definition C1 : C := mkC 1 0.
Definition Cm1 : C := mkC (-1) 0.
Definition Cadd (a b : C) : C := mkC (re a + re b) (im a + im b).
Definition Csub (a b : C) : C := mkC (re a - re b) (im a - im b).
Definition Cmul (a b : C) : C :=
  mkC (re a * re b - im a * im b) (re a * im b + im a * re b).
Definition Cconj (a : C) : C := mkC (re a) (- im a).
(** squared modulus *)
Definition Cnorm2 (a : C) : Q := re a * re a + im a * im a.
Definition Cdiv (a b : C) : C :=
  mkC ((re a * re b + im a * im b) / Cnorm2 b)
      ((im a * re b - re a * im b) / Cnorm2 b).

Definition matrix := list (list C).

(** [matrix.shape] *)
Definition shape0 (m : matrix) : nat := length m.
Definition shape1 (m : matrix) : nat :=
  match m with
  | [] => O
  | row :: _ => length row
  end.

Definition is_rect (m : matrix) : bool :=
  forallb (fun row => Nat.eqb (length row) (shape1 m)) m.

(** ** The NumPy functions the checker uses *)

Definition value_error (msg : string) : exn := new_exn ValueError msg.

(** NumPy's broadcasting rule for one axis: the two lengths agree, or one of
    them is 1 and that axis is stretched. *)
Definition broadcast_axis (a b : nat) : option nat :=
  if Nat.eqb a b then Some a
  else if Nat.eqb a 1 then Some b
  else if Nat.eqb b 1 then Some a
  else None.

(** An axis of length 1 repeated [n] times; any other axis already has the
    length it is broadcast to. *)
Definition stretch {X} (n : nat) (l : list X) : list X :=
  match l with
  | [x] => replicate n x
  | _ => l
  end.

Definition broadcast_to (r c : nat) (m : matrix) : matrix :=
  stretch r (map (stretch c) m).

(** Two arrays broadcast against each other; shapes that do not fit are the
    [ValueError] of NumPy. *)
Definition broadcast (m1 m2 : matrix) : outcome (matrix * matrix) :=
  match broadcast_axis (shape0 m1) (shape0 m2), broadcast_axis (shape1 m1) (shape1 m2) with
  | Some r, Some c => Returns (broadcast_to r c m1, broadcast_to r c m2)
  | _, _ => Raises (value_error "operands could not be broadcast together")
  end.

(** [sqrt x <= p + q * sqrt y] for rationals [0 <= x], [0 <= y], [0 <= q],
    decided without leaving the rationals: square once, isolate the remaining
    root [2 p q sqrt y], and square again according to the signs. *)
Definition sqrt_le_affine (x p q y : Q) : bool :=
  let d := (x - p * p - q * q * y)%Q in
  let e := (2 * p * q)%Q in
  if Qle_bool 0 p
  then Qle_bool d 0 || Qle_bool (d * d) (e * e * y)
  else Qle_bool (p * p) (q * q * y) && Qle_bool d 0 && Qle_bool (e * e * y) (d * d).

(** [numpy.isclose(a, b, rtol, atol)] on finite entries:
    [abs(a - b) <= atol + rtol * abs(b)], with [abs] the complex modulus. *)
Definition isclose (rtol atol : Q) (a b : C) : bool :=
  sqrt_le_affine (Cnorm2 (Csub a b)) atol rtol (Cnorm2 b).

Definition default_rtol : Q := 1 # 100000.
Definition default_atol : Q := 1 # 100000000.

Fixpoint forallb2 {A B} (f : A -> B -> bool) (l : list A) (l' : list B) : bool :=
  match l, l' with
  | [], [] => true
  | a :: l, b :: l' => f a b && forallb2 f l l'
  | _, _ => false
  end.

Definition same_shape (m1 m2 : matrix) : bool :=
  forallb2 (fun r1 r2 => Nat.eqb (length r1) (length r2)) m1 m2.

(** [numpy.allclose] on two-dimensional arrays: arrays of one shape are
    compared entry by entry, arrays of different shapes are broadcast
    first. *)
Definition allclose (rtol atol : Q) (m1 m2 : matrix) : outcome bool :=
  if same_shape m1 m2
  then Returns (forallb2 (forallb2 (isclose rtol atol)) m1 m2)
  else
    outcome_bind (broadcast m1 m2) (fun b =>
    Returns (forallb2 (forallb2 (isclose rtol atol)) b.1 b.2)).

(** [numpy.rint]: round to the nearest integer, ties to even. *)
Definition rint (q : Q) : Z :=
  let n := Qnum q in
  let d := Z.pos (Qden q) in
  let f := n / d in
  let r2 := 2 * (n mod d) in
  if r2 <? d then f
  else if d <? r2 then f + 1
  else if Z.even f then f else f + 1.

(** [numpy.round(q, decimals)] scales, rounds with [rint] and scales back. *)
Definition np_round (decimals : nat) (q : Q) : Q :=
  (inject_Z (rint (q * inject_Z (10 ^ Z.of_nat decimals))) / inject_Z (10 ^ Z.of_nat decimals))%Q.

Definition Qnonzero (q : Q) : bool := negb (Qnum q =? 0).

(** Truth value of a rounded complex entry, as [numpy.where] tests it. *)
Definition round_nonzero (decimals : nat) (c : C) : bool :=
  Qnonzero (np_round decimals (re c)) || Qnonzero (np_round decimals (im c)).

(** Column of the first entry of a row that satisfies [p]. *)
Fixpoint find_col (p : C -> bool) (row : list C) (j : nat) : option nat :=
  match row with
  | [] => None
  | c :: row => if p c then Some j else find_col p row (S j)
  end.

(** [(ids[0][0], ids[1][0])] for [ids = numpy.where(m)]: the position of the
    first entry, in row-major order, that satisfies [p]. *)
Fixpoint first_where (p : C -> bool) (m : matrix) (i : nat) : option (nat * nat) :=
  match m with
  | [] => None
  | row :: m =>
      match find_col p row 0 with
      | Some j => Some (i, j)
      | None => first_where p m (S i)
      end
  end.

Definition entry (m : matrix) (idx : nat * nat) : option C :=
  row ← m !! fst idx; row !! snd idx.

Definition mat_scale (m : matrix) (c : C) : matrix := map (map (fun x => Cmul x c)) m.

Definition index_error (msg : string) : exn := new_exn IndexError msg.

(** [equal_up_to_phase] (operation_checker.py, lines 54-77).  The position
    [idx] is taken in [mat2] and read in both arrays; [mat1] may be the
    smaller one when the two were broadcast.  The quotient and the products
    are exact here, where doubles round them: [mat2 * (a / b)] need not give
    back [a] at [idx] in the source, and nothing below relies on it. *)
Definition equal_up_to_phase (mat1 mat2 : matrix) (atol : Q) : outcome bool :=
  outcome_bind (allclose 0 atol mat1 mat2) (fun close =>
  if close then Returns true
  else
    match first_where (round_nonzero 10) mat2 0 with
    | None => Raises (index_error "index 0 is out of bounds for axis 0 with size 0")
    | Some idx =>
        match entry mat1 idx, entry mat2 idx with
        | Some a, Some b =>
            let phase := Cdiv a b in
            allclose 0 atol mat1 (mat_scale mat2 phase)
        | _, _ => Raises (index_error "index is out of bounds")
        end
    end).

Definition phase_default_atol : Q := 1 # 10000000000.

Definition nth_col (m : matrix) (j : nat) : list C :=
  map (fun row => default C0 (row !! j)) m.

Definition transpose (m : matrix) : matrix :=
  map (nth_col m) (seq 0 (shape1 m)).

Definition dot (u v : list C) : C :=
  fold_right Cadd C0 (zip_with Cmul u v).

(** [a @ b]; NumPy raises [ValueError] when the inner dimensions differ. *)
Definition matmul (a b : matrix) : outcome matrix :=
  if is_rect a && is_rect b && Nat.eqb (shape1 a) (shape0 b)
  then Returns (map (fun row => map (fun j => dot row (nth_col b j)) (seq 0 (shape1 b))) a)
  else Raises (value_error "matmul: Input operand 1 has a mismatch in its core dimension").

(** [m.conj().T] *)
Definition conj_T (m : matrix) : matrix := transpose (map (map Cconj) m).

(** [numpy.eye(n)] *)
Definition eye (n : nat) : matrix :=
  map (fun i => map (fun j => if Nat.eqb i j then C1 else C0) (seq 0 n)) (seq 0 n).

(** [numpy.diag(m)] of a two-dimensional array: its diagonal. *)
Definition diag_of (m : matrix) : list C :=
  omap (fun i => entry m (i, i)) (seq 0 (Nat.min (shape0 m) (shape1 m))).

(** [numpy.diag(v)] of a one-dimensional array: the square array with [v]
    on its diagonal. *)
Definition diag_matrix (v : list C) : matrix :=
  imap (fun i _ => imap (fun j x => if Nat.eqb i j then x else C0) v) v.

(** [m1 - m2], with broadcasting *)
Definition matrix_sub (m1 m2 : matrix) : outcome matrix :=
  outcome_bind (broadcast m1 m2) (fun b => Returns (zip_with (zip_with Csub) b.1 b.2)).

Definition zeros_like (m : matrix) : matrix := map (map (fun _ => C0)) m.

(** [is_diagonal] (operation_checker.py, lines 80-91).  The diagonal part is
    a square array of the smaller dimension of [matrix]; the subtraction is
    broadcast, and raises where it cannot be. *)
Definition is_diagonal (m : matrix) : outcome bool :=
  outcome_bind (matrix_sub m (diag_matrix (diag_of m))) (fun off_diagonal =>
  allclose default_rtol default_atol off_diagonal (zeros_like m)).

(** Order of [numpy.sort] on complex numbers: by real part, then by
    imaginary part. *)
Definition Cleb (a b : C) : bool :=
  if Qeq_bool (re a) (re b) then Qle_bool (im a) (im b) else Qle_bool (re a) (re b).

Fixpoint insert_sorted (x : C) (l : list C) : list C :=
  match l with
  | [] => [x]
  | y :: l' => if Cleb x y then x :: l else y :: insert_sorted x l'
  end.

Definition np_sort (l : list C) : list C := fold_right insert_sorted [] l.

(** ** The operator model, as the checker sees it *)

Definition Wires := list nat.

(** [Wires.unique_wires([w1, w2])]: the wires that occur in one of the two
    only. *)
Definition unique_wires (w1 w2 : Wires) : Wires :=
  filter (fun w => w ∉ w2) w1 ++ filter (fun w => w ∉ w1) w2.

(** Parameters are numbers, Python sequences (a list or a tuple: [PSeq]) or
    NumPy arrays ([PArr]).  An array has a length, can be unpacked, iterated
    and indexed like a list, but it is no [collections.abc.Sequence]. *)
#[warnings="-register-all"]
Inductive pvalue :=
| PNum (q : Q)
| PSeq (l : list pvalue)
| PArr (l : list pvalue).

(** The Python values that meet the checker's tests. *)
Inductive value :=
| VNone
| VExc (e : exn)
| VArray (m : matrix)      (* a two-dimensional array *)
| VVector (v : list C)     (* a one-dimensional array or list of numbers *)
| VTape (t : string)       (* a [QuantumTape] *)
| VGates (g : list string) (* a list of operations *)
| VObj (o : string).       (* another object: sparse matrix, terms, generator *)

Definition isinstance_Exception (v : value) : bool :=
  match v with VExc _ => true | _ => false end.

Definition is_None (v : value) : bool :=
  match v with VNone => true | _ => false end.

(** [op.num_wires]: still the abstract property of the base class, the
    [AnyWires] sentinel, or an integer. *)
Inductive num_wires_decl :=
| WiresProperty
| AnyWires
| WiresInt (n : nat).

(** [op.num_params]: an [int], or the property of the base class. *)
Inductive num_params_decl :=
| ParamsInt (n : nat)
| ParamsProperty.

(** An instance of an operation.  [inst_method name] is [None] when the
    attribute does not exist and otherwise the outcome of calling the method
    without arguments. *)
Record Instance := {
  inst_key : positive;
  inst_repr : string;
  inst_name : string;
  inst_class_repr : string;
  inst_parameters : pvalue;
  inst_wires : Wires;
  inst_control_wires : Wires;
  inst_basis : option (option string);
  inst_method : string -> option (outcome value)
}.

(** An operation class.  [cls_method name] is [None] when the class has no
    such attribute and otherwise the static method, called with the unpacked
    parameters and (for the methods that take them) the wires. *)
Record OpClass := {
  cls_key : positive;
  cls_repr : string;
  cls_name : string;
  num_wires : num_wires_decl;
  num_params : num_params_decl;
  cls_init : list pvalue -> Wires -> outcome Instance;
  cls_method : string -> option (list pvalue -> option Wires -> outcome value)
}.

(** What [OperationChecker.__call__] is given: a class, or an instance
    together with its class ([type(op)]). *)
Inductive checked :=
| OfClass (c : OpClass)
| OfInstance (i : Instance) (c : OpClass).

Definition checked_key (o : checked) : positive :=
  match o with OfClass c => cls_key c | OfInstance i _ => inst_key i end.
Definition checked_repr (o : checked) : string :=
  match o with OfClass c => cls_repr c | OfInstance i _ => inst_repr i end.
Definition checked_name (o : checked) : string :=
  match o with OfClass c => cls_name c | OfInstance i _ => inst_name i end.

(** The collaborators outside the two modules: PennyLane's matrix
    construction, SciPy, NumPy's eigenvalues and its random source. *)
Record Backend := {
  (* [qml.matrix(obj)] and [qml.matrix(obj, wire_order=wires)] *)
  qml_matrix : value -> option Wires -> outcome value;
  (* [np.sum([c * qml.matrix(op) for c, op in zip( *terms)], axis=0)] *)
  terms_matrix : value -> outcome value;
  (* the tape recording [RZ(a0), RY(a1), RZ(a2)] on [wires] *)
  zyz_tape : C -> C -> C -> Wires -> outcome value;
  (* [scipy.linalg.expm] *)
  la_expm : matrix -> outcome value;
  (* [numpy.linalg.eigvals] *)
  la_eigvals : matrix -> outcome (list C);
  (* the tape that queues the given gates *)
  queue_tape : list string -> outcome value;
  (* the tape that applies the given gates to every target wire of the
     instance, its matrix, expanded to the instance's wires *)
  basis_change : list string -> Instance -> outcome matrix;
  (* [numpy.random.seed] and one draw of [numpy.random.random] *)
  rng_seed : Z -> Z;
  rng_next : Z -> Q * Z
}.

(** ** Severity levels and the checker object *)

Inductive level := LError | LHint | LComment | LPass.

#[global] Instance level_eq_dec : EqDecision level.
Proof. solve_decision. Defined.

Definition level_name (l : level) : string :=
  match l with
  | LError => "error" | LHint => "hint" | LComment => "comment" | LPass => "pass"
  end.

Definition _colors (l : level) : string :=
  match l with
  | LError => "91" | LHint => "93" | LComment => "94" | LPass => "92"
  end.

Definition verbosity_levels (l : level) : nat :=
  match l with
  | LError => 0 | LHint => 1 | LComment => 2 | LPass => 3
  end.

Definition all_levels : list level := [LError; LHint; LComment; LPass].

(** [levels_verbosity], the inverse dictionary; a missing key is a
    [KeyError]. *)
Definition levels_verbosity (n : nat) : option level :=
  match n with
  | 0 => Some LError | 1 => Some LHint | 2 => Some LComment | 3 => Some LPass
  | _ => None
  end%nat.

(** What [print_] is handed as [string]: a [str], or an exception object. *)
Inductive pmsg :=
| MStr (s : string)
| MExc (e : exn).

Definition str_of (m : pmsg) : string :=
  match m with MStr s => s | MExc e => exc_msg e end.

(** [self.tmp], the per-operation storage. *)
Record Tmp := mkTmp {
  printed_header : bool;
  tmp_op : checked;
  res : nat;
  name : string;
  num_params_known : option bool;
  possible_num_params : option (list nat)
}.

(** The checker object.  [results] maps the identity of an operation to the
    level whose name ([level_name]) the dictionary of the source holds. *)
Record OperationChecker := mkChecker {
  _verbosity : list level;
  max_num_params : nat;
  print_color : bool;
  tol : Q;
  results : gmap positive level;
  output : gmap positive string;
  tmp : option Tmp;
  seed : option Z
}.

(** The checker object together with the process-wide state it touches:
    NumPy's global random state and the terminal. *)
Record state := mkState {
  self : OperationChecker;
  np_random_state : Z;
  stdout : list string
}.

(** [OperationChecker.__init__] (lines 300-308).  [results], [output], [tmp]
    and [seed] start as [None]; [__call__] assigns [results], [output] and
    [seed] before anything reads them, so empty dictionaries stand for the
    first two. *)
Definition __init__ (verbosity : level) (max_num_params : nat) (print_color : bool)
    (tol : Q) : OperationChecker :=
  {| _verbosity :=
       filter (fun key => (verbosity_levels key <= verbosity_levels verbosity)%nat) all_levels;
     max_num_params := max_num_params;
     print_color := print_color;
     tol := tol;
     results := ∅; output := ∅; tmp := None; seed := None |}.

Definition set_tmp (t : option Tmp) (c : OperationChecker) : OperationChecker :=
  {| _verbosity := _verbosity c; max_num_params := max_num_params c;
     print_color := print_color c; tol := tol c;
     results := results c; output := output c; tmp := t; seed := seed c |}.

Definition set_output (o : gmap positive string) (c : OperationChecker) : OperationChecker :=
  {| _verbosity := _verbosity c; max_num_params := max_num_params c;
     print_color := print_color c; tol := tol c;
     results := results c; output := o; tmp := tmp c; seed := seed c |}.

Definition set_results (r : gmap positive level) (c : OperationChecker) : OperationChecker :=
  {| _verbosity := _verbosity c; max_num_params := max_num_params c;
     print_color := print_color c; tol := tol c;
     results := r; output := output c; tmp := tmp c; seed := seed c |}.

Definition set_seed (z : option Z) (c : OperationChecker) : OperationChecker :=
  {| _verbosity := _verbosity c; max_num_params := max_num_params c;
     print_color := print_color c; tol := tol c;
     results := results c; output := output c; tmp := tmp c; seed := z |}.

Definition with_self (f : OperationChecker -> OperationChecker) (s : state) : state :=
  {| self := f (self s); np_random_state := np_random_state s; stdout := stdout s |}.

Definition py_print (line : string) (s : state) : state :=
  {| self := self s; np_random_state := np_random_state s; stdout := stdout s ++ [line] |}.

Definition set_res (n : nat) (t : Tmp) : Tmp :=
  mkTmp (printed_header t) (tmp_op t) n (name t) (num_params_known t) (possible_num_params t).
Definition set_printed_header (b : bool) (t : Tmp) : Tmp :=
  mkTmp b (tmp_op t) (res t) (name t) (num_params_known t) (possible_num_params t).
Definition set_num_params_known (b : bool) (t : Tmp) : Tmp :=
  mkTmp (printed_header t) (tmp_op t) (res t) (name t) (Some b) (possible_num_params t).
Definition set_possible_num_params (l : list nat) (t : Tmp) : Tmp :=
  mkTmp (printed_header t) (tmp_op t) (res t) (name t) (num_params_known t) (Some l).

(** One invocation of [print_] with a level: the operation of the session,
    the level and the message as passed. *)
Record event := Emitted {
  ev_key : positive;
  ev_level : level;
  ev_msg : pmsg
}.

Definition type_error (msg : string) : exn := new_exn TypeError msg.
Definition key_error (msg : string) : exn := new_exn KeyError msg.
Definition attribute_error (msg : string) : exn := new_exn AttributeError msg.

Definition esc : string := String (Ascii.ascii_of_nat 27) "".

(** [f"\033[{_colors[level]}m{string}\033[0m"] *)
Definition colorize (lvl : level) (text : string) : string :=
  esc +:+ "[" +:+ _colors lvl +:+ "m" +:+ text +:+ esc +:+ "[0m".

Fixpoint repeat_string (n : nat) (s : string) : string :=
  match n with
  | O => ""
  | S n => s +:+ repeat_string n s
  end.

Definition newline : string := String (Ascii.ascii_of_nat 10) "".

Definition header_of (op : checked) : string :=
  "Checking operation " +:+ checked_repr op +:+ " for consistency." +:+ newline
  +:+ repeat_string 40 "= ".

(** [self.output[key] += text]; the key must be present. *)
Definition output_append (key : positive) (text : string) (s : state) : outcome unit * state :=
  match output (self s) !! key with
  | None => (Raises (key_error "output"), s)
  | Some old => (Returns tt, with_self (set_output (<[key := old +:+ text]> (output (self s)))) s)
  end.

(** [OperationChecker.print_] (lines 375-405).  [level] is [None] when the
    caller passes no level, the default of the parameter; line 391 then looks
    [None] up in [verbosity_levels], a [KeyError], after [self.tmp["res"]]
    was read.  Otherwise the severity is folded in first; the message is then
    colored, filtered and appended.  Appending reads the text of the
    operation (a [KeyError] if there is none) and concatenates a [str] with
    [string], which is a [TypeError] when [string] is still an exception
    object. *)
Definition print_ (string : pmsg) (level : option level) (s : state)
    : outcome unit * state * list event :=
  match tmp (self s), level with
  | None, _ => (Raises (type_error "'NoneType' object is not subscriptable"), s, [])
  | Some _, None => (Raises (key_error "None"), s, [])
  | Some t, Some lvl =>
      let ev := [Emitted (checked_key (tmp_op t)) lvl string] in
      let t := set_res (Nat.min (res t) (verbosity_levels lvl)) t in
      let s := with_self (set_tmp (Some t)) s in
      let string := if print_color (self s) then MStr (colorize lvl (str_of string)) else string in
      if bool_decide (lvl = LError) || bool_decide (lvl ∈ _verbosity (self s)) then
        let key := checked_key (tmp_op t) in
        let '(o, s) :=
          if printed_header t then (Returns tt, s)
          else
            let header := header_of (tmp_op t) in
            let s := py_print header s in
            match output_append key header s with
            | (Returns _, s) => (Returns tt, with_self (set_tmp (Some (set_printed_header true t))) s)
            | (Raises e, s) => (Raises e, s)
            end in
        match o with
        | Raises e => (Raises e, s, ev)
        | Returns _ =>
            let s := py_print (str_of string) s in
            match string, output (self s) !! key with
            | _, None => (Raises (key_error "output"), s, ev)
            | MStr text, Some _ => (output_append key (newline +:+ text) s, ev)
            | MExc _, Some _ => (Raises (type_error "can only concatenate str to str"), s, ev)
            end
        end
      else (Returns tt, s, ev)
  end.

(** ** Check steps as programs

    A check step is a program over the few operations on the checker object
    that the steps of the source use: [print_], the two entries of
    [self.tmp] written by one step and read by later ones, the
    configuration, and NumPy's random source. *)

Inductive cmd : Type -> Type :=
| Cprint_ (string : pmsg) (level : option level) : cmd unit
| Cset_num_params_known (b : bool) : cmd unit
| Cget_num_params_known : cmd bool
| Cset_possible_num_params (l : list nat) : cmd unit
| Cget_possible_num_params : cmd (list nat)
| Cmax_num_params : cmd nat
| Ctol : cmd Q
| Cseed : cmd (option Z)
| Cnp_random_seed (z : Z) : cmd unit
| Cnp_random_random (n : nat) : cmd pvalue.

Inductive prog : Type -> Type :=
| Ret {A} (a : A) : prog A
| Throw {A} (e : exn) : prog A
| Do {A X} (c : cmd X) (k : X -> prog A) : prog A
| Try {A B} (body : prog B) (handler : exn -> prog B) (k : B -> prog A) : prog A.

Fixpoint bind {A B} (p : prog A) : (A -> prog B) -> prog B :=
  match p in prog A return (A -> prog B) -> prog B with
  | Ret a => fun k => k a
  | Throw e => fun _ => Throw e
  | Do c k' => fun k => Do c (fun x => bind (k' x) k)
  | Try body handler k' => fun k => Try body handler (fun x => bind (k' x) k)
  end.

Notation "x <- p ;; q" := (bind p (fun x => q))
  (at level 100, p at next level, right associativity, only parsing).
Notation "p ;; q" := (bind p (fun _ => q))
  (at level 100, right associativity, only parsing).

Definition do_ {X} (c : cmd X) : prog X := Do c Ret.
Definition lift {A} (o : outcome A) : prog A :=
  match o with
  | Returns a => Ret a
  | Raises e => Throw e
  end.
Definition try_except {A} (body : prog A) (handler : exn -> prog A) : prog A :=
  Try body handler Ret.

(** [for x in l: body x] *)
Fixpoint for_ {X} (l : list X) (body : X -> prog unit) : prog unit :=
  match l with
  | [] => Ret tt
  | x :: l => body x ;; for_ l body
  end.

(** a loop that threads local variables *)
Fixpoint for_acc {X S} (l : list X) (acc : S) (body : S -> X -> prog S) : prog S :=
  match l with
  | [] => Ret acc
  | x :: l => acc' <- body acc x ;; for_acc l acc' body
  end.

(** [n] draws from the random source *)
Fixpoint draw (next : Z -> Q * Z) (n : nat) (st : Z) : list pvalue * Z :=
  match n with
  | O => ([], st)
  | S n => let '(q, st) := next st in
           let '(l, st) := draw next n st in
           (PNum q :: l, st)
  end.

Section Interp.
Context (B : Backend).

Definition tmp_missing {X} (s : state) : outcome X * state * list event :=
  (Raises (type_error "'NoneType' object is not subscriptable"), s, []).

Definition exec {X} (c : cmd X) (s : state) : outcome X * state * list event :=
  match c in cmd X return outcome X * state * list event with
  | Cprint_ string level => print_ string level s
  | Cset_num_params_known b =>
      match tmp (self s) with
      | None => tmp_missing s
      | Some t => (Returns tt, with_self (set_tmp (Some (set_num_params_known b t))) s, [])
      end
  | Cget_num_params_known =>
      match tmp (self s) with
      | None => tmp_missing s
      | Some t =>
          match num_params_known t with
          | Some b => (Returns b, s, [])
          | None => (Raises (key_error "num_params_known"), s, [])
          end
      end
  | Cset_possible_num_params l =>
      match tmp (self s) with
      | None => tmp_missing s
      | Some t => (Returns tt, with_self (set_tmp (Some (set_possible_num_params l t))) s, [])
      end
  | Cget_possible_num_params =>
      match tmp (self s) with
      | None => tmp_missing s
      | Some t =>
          match possible_num_params t with
          | Some l => (Returns l, s, [])
          | None => (Raises (key_error "possible_num_params"), s, [])
          end
      end
  | Cmax_num_params => (Returns (max_num_params (self s)), s, [])
  | Ctol => (Returns (tol (self s)), s, [])
  | Cseed => (Returns (seed (self s)), s, [])
  | Cnp_random_seed z =>
      (Returns tt, mkState (self s) (rng_seed B z) (stdout s), [])
  | Cnp_random_random n =>
      let '(l, st) := draw (rng_next B) n (np_random_state s) in
      (Returns (PArr l), mkState (self s) st (stdout s), [])
  end.

(** Running a program: the outcome, the state left behind (also when an
    exception leaves the program) and the [print_] invocations in order. *)
Fixpoint run {A} (p : prog A) (s : state) : outcome A * state * list event :=
  match p in prog A return outcome A * state * list event with
  | Ret a => (Returns a, s, [])
  | Throw e => (Raises e, s, [])
  | Do c k =>
      match exec c s with
      | (Returns x, s, t) => let '(o, s, t') := run (k x) s in (o, s, t ++ t')
      | (Raises e, s, t) => (Raises e, s, t)
      end
  | Try body handler k =>
      let '(o, s, t) := run body s in
      let '(o, s, t) :=
        match o with
        | Returns b => (Returns b, s, t)
        | Raises e => let '(o, s, t') := run (handler e) s in (o, s, t ++ t')
        end in
      match o with
      | Returns b => let '(o, s, t') := run (k b) s in (o, s, t ++ t')
      | Raises e => (Raises e, s, t)
      end
  end.
End Interp.

#[global] Instance outcome_mbind : MBind outcome := fun A B f o => outcome_bind o f.
#[global] Instance outcome_mret : MRet outcome := fun A a => Returns a.

(** ** Wrapped methods and the six matrix reconstructions *)

(** [*par]: unpacking needs an iterable. *)
Definition unpack (par : pvalue) : outcome (list pvalue) :=
  match par with
  | PSeq l | PArr l => Returns l
  | PNum _ => Raises (type_error "argument after * must be an iterable")
  end.

Definition py_len (par : pvalue) : outcome nat :=
  match par with
  | PSeq l | PArr l => Returns (length l)
  | PNum _ => Raises (type_error "object of type 'float' has no len()")
  end.

(** [for par in parameters] *)
Definition py_iter (parameters : pvalue) : outcome (list pvalue) :=
  match parameters with
  | PSeq l | PArr l => Returns l
  | PNum _ => Raises (type_error "'float' object is not iterable")
  end.

(** The body of [wrapped_method]: the expected exception becomes [None],
    any other exception is returned as a value.  (The "undefined" exceptions
    of the operator model have no subclasses, so [except expected_exc] is a
    test on the class.) *)
Definition wrapped_method (expected_exc : exc_class) (call : outcome value) : value :=
  match call with
  | Returns v => v
  | Raises e => if decide (exc_type e = expected_exc) then VNone else VExc e
  end.

(** [wrap_op_method] (lines 94-124).  [getattr] runs when the method is
    wrapped, outside the [try]. *)
Definition wrap_op_method {Args} (_method : option (Args -> outcome value))
    (method : string) (expected_exc : exc_class) : outcome (Args -> value) :=
  match _method with
  | None => Raises (attribute_error ("object has no attribute '" +:+ method +:+ "'"))
  | Some m => Returns (fun args => wrapped_method expected_exc (m args))
  end.

Definition getattr_instance (instance : Instance) (method : string)
    : option (unit -> outcome value) :=
  (fun o (_ : unit) => o) <$> inst_method instance method.

Definition getattr_class (op : OpClass) (method : string)
    : option (list pvalue * option Wires -> outcome value) :=
  (fun f (a : list pvalue * option Wires) => f a.1 a.2) <$> cls_method op method.

(** [op( *par, wires=wires)] *)
Definition instantiate (op : OpClass) (par : pvalue) (wires : Wires) : outcome Instance :=
  args ← unpack par; cls_init op args wires.

(** [angles[i]] *)
Definition getitem (v : value) (i : nat) : outcome C :=
  match v with
  | VVector l =>
      match l !! i with
      | Some c => Returns c
      | None => Raises (index_error "index out of range")
      end
  | _ => Raises (type_error "object is not subscriptable")
  end.

Section Reconstructions.
Context (B : Backend).

(** [matrix_from_matrix] (lines 127-141) *)
Definition matrix_from_matrix (op : OpClass) (par : pvalue) (wires : Wires) : outcome value :=
  instance ← instantiate op par wires;
  m ← wrap_op_method (getattr_instance instance "get_matrix") "get_matrix" MatrixUndefinedError;
  Returns (m tt).

(** [matrix_from_sparse_matrix] (lines 144-161) *)
Definition matrix_from_sparse_matrix (op : OpClass) (par : pvalue) (wires : Wires)
    : outcome value :=
  instance ← instantiate op par wires;
  m ← wrap_op_method (getattr_instance instance "sparse_matrix") "sparse_matrix"
        SparseMatrixUndefinedError;
  let smat := m tt in
  if is_None smat || isinstance_Exception smat then Returns smat
  else qml_matrix B smat None.

(** [matrix_from_terms] (lines 164-182) *)
Definition matrix_from_terms (op : OpClass) (par : pvalue) (wires : Wires) : outcome value :=
  instance ← instantiate op par wires;
  m ← wrap_op_method (getattr_instance instance "terms") "terms" TermsUndefinedError;
  let terms := m tt in
  if is_None terms || isinstance_Exception terms then Returns terms
  else terms_matrix B terms.

(** [matrix_from_decomposition] (lines 185-200) *)
Definition matrix_from_decomposition (op : OpClass) (par : pvalue) (wires : Wires)
    : outcome value :=
  instance ← instantiate op par wires;
  m ← wrap_op_method (getattr_instance instance "expand") "expand" DecompositionUndefinedError;
  let tape := m tt in
  match tape with
  | VTape _ => qml_matrix B tape (Some wires)
  | _ => Returns tape
  end.

(** [matrix_from_single_qubit_rot_angles] (lines 203-225) *)
Definition matrix_from_single_qubit_rot_angles (op : OpClass) (par : pvalue) (wires : Wires)
    : outcome value :=
  instance ← instantiate op par wires;
  match inst_method instance "single_qubit_rot_angles" with
  | None => Returns VNone
  | Some (Raises e) =>
      if decide (exc_type e = AttributeError) then Returns VNone
      else if decide (exc_type e = NotImplementedError) then Returns VNone
      else Raises e
  | Some (Returns angles) =>
      a0 ← getitem angles 0;
      a1 ← getitem angles 1;
      a2 ← getitem angles 2;
      tape ← zyz_tape B a0 a1 a2 wires;
      qml_matrix B tape None
  end.

(** [1j * par[0] * mat] *)
Definition times_i_par0 (par : pvalue) (mat : value) : outcome matrix :=
  match par with
  | PSeq (PNum q :: _) | PArr (PNum q :: _) =>
      match mat with
      | VArray m => Returns (mat_scale m (mkC 0 q))
      | _ => Raises (type_error "unsupported operand type(s) for *")
      end
  | PSeq [] | PArr [] => Raises (index_error "index 0 is out of bounds")
  | _ => Raises (type_error "unsupported operand type(s) for *")
  end.

(** [matrix_from_generator] (lines 228-246) *)
Definition matrix_from_generator (op : OpClass) (par : pvalue) (wires : Wires)
    : outcome value :=
  instance ← instantiate op par wires;
  m ← wrap_op_method (getattr_instance instance "generator") "generator"
        GeneratorUndefinedError;
  let gen := m tt in
  if is_None gen || isinstance_Exception gen then Returns VNone
  else
    mat ← qml_matrix B gen None;
    arg ← times_i_par0 par mat;
    la_expm B arg.

Definition decomposition_methods : list (OpClass -> pvalue -> Wires -> outcome value) :=
  [ matrix_from_single_qubit_rot_angles;
    matrix_from_matrix;
    matrix_from_sparse_matrix;
    matrix_from_terms;
    matrix_from_decomposition;
    matrix_from_generator ].
End Reconstructions.

(** [[f x for x in l]] for a call [f] that may raise *)
Fixpoint map_outcome {X Y} (f : X -> outcome Y) (l : list X) : outcome (list Y) :=
  match l with
  | [] => Returns []
  | x :: l => y ← f x; ys ← map_outcome f l; Returns (y :: ys)
  end.

(** A one-dimensional array broadcasts like an array of one row. *)
Definition rows_of (v : value) : option matrix :=
  match v with
  | VArray m => Some m
  | VVector u => Some [u]
  | _ => None
  end.

(** [equal_up_to_phase] on the values the reconstructions return.  NumPy
    accepts arrays only; for any other operand (an exception object, a tape)
    [numpy.allclose] fails with a [TypeError].  With a one-dimensional operand
    the first comparison is made as for arrays; if it fails, the second index
    array [ids[1]] is missing for a one-dimensional [mat2], and the position
    has one index too many for a one-dimensional [mat1]. *)
Definition equal_up_to_phase_values (mat1 mat2 : value) (atol : Q) : outcome bool :=
  match mat1, mat2 with
  | VArray m1, VArray m2 => equal_up_to_phase m1 m2 atol
  | _, _ =>
      match rows_of mat1, rows_of mat2 with
      | Some m1, Some m2 =>
          close ← allclose 0 atol m1 m2;
          if close : bool then Returns true
          else
            match first_where (round_nonzero 10) m2 0, mat2 with
            | None, _ => Raises (index_error "index 0 is out of bounds for axis 0 with size 0")
            | Some _, VArray _ => Raises (index_error "too many indices for array")
            | Some _, _ => Raises (index_error "tuple index out of range")
            end
      | _, _ => Raises (type_error "ufunc 'isfinite' not supported for the input types")
      end
  end.

(** ** The check pipeline *)

(** [self.print_(string, level)] and [self.print_(string)] *)
Definition print (string : pmsg) (lvl : level) : prog unit := do_ (Cprint_ string (Some lvl)).
Definition print_without_level (string : pmsg) : prog unit := do_ (Cprint_ string None).

Definition fatal : exn :=
  new_exn CheckerError "Fatal error: Subsequent checks will not be possible.".

Definition neq_AnyWires (nw : num_wires_decl) : bool :=
  match nw with AnyWires => false | _ => true end.

(** [n == op.num_wires] for an integer [n] *)
Definition eq_num_wires (n : nat) (nw : num_wires_decl) : bool :=
  match nw with WiresInt k => Nat.eqb n k | _ => false end.

Definition num_wires_repr (nw : num_wires_decl) : string :=
  match nw with
  | WiresInt k => pretty k
  | AnyWires => "WiresEnum.AnyWires"
  | WiresProperty => "<property object>"
  end.

Definition num_params_repr (np : num_params_decl) : string :=
  match np with
  | ParamsInt k => pretty k
  | ParamsProperty => "<property object>"
  end.

(** [str] of a list of integers *)
Definition list_repr (l : list nat) : string :=
  "[" +:+ String.concat ", " (map pretty l) +:+ "]".

(** [OperationChecker._check_wires] (lines 439-467) *)
Definition _check_wires (op : OpClass) (wires : option Wires) : prog Wires :=
  match num_wires op with
  | WiresProperty =>
      print (MStr ("The operation " +:+ cls_repr op
                   +:+ " does not define the number of wires it acts on.")) LError ;;
      Throw fatal
  | nw =>
      match wires with
      | None =>
          match nw with
          | WiresInt n => Ret (seq 0 n)
          | _ => Ret [0; 1]%nat
          end
      | Some wires =>
          if neq_AnyWires nw && eq_num_wires (length wires) nw then
            print (MStr ("The number of provided wires (" +:+ pretty (length wires)
                         +:+ ") does not match the expected number (" +:+ num_wires_repr nw
                         +:+ ") for operation " +:+ cls_repr op)) LError ;;
            Throw fatal
          else Ret wires
      end
  end.

(** [OperationChecker._check_parameters] (lines 469-489) *)
Definition _check_parameters (op : OpClass) (parameters : option pvalue) : prog pvalue :=
  let num_params_known := match num_params op with ParamsInt _ => true | _ => false end in
  do_ (Cset_num_params_known num_params_known) ;;
  match parameters with
  | None =>
      match num_params op with
      | ParamsInt n => do_ (Cnp_random_random n)
      | ParamsProperty =>
          max <- do_ Cmax_num_params ;;
          l <- for_acc (seq 0 max) []
                 (fun acc num => p <- do_ (Cnp_random_random num) ;; Ret (acc ++ [p])) ;;
          Ret (PSeq l)
      end
  | Some parameters =>
      match num_params op with
      | ParamsInt n =>
          len <- lift (py_len parameters) ;;
          if negb (Nat.eqb len n) then
            print (MStr ("The number of provided parameters (" +:+ pretty len
                         +:+ ") does not match the expected number (" +:+ pretty n
                         +:+ ") for operation " +:+ cls_repr op)) LError ;;
            Throw fatal
          else Ret parameters
      | ParamsProperty => Ret parameters
      end
  end.

(** The body of the [try] in [_check_instantiation]; a bare [except]
    swallows every exception. *)
Definition try_instantiate (op : OpClass) (wires : Wires) (possible : list nat) (par : pvalue)
    : list nat :=
  match (instantiate op par wires ≫= fun _ => py_len par) with
  | Returns n => possible ++ [n]
  | Raises _ => possible
  end.

(** [OperationChecker._check_instantiation] (lines 491-525) *)
Definition _check_instantiation (op : OpClass) (parameters : pvalue) (wires : Wires)
    : prog unit :=
  known <- do_ Cget_num_params_known ;;
  if known : bool then
    _ <- lift (instantiate op parameters wires) ;; Ret tt
  else
    pars <- lift (py_iter parameters) ;;
    let possible_num_params := foldl (try_instantiate op wires) [] pars in
    (match possible_num_params with
     | [n] =>
         print (MStr ("Instantiating " +:+ cls_repr op +:+ " only succeeded when using "
                      +:+ pretty n +:+ " parameter(s)." +:+ newline
                      +:+ "Consider specifying the number of parameters by setting op.num_params."))
               LHint
     | [] =>
         par_lens <- lift (map_outcome py_len pars) ;;
         let err_str := "Instantiating " +:+ cls_repr op +:+ " did not succeed with any of"
                        +:+ newline +:+ list_repr par_lens +:+ " parameters." in
         let err_str :=
           if Nat.eqb (length pars) 1
           then err_str +:+ newline
                +:+ "It seems that you provided parameters of the wrong length for this operation,"
                +:+ newline +:+ "check the input to check_operation."
           else err_str in
         print (MStr err_str) LError
     | _ => Ret tt
     end) ;;
    do_ (Cset_possible_num_params possible_num_params).

Definition _default_methods_to_check : list (string * exc_class * bool) :=
  [ ("compute_eigvals", EigvalsUndefinedError, false);
    ("compute_matrix", MatrixUndefinedError, false);
    ("compute_sparse_matrix", SparseMatrixUndefinedError, false);
    ("compute_terms", TermsUndefinedError, false);
    ("compute_decomposition", DecompositionUndefinedError, true);
    ("compute_diagonalizing_gates", DiagGatesUndefinedError, true) ].

(** [str.replace(old, new)]: every occurrence, from the left. *)
Fixpoint replace_from (old new : string) (skip : nat) (s : string) : string :=
  match s with
  | EmptyString => EmptyString
  | String c s' =>
      match skip with
      | S n => replace_from old new n s'
      | O =>
          if String.prefix old s && negb (String.eqb old "")
          then new +:+ replace_from old new (String.length old - 1) s'
          else String c (replace_from old new O s')
      end
  end.
Definition replace (old new s : string) : string := replace_from old new O s.

(** [getattr(instance, name)()] *)
Definition call_method (instance : Instance) (name : string) : outcome value :=
  match inst_method instance name with
  | None => Raises (attribute_error ("object has no attribute '" +:+ name +:+ "'"))
  | Some o => o
  end.

(** [OperationChecker._check_single_method] (lines 527-591) *)
Definition _check_single_method (op : OpClass) (method_tuple : string * exc_class * bool)
    (parameters : pvalue) (wires : Wires) : prog unit :=
  let '(method, expected_exc, use_wires) := method_tuple in
  wrapped <- lift (wrap_op_method (getattr_class op method) method expected_exc) ;;
  let kwargs := if use_wires then Some wires else None in
  known <- do_ Cget_num_params_known ;;
  if known : bool then
    args <- lift (unpack parameters) ;;
    match wrapped (args, kwargs) with
    | VExc exc =>
        returned <- try_except
          (instance <- lift (instantiate op parameters wires) ;;
           _ <- lift (call_method instance (replace "compute" "get" method)) ;;
           print (MExc exc) LComment ;;
           print (MStr ("Operation method " +:+ cls_repr op +:+ "." +:+ method
                        +:+ " does not work" +:+ newline +:+ "with num_params ("
                        +:+ num_params_repr (num_params op)
                        +:+ ") parameters (see above) but is using additional (hyper)parameters."))
                 LComment ;;
           Ret true)
          (fun f =>
             print (MExc exc) LError ;;
             print (MExc f) LError ;;
             Ret false) ;;
        if returned : bool then Ret tt
        else
          print (MStr ("Operation method " +:+ cls_repr op +:+ "." +:+ method
                       +:+ " does not work" +:+ newline +:+ "with num_params ("
                       +:+ num_params_repr (num_params op) +:+ ") parameters.")) LError
    | _ => Ret tt
    end
  else
    pars <- lift (py_iter parameters) ;;
    lists <- for_acc pars ([], [])
      (fun (acc : list nat * list nat) par =>
         let '(failing_methods, succeeding_methods) := acc in
         args <- lift (unpack par) ;;
         let exc := wrapped (args, kwargs) in
         num <- lift (py_len par) ;;
         if is_None exc then
           possible <- do_ Cget_possible_num_params ;;
           if bool_decide (num ∉ possible)
           then Ret (failing_methods, succeeding_methods ++ [num])
           else Ret acc
         else if isinstance_Exception exc then
           possible <- do_ Cget_possible_num_params ;;
           if bool_decide (num ∈ possible)
           then Ret (failing_methods ++ [num], succeeding_methods)
           else Ret acc
         else Ret acc) ;;
    let '(failing_methods, succeeding_methods) := lists in
    (match failing_methods with
     | [] => Ret tt
     | _ =>
         print (MStr ("Operation method " +:+ cls_repr op +:+ "." +:+ method +:+ " does not work"
                      +:+ newline +:+ "with number(s) of parameters " +:+ list_repr failing_methods
                      +:+ newline
                      +:+ "but instantiation works with this/these number(s) of parameters."))
               LError
     end) ;;
    match succeeding_methods with
    | [] => Ret tt
    | _ =>
        print (MStr ("Operation method " +:+ cls_repr op +:+ "." +:+ method +:+ " works"
                     +:+ newline +:+ "with number(s) of parameters " +:+ list_repr succeeding_methods
                     +:+ newline
                     +:+ "but instantiation does not work with this/these number(s) of parameters."))
              LComment
    end.

Definition linalg_error (msg : string) : exn := new_exn ValueError msg.

(** What NumPy makes of a value where it needs a two-dimensional array.
    In the pipeline the matrix of an instance reaches these places after
    [_check_matrix_shape], which lets nothing but [None] and two-dimensional
    arrays pass. *)
Definition as_array (v : value) : outcome matrix :=
  match v with
  | VArray m => Returns m
  | VVector _ => Raises (linalg_error "array must be two-dimensional")
  | _ => Raises (type_error "unsupported operand type")
  end.

(** An array operand of a comparison, as rows, and [numpy.sort] of it, which
    sorts along the last axis. *)
Definition as_rows (v : value) : outcome matrix :=
  match rows_of v with
  | Some m => Returns m
  | None => Raises (type_error "unsupported operand type")
  end.

Definition sorted_rows (v : value) : outcome matrix :=
  m ← as_rows v; Returns (map np_sort m).

Section Pipeline.
Context (B : Backend).

(** [OperationChecker._check_decompositions] (lines 593-607).  No comma
    separates the two string literals of the call of [print_] on lines
    603-607: they are one argument, the message that ends in ".error", and no
    level is passed. *)
Definition _check_decompositions (op : OpClass) (parameters : pvalue) (wires : Wires)
    : prog unit :=
  known <- do_ Cget_num_params_known ;;
  pars <- (if known : bool then Ret [parameters] else lift (py_iter parameters)) ;;
  for_ pars (fun par =>
    matrices <- lift (map_outcome (fun meth => meth op par wires) (decomposition_methods B)) ;;
    let matrices := List.filter (fun mat => negb (is_None mat)) matrices in
    match matrices with
    | [] => Ret tt
    | first :: rest =>
        for_ rest (fun mat =>
          atol <- do_ Ctol ;;
          equal <- lift (equal_up_to_phase_values first mat atol) ;;
          if equal : bool then Ret tt
          else print_without_level
                 (MStr ("Matrices do not coincide for " +:+ cls_repr op +:+ "." +:+ "error")))
    end).

(** [OperationChecker._check_matrix_shape] (lines 629-642) *)
Definition _check_matrix_shape (matrix : value) (op : OpClass) : prog unit :=
  match matrix with
  | VNone => Ret tt
  | VArray m =>
      (if negb (Nat.eqb (shape0 m) (shape1 m))
       then print (MStr ("The operation " +:+ cls_repr op +:+ " defines a non-square matrix."))
                  LError
       else Ret tt) ;;
      match shape0 m with
      | O => Throw (new_exn OverflowError "cannot convert float infinity to integer")
      | _ =>
          let mat_num_wires := Nat.log2 (shape0 m) in
          if negb (eq_num_wires mat_num_wires (num_wires op)) && neq_AnyWires (num_wires op)
          then print (MStr ("The operation " +:+ cls_repr op +:+ " defines a matrix for "
                            +:+ pretty mat_num_wires +:+ " wires but is defined to have "
                            +:+ num_wires_repr (num_wires op) +:+ " wires.")) LError
          else Ret tt
      end
  | VVector _ => Throw (index_error "tuple index out of range")
  | _ => Throw (attribute_error "object has no attribute 'shape'")
  end.

(** [OperationChecker._check_eigvals] (lines 644-655) *)
Definition _check_eigvals (eigvals matrix : value) (op : OpClass) : prog unit :=
  if is_None matrix || is_None eigvals then Ret tt
  else
    m <- lift (as_array matrix) ;;
    mat_eigvals <- lift (la_eigvals B m) ;;
    ev <- lift (as_rows eigvals) ;;
    close <- lift (allclose default_rtol default_atol [mat_eigvals] ev) ;;
    if close : bool then Ret tt
    else print (MStr ("The eigenvalues of the matrix and the stored eigvals for "
                      +:+ cls_repr op +:+ " do not match.")) LError.

(** [diag_mat @ matrix @ diag_mat.conj().T] *)
Definition conjugate_by (diag_mat mat : matrix) : outcome matrix :=
  dm ← matmul diag_mat mat; matmul dm (conj_T diag_mat).

(** [OperationChecker._check_diag_gates] (lines 657-684) *)
Definition _check_diag_gates (diag_gates matrix eigvals : value) (op : OpClass) : prog unit :=
  if is_None diag_gates || is_None matrix then Ret tt
  else
    diag_mat <- lift
      (match diag_gates with
       | VGates [] => m ← as_array matrix; Returns (eye (shape0 m))
       | VGates gates => tape ← queue_tape B gates; v ← qml_matrix B tape None; as_array v
       | _ => Raises (type_error "object is not iterable")
       end) ;;
    m <- lift (as_array matrix) ;;
    diagonalized <- lift (conjugate_by diag_mat m) ;;
    diagonal <- lift (is_diagonal diagonalized) ;;
    if negb diagonal then
      print (MStr ("The diagonalizing gates do not diagonalize the matrix for "
                   +:+ cls_repr op +:+ ".")) LError
    else if is_None eigvals then Ret tt
    else
      ev <- lift (sorted_rows eigvals) ;;
      close <- lift (allclose default_rtol default_atol
                       ev [np_sort (diag_of diagonalized)]) ;;
      if close : bool then Ret tt
      else print (MStr ("The diagonalizing gates diagonalize the matrix but produce wrong "
                        +:+ "eigenvalues for " +:+ cls_repr op +:+ ".")) LError.

(** [OperationChecker._check_basis] (lines 686-714).  An instance without
    the attribute has basis [None]; a basis outside X, Y, Z leaves
    [diag_gates] unbound, and the name is read once per target wire. *)
Definition _check_basis (matrix : value) (instance : Instance) : prog unit :=
  match inst_basis instance with
  | None | Some None => Ret tt
  | Some (Some basis) =>
      if is_None matrix then Ret tt
      else
        let diag_gates :=
          if String.eqb basis "X" then Some ["Hadamard"]
          else if String.eqb basis "Y" then Some ["PauliZ"; "S"; "Hadamard"]
          else if String.eqb basis "Z" then Some ["Identity"]
          else None in
        let target_wires := unique_wires (inst_wires instance) (inst_control_wires instance) in
        diag_gates <- lift
          (match diag_gates, target_wires with
           | Some gates, _ => Returns gates
           | None, [] => Returns []
           | None, _ :: _ => Raises (new_exn UnboundLocalError
                               "local variable 'diag_gates' referenced before assignment")
           end) ;;
        diag_mat <- lift (basis_change B diag_gates instance) ;;
        m <- lift (as_array matrix) ;;
        conjugated <- lift (conjugate_by diag_mat m) ;;
        diagonal <- lift (is_diagonal conjugated) ;;
        if diagonal : bool then Ret tt
        else print (MStr ("The operation " +:+ inst_class_repr instance
                          +:+ " is not diagonal in the provided basis")) LError
  end.

(** [OperationChecker._check_properties] (lines 609-627) *)
Definition _check_properties (op : OpClass) (parameters : pvalue) (wires : Wires)
    : prog unit :=
  known <- do_ Cget_num_params_known ;;
  pars <- (if known : bool then Ret [parameters] else lift (py_iter parameters)) ;;
  for_ pars (fun par =>
    instance <- lift (instantiate op par wires) ;;
    get_matrix <- lift (wrap_op_method (getattr_instance instance "get_matrix")
                          "get_matrix" MatrixUndefinedError) ;;
    let mat := get_matrix tt in
    _check_matrix_shape mat op ;;
    get_eigvals <- lift (wrap_op_method (getattr_instance instance "get_eigvals")
                           "get_eigvals" EigvalsUndefinedError) ;;
    let eigvals := get_eigvals tt in
    _check_eigvals eigvals mat op ;;
    diagonalizing_gates <- lift (wrap_op_method (getattr_instance instance "diagonalizing_gates")
                                   "diagonalizing_gates" DiagGatesUndefinedError) ;;
    let diag_gates := diagonalizing_gates tt in
    _check_diag_gates diag_gates mat eigvals op ;;
    _check_basis mat instance).

(** [OperationChecker.check_single_operation] (lines 407-437) *)
Definition check_single_operation (op : checked) (parameters : option pvalue)
    (wires : option Wires) : prog unit :=
  seed <- do_ Cseed ;;
  (match seed with
   | Some z => do_ (Cnp_random_seed z)
   | None => Ret tt
   end) ;;
  let '(op, parameters, wires) :=
    match op with
    | OfClass c => (c, parameters, wires)
    | OfInstance i c => (c, Some (inst_parameters i), Some (inst_wires i))
    end in
  wires <- _check_wires op wires ;;
  parameters <- _check_parameters op parameters ;;
  _check_instantiation op parameters wires ;;
  for_ _default_methods_to_check
    (fun method_tuple => _check_single_method op method_tuple parameters wires) ;;
  _check_decompositions op parameters wires ;;
  _check_properties op parameters wires.
End Pipeline.

(** ** [OperationChecker.__call__] *)

(** The [wires] argument for a sequence of operations: one [Wires] object, or
    one entry per operation. *)
Inductive wires_arg :=
| WiresObject (w : Wires)
| WiresPerOp (ws : list (option Wires)).

Inductive call_args :=
| CallOne (op : checked) (parameters : option pvalue) (wires : option Wires)
| CallSeq (op : list checked) (parameters : option pvalue) (wires : option wires_arg).

Definition assertion_error : exn := new_exn AssertionError "".

(** [isinstance(x, Sequence)]: lists and tuples are sequences, numbers and
    NumPy arrays are not. *)
Definition isinstance_Sequence (x : pvalue) : bool :=
  match x with PSeq _ => true | _ => false end.

(** [parameters[0]] *)
Definition first_entry (parameters : pvalue) : outcome pvalue :=
  match parameters with
  | PNum _ => Raises (type_error "'float' object is not subscriptable")
  | PSeq [] => Raises (index_error "list index out of range")
  | PArr [] => Raises (index_error "index 0 is out of bounds for axis 0 with size 0")
  | PSeq (x :: _) | PArr (x :: _) => Returns x
  end.

(** Lines 334-339: the parameters are broadcast unless their first entry is
    itself a sequence; then there must be one entry per operation. *)
Definition broadcast_parameters (n : nat) (parameters : option pvalue)
    : outcome (list (option pvalue)) :=
  match parameters with
  | None => Returns (replicate n None)
  | Some p =>
      first ← first_entry p;
      if negb (isinstance_Sequence first) then Returns (replicate n (Some p))
      else
        len ← py_len p;
        if Nat.eqb len n
        then entries ← py_iter p; Returns (Some <$> (entries : list pvalue))
        else Raises assertion_error
  end.

(** Lines 340-345 *)
Definition broadcast_wires (n : nat) (wires : option wires_arg) : outcome (list (option Wires)) :=
  match wires with
  | None => Returns (replicate n None)
  | Some (WiresObject w) => Returns (replicate n (Some w))
  | Some (WiresPerOp ws) =>
      if Nat.eqb (length ws) n then Returns ws else Raises assertion_error
  end.

Definition zip3 {X Y Z} (xs : list X) (ys : list Y) (zs : list Z) : list (X * Y * Z) :=
  zip (zip xs ys) zs.

(** Lines 331-350: the operations to check, each with its parameters and
    wires. *)
Definition normalise (args : call_args)
    : outcome (list checked * list (checked * option pvalue * option Wires)) :=
  match args with
  | CallOne op parameters wires => Returns ([op], [(op, parameters, wires)])
  | CallSeq op parameters wires =>
      ps ← broadcast_parameters (length op) parameters;
      ws ← broadcast_wires (length op) wires;
      Returns (op, zip3 op ps ws)
  end.

(** [max(verbosity_levels.values())] *)
Definition max_level : nat := foldr Nat.max O (verbosity_levels <$> all_levels).

(** Lines 352-355: the seed is stored, every operation starts as "pass" and
    the texts are emptied. *)
Definition prepare (op : list checked) (seed : option Z) (s : state) : state :=
  let s := with_self (set_seed seed) s in
  let s := with_self (set_results (list_to_map ((fun op_ => (checked_key op_, LPass)) <$> op))) s in
  with_self (set_output ∅) s.

Section Call.
Context (B : Backend).

(** Lines 358-364: fresh per-operation storage and an empty text. *)
Definition start_session (op_ : checked) (s : state) : state :=
  let t := {| printed_header := false; tmp_op := op_; res := max_level;
              name := checked_name op_;
              num_params_known := None; possible_num_params := None |} in
  let s := with_self (set_tmp (Some t)) s in
  with_self (set_output (<[checked_key op_ := ""]> (output (self s)))) s.

(** One turn of the loop of [__call__] (lines 356-371).  Nothing in the
    loop catches an exception of the check steps. *)
Definition session (x : checked * option pvalue * option Wires) (s : state)
    : outcome unit * state * list event :=
  let '(op_, parameters_, wires_) := x in
  let s := start_session op_ s in
  match run B (check_single_operation B op_ parameters_ wires_) s with
  | (Raises e, s, t) => (Raises e, s, t)
  | (Returns _, s, t) =>
      match tmp (self s) ≫= fun tm => levels_verbosity (res tm) with
      | None => (Raises (key_error "res"), s, t)
      | Some lvl =>
          let s := with_self (set_results (<[checked_key op_ := lvl]> (results (self s)))) s in
          if bool_decide (lvl = LPass) then
            let '(o, s, t') :=
              print_ (MStr ("No problems have been found with the operation "
                            +:+ checked_repr op_ +:+ "." +:+ newline)) (Some LPass) s in
            (o, s, t ++ t')
          else (Returns tt, s, t)
      end
  end.

(** The loop; the [print_] invocations are kept per session. *)
Fixpoint sessions (l : list (checked * option pvalue * option Wires)) (s : state)
    : outcome unit * state * list (positive * list event) :=
  match l with
  | [] => (Returns tt, s, [])
  | x :: l =>
      let '(o, s, t) := session x s in
      match o with
      | Raises e => (Raises e, s, [(checked_key x.1.1, t)])
      | Returns _ =>
          let '(o, s, ts) := sessions l s in
          (o, s, (checked_key x.1.1, t) :: ts)
      end
  end.

(** [OperationChecker.__call__] (lines 310-373) *)
Definition __call__ (args : call_args) (seed : option Z) (s : state)
    : outcome (gmap positive level * gmap positive string) * state
      * list (positive * list event) :=
  match normalise args with
  | Raises e => (Raises e, s, [])
  | Returns (op, todo) =>
      let '(o, s, ts) := sessions todo (prepare op seed s) in
      match o with
      | Raises e => (Raises e, s, ts)
      | Returns _ => (Returns (results (self s), output (self s)), s, ts)
      end
  end.
End Call.

(** ** The dispatcher: [op_transform] *)

Section OpTransform.
(** The objects handed to a transform, the tapes their expansion yields,
    the remaining arguments and the results are left open. *)
Context {Obj Tape Args Result : Type}.
(** [obj.expand], when the object has the attribute. *)
Context (expand : Obj -> option (outcome Tape)).

Record op_transform := {
  _fn : Obj -> Args -> outcome Result;
  _tape_fn : option (Tape -> Args -> outcome Result)
}.

(** [op_transform.__init__] (lines 186-195) for a callable [fn] *)
Definition op_transform_init (fn : Obj -> Args -> outcome Result) : op_transform :=
  {| _fn := fn; _tape_fn := None |}.

(** [op_transform.tape_transform] (lines 289-328) *)
Definition tape_transform (self : op_transform) (fn : Tape -> Args -> outcome Result)
    : op_transform :=
  {| _fn := _fn self; _tape_fn := Some fn |}.

(** [op_transform.tape_fn] (lines 262-287) *)
Definition tape_fn (self : op_transform) (obj : Tape) (args : Args) : outcome Result :=
  match _tape_fn self with
  | None =>
      Raises (new_exn OperationTransformError
                "This transform does not support tapes or QNodes with multiple operations.")
  | Some f => f obj args
  end.

(** [raise e1 from None] *)
Definition from_None (e1 : exn) : exn := Exn (exc_type e1) (exc_msg e1) true.

(** [op_transform.fn] (lines 229-260).  [obj.expand()] is evaluated before
    [tape_fn] is entered. *)
Definition fn (self : op_transform) (obj : Obj) (args : Args) : outcome Result :=
  match _fn self obj args with
  | Returns r => Returns r
  | Raises e1 =>
      let attempt :=
        match expand obj with
        | None => Raises (attribute_error "object has no attribute 'expand'")
        | Some expanded => tape ← expanded; tape_fn self tape args
        end in
      match attempt with
      | Returns r => Returns r
      | Raises e2 =>
          if decide (exc_type e2 = AttributeError) then Raises (from_None e1)
          else if decide (exc_type e2 = OperationTransformError) then Raises (from_None e1)
          else Raises e2
      end
  end.
End OpTransform.

(** ** Concrete operations used as test inputs *)

Module Examples.

Definition unavailable {A} : outcome A := Raises (new_exn RuntimeError "unavailable").

(** A backend in which no collaborator is available; the random source
    counts upwards. *)
Definition null_backend : Backend :=
  {| qml_matrix := fun _ _ => unavailable;
     terms_matrix := fun _ => unavailable;
     zyz_tape := fun _ _ _ _ => unavailable;
     la_expm := fun _ => unavailable;
     la_eigvals := fun _ => unavailable;
     queue_tape := fun _ => unavailable;
     basis_change := fun _ _ => unavailable;
     rng_seed := fun z => z;
     rng_next := fun st => ((1 # 2)%Q, st + 1) |}.

Definition undefined (c : exc_class) : outcome value := Raises (new_exn c "").

(** The static methods of an operation that defines no representation. *)
Definition no_static_methods (method : string)
    : option (list pvalue -> option Wires -> outcome value) :=
  if String.eqb method "compute_eigvals" then Some (fun _ _ => undefined EigvalsUndefinedError)
  else if String.eqb method "compute_matrix" then Some (fun _ _ => undefined MatrixUndefinedError)
  else if String.eqb method "compute_sparse_matrix"
    then Some (fun _ _ => undefined SparseMatrixUndefinedError)
  else if String.eqb method "compute_terms" then Some (fun _ _ => undefined TermsUndefinedError)
  else if String.eqb method "compute_decomposition"
    then Some (fun _ _ => undefined DecompositionUndefinedError)
  else if String.eqb method "compute_diagonalizing_gates"
    then Some (fun _ _ => undefined DiagGatesUndefinedError)
  else None.

(** The methods of an instance that defines no representation. *)
Definition no_methods (method : string) : option (outcome value) :=
  if String.eqb method "get_matrix" then Some (undefined MatrixUndefinedError)
  else if String.eqb method "sparse_matrix" then Some (undefined SparseMatrixUndefinedError)
  else if String.eqb method "terms" then Some (undefined TermsUndefinedError)
  else if String.eqb method "expand" then Some (undefined DecompositionUndefinedError)
  else if String.eqb method "generator" then Some (undefined GeneratorUndefinedError)
  else if String.eqb method "get_eigvals" then Some (undefined EigvalsUndefinedError)
  else if String.eqb method "diagonalizing_gates" then Some (undefined DiagGatesUndefinedError)
  else None.

(** Override one method. *)
Definition with_method {V} (name : string) (v : V) (methods : string -> option V)
    : string -> option V :=
  fun method => if String.eqb method name then Some v else methods method.

Definition make_instance (repr : string) (wires : Wires)
    (methods : string -> option (outcome value)) : Instance :=
  {| inst_key := 1%positive; inst_repr := repr; inst_name := repr; inst_class_repr := repr;
     inst_parameters := PSeq []; inst_wires := wires; inst_control_wires := [];
     inst_basis := None; inst_method := methods |}.

(** A class with [n] parameters on [w] wires whose instances have the
    given methods. *)
Definition make_class (key : positive) (repr : string) (w : num_wires_decl) (n : nat)
    (methods : string -> option (outcome value)) : OpClass :=
  {| cls_key := key; cls_repr := repr; cls_name := repr;
     num_wires := w; num_params := ParamsInt n;
     cls_init := fun args wires =>
       if Nat.eqb (length args) n then Returns (make_instance repr wires methods)
       else Raises (type_error "__init__() got a wrong number of positional arguments");
     cls_method := no_static_methods |}.

Definition fresh (c : OperationChecker) : state :=
  {| self := c; np_random_state := 0; stdout := [] |}.

Definition boom : exn := new_exn RuntimeError "boom".

(** An operation whose only representation is a generator that fails. *)
Definition BrokenGenerator : OpClass :=
  make_class 2 "BrokenGenerator" (WiresInt 1) 1 (with_method "generator" (Raises boom) no_methods).

Definition identity2 : matrix := eye 2.

(** An operation with a matrix and a sparse matrix that fails. *)
Definition BrokenSparse : OpClass :=
  make_class 3 "BrokenSparse" (WiresInt 1) 1
    (with_method "get_matrix" (Returns (VArray identity2))
       (with_method "sparse_matrix" (Raises boom) no_methods)).

(** An operation that leaves [num_wires] abstract, and a well-formed one. *)
Definition NoWires : OpClass := make_class 4 "NoWires" WiresProperty 0 no_methods.
Definition Plain : OpClass := make_class 5 "Plain" (WiresInt 1) 1 no_methods.

End Examples.

(** ** Vocabulary of the properties *)

(** The levels of the messages of a trace. *)
Definition levels_of (tr : list event) : list nat :=
  map (fun ev => verbosity_levels (ev_level ev)) tr.

(** The minimum of [r] and the entries of [l]. *)
Definition min_from (r : nat) (l : list nat) : nat := foldr Nat.min r l.

(** The severity accumulated by a session that emitted [tr]: the minimum of
    the levels of its messages, starting from "pass" (3). *)
Definition severity (tr : list event) : nat := min_from 3 (levels_of tr).

(** The messages of the last session of the operation [key]. *)
Fixpoint last_session (key : positive) (ts : list (positive * list event))
    : option (list event) :=
  match ts with
  | [] => None
  | (k, tr) :: ts =>
      match last_session key ts with
      | Some tr' => Some tr'
      | None => if decide (k = key) then Some tr else None
      end
  end.

(** The operations a call is asked to check. *)
Definition operations (args : call_args) : list checked :=
  match args with
  | CallOne op _ _ => [op]
  | CallSeq op _ _ => op
  end.

(** What a step may change in a session: it keeps the operation, folds the
    levels of its messages into [res], and leaves [results] alone. *)
Definition session_step (s s' : state) (tr : list event) : Prop :=
  forall t, tmp (self s) = Some t ->
    exists t', tmp (self s') = Some t'
      /\ tmp_op t' = tmp_op t
      /\ res t' = min_from (res t) (levels_of tr)
      /\ Forall (fun ev => ev_key ev = checked_key (tmp_op t)) tr.

(** What follows an error message that announces an abort: the signal is
    raised, unless [print_] itself failed. *)
Definition then_abort {A} (r : outcome unit * state * list event)
    : outcome A * state * list event :=
  match r with
  | (Returns _, s, t) => (Raises fatal, s, t)
  | (Raises e, s, t) => (Raises e, s, t)
  end.

(** The message of the wire-count check. *)
Definition wires_message (op : OpClass) (wires : Wires) : string :=
  "The number of provided wires (" +:+ pretty (length wires)
  +:+ ") does not match the expected number (" +:+ num_wires_repr (num_wires op)
  +:+ ") for operation " +:+ cls_repr op.

(** The message of the eigenvalue check. *)
Definition eigvals_message (op : OpClass) : string :=
  "The eigenvalues of the matrix and the stored eigvals for " +:+ cls_repr op
  +:+ " do not match.".

(** The part of [self.tmp] that does not depend on what was printed. *)
Definition tmp_core (t : Tmp) : checked * nat * string * option bool * option (list nat) :=
  (tmp_op t, res t, name t, num_params_known t, possible_num_params t).

(** The text of the current operation has been initialised. *)
Definition well_keyed (s : state) : Prop :=
  match tmp (self s) with
  | Some t => is_Some (output (self s) !! checked_key (tmp_op t))
  | None => True
  end.


(** The invocation of [print_] recorded as [ev] ends in the [TypeError] of
    the concatenation: colors are off, the message is an exception object,
    and the level passes the filter of the checker [c]. *)
Definition crashes (c : OperationChecker) (ev : event) : bool :=
  negb (print_color c)
  && match ev_msg ev with MExc _ => true | MStr _ => false end
  && (bool_decide (ev_level ev = LError) || bool_decide (ev_level ev ∈ _verbosity c)).

(** The [TypeError] of ["\n" + string] for an exception object. *)
Definition concat_error : exn := type_error "can only concatenate str to str".

(** The configuration of the checker, which no step changes. *)
Definition same_config (s s' : state) : Prop :=
  _verbosity (self s') = _verbosity (self s)
  /\ print_color (self s') = print_color (self s).

(** Whenever a run of [p] contains a crashing invocation of [print_], the
    run ends in an exception. *)
Definition crash_raises {A} (p : prog A) : Prop :=
  forall (B : Backend) (s : state) o s' t,
    run B p s = (o, s', t) -> Exists (crashes (self s)) t -> exists e, o = Raises e.

(** With colors off, [p] always ends in an exception. *)
Definition raises_without_color {A} (p : prog A) : Prop :=
  forall (B : Backend) (s : state),
    print_color (self s) = false -> exists e s' t, run B p s = (Raises e, s', t).


(** Mapping over the returned value of an outcome. *)
#[global] Instance outcome_fmap : FMap outcome := fun A A' f o =>
  match o with
  | Returns a => Returns (f a)
  | Raises e => Raises e
  end.

(** The length of the text reported for an operation. *)
Definition text_length (key : positive) (r : outcome (gmap positive level * gmap positive string))
    : option nat :=
  match r with
  | Returns x => String.length <$> (x.2 !! key)
  | Raises _ => None
  end.

(** ** Further test inputs *)

(** [OperationChecker()] with the default arguments. *)
Definition checker0 : OperationChecker := __init__ LPass 10 true (1 # 100000).

(** Checking the operation Plain alone. *)
Definition plain_call : outcome (gmap positive level * gmap positive string) * state
                        * list (positive * list event) :=
  __call__ Examples.null_backend (CallOne (OfClass Examples.Plain) None None) None
    (Examples.fresh (__init__ LPass 10 true (1 # 100000))).

(** A state in the middle of the session of Plain. *)
Definition plain_session : state :=
  Examples.fresh
    (set_tmp (Some (mkTmp false (OfClass Examples.Plain) 3 "Plain" None None))
       (set_output {[ 5%positive := "" ]} (__init__ LPass 10 true (1 # 100000)))).

(** An operation class that does not declare its parameter count. *)
Definition unknown_count : OpClass :=
  {| cls_key := 6; cls_repr := "UnknownCount"; cls_name := "UnknownCount";
     num_wires := WiresInt 1; num_params := ParamsProperty;
     cls_init := fun _ _ => Examples.unavailable;
     cls_method := Examples.no_static_methods |}.

(** The matrix diag(1, -1). *)
Definition pauli_z : matrix := [[C1; C0]; [C0; Cm1]].

(** A backend whose [eigvals] reads the eigenvalues off the diagonal (exact
    for diagonal matrices). *)
Definition diagonal_backend : Backend :=
  {| qml_matrix := fun _ _ => Examples.unavailable;
     terms_matrix := fun _ => Examples.unavailable;
     zyz_tape := fun _ _ _ _ => Examples.unavailable;
     la_expm := fun _ => Examples.unavailable;
     la_eigvals := fun m => Returns (diag_of m);
     queue_tape := fun _ => Examples.unavailable;
     basis_change := fun _ _ => Examples.unavailable;
     rng_seed := fun z => z;
     rng_next := fun st => ((1 # 2)%Q, st + 1) |}.

(** 4.9e-11, and the 1x1 matrix with entry 4.9e-11 (1 + i). *)
Definition tiny : Q := 49 # 1000000000000.
Definition tiny_matrix : matrix := [[mkC tiny tiny]].

(** The parameter vector [0.5], the first draw of the example backends. *)
Definition half : pvalue := PArr [PNum (1 # 2)].

(** Checking the sequence [NoWires, Plain]. *)
Definition two_operations : call_args :=
  CallSeq [OfClass Examples.NoWires; OfClass Examples.Plain] None None.

(** The error about an abstract wire count. *)
Definition no_wires_message : pmsg :=
  MStr "The operation NoWires does not define the number of wires it acts on.".

(** Inputs for the dispatcher. *)
Module Dispatch.
Definition obj := unit.
Definition tape := unit.

Definition no_matrix : exn := new_exn MatrixUndefinedError "no matrix".
Definition no_decomposition : exn := new_exn DecompositionUndefinedError "".

(** an operator whose [expand] exists and raises: it has no decomposition *)
Definition expand_undefined (_ : obj) : option (outcome tape) :=
  Some (Raises no_decomposition).
(** an object without [expand] *)
Definition expand_missing (_ : obj) : option (outcome tape) := None.

(** a transform whose function raises, with no tape transform registered *)
Definition failing : op_transform (Obj := obj) (Tape := tape) (Args := unit) (Result := nat) :=
  op_transform_init (fun _ _ => Raises no_matrix).
End Dispatch.

(** An operation whose static [compute_matrix] fails while the instance's
    [get_matrix] works: the checker comments on it. *)
Definition Hyper : OpClass :=
  {| cls_key := 7; cls_repr := "Hyper"; cls_name := "Hyper";
     num_wires := WiresInt 1; num_params := ParamsInt 1;
     cls_init := fun args wires =>
       if Nat.eqb (length args) 1
       then Returns (Examples.make_instance "Hyper" wires
                       (Examples.with_method "get_matrix" (Returns (VArray Examples.identity2))
                          Examples.no_methods))
       else Raises (type_error "__init__() got a wrong number of positional arguments");
     cls_method :=
       Examples.with_method "compute_matrix" (fun _ _ => Raises Examples.boom)
         Examples.no_static_methods |}.

(** Checking Hyper alone, with the given verbosity and color flag. *)
Definition hyper_call (verbosity : level) (color : bool)
    : outcome (gmap positive level * gmap positive string) :=
  (__call__ Examples.null_backend (CallOne (OfClass Hyper) None None) None
     (mkState (__init__ verbosity 10 color (1 # 100000)) 0 [])).1.1.

(** ** The entry points of the dispatcher

    [_make_tape], [op_transform.__call__], [op_transform._create_wrapper]
    and the class [tape_transform] of op_transform.py.  The objects a
    transform is applied to are classified as the [isinstance] and
    [callable] tests of the source classify them. *)

Module Dispatcher.

(** A tape: its wires and its operations. *)
Record QuantumTape := {
  tape_wires : Wires;
  tape_operations : list string
}.

(** An operator instance: its wires and the outcome of [expand()], when the
    instance has the method. *)
Record Operator := {
  op_wires : Wires;
  op_expand : option (outcome QuantumTape)
}.

(** What [_make_tape] binds to [tape]: a tape, or the operator built from an
    operator class. *)
Inductive circuit :=
| AnOperator (o : Operator)
| ATape (t : QuantumTape).

(** [tape.wires] *)
Definition wires_of (c : circuit) : Wires :=
  match c with
  | AnOperator o => op_wires o
  | ATape t => tape_wires t
  end.

Definition transform_error (msg : string) : exn := new_exn OperationTransformError msg.

Section Dispatch.
(** The arguments a QNode, a quantum function or an operator class is called
    with, the keyword arguments of the transform other than [wire_order], and
    the results of the transform are left open. *)
Context {A K Result : Type}.
(** [qml.wires.Wires(wire_order)] *)
Context (as_Wires : list nat -> outcome Wires).
(** the empty argument list *)
Context (no_args : A).

(** The first positional argument of the transform, by the tests of the
    source.  A QNode carries [construct] followed by [qtape], and the wires of
    its device; a quantum function carries [qml.transforms.make_tape(obj)].
    Operator instances are not callable. *)
Inductive pyobj :=
| QNode (construct : A -> outcome QuantumTape) (device_wires : Wires)
| Tape (t : QuantumTape)
| OperatorClass (init : A -> outcome Operator)
| OperatorInstance (o : Operator)
| Callable (make_tape : A -> outcome QuantumTape)
| PyNone
| Other (v : string).

(** [isinstance(obj, (Operator, QuantumTape)) or callable(obj)] *)
Definition is_transformable (obj : pyobj) : bool :=
  match obj with
  | PyNone | Other _ => false
  | _ => true
  end.

(** What the registered functions receive after the object: the positional
    arguments and the keyword arguments of the transform, and the keyword
    [wire_order] when it has been set. *)
Definition transform_args : Type := list pyobj * K * option Wires.

Definition transform : Type :=
  op_transform (Obj := Operator) (Tape := circuit) (Args := transform_args) (Result := Result).

(** [obj.expand] of an operator *)
Definition expand (o : Operator) : option (outcome circuit) :=
  (fun t : outcome QuantumTape => ATape <$> t) <$> op_expand o.

(** The class [tape_transform] (lines 371-384): [__init__] for a callable
    [fn].  [_fn] is [None], and calling [None] is a [TypeError]. *)
Definition tape_transform_class (fn : circuit -> transform_args -> outcome Result) : transform :=
  {| _fn := fun _ _ => Raises (type_error "'NoneType' object is not callable");
     _tape_fn := Some fn |}.

(** [_make_tape] (lines 30-78) *)
Definition _make_tape (obj : pyobj) (wire_order : option (list nat)) (args : A)
    : outcome (circuit * Wires) :=
  made ← match obj with
         | QNode construct device_wires =>
             tape ← construct args; Returns (ATape tape, device_wires)
         | Tape tape => Returns (ATape tape, tape_wires tape)
         | OperatorClass init =>
             tape ← init args; Returns (AnOperator tape, op_wires tape)
         | Callable make_tape =>
             tape ← make_tape args;
             if Nat.eqb (length (tape_operations tape)) 0
             then Raises (transform_error "Quantum function contains no quantum operations")
             else Returns (ATape tape, tape_wires tape)
         | _ =>
             Raises (transform_error
                       "Input is not an Operator, tape, QNode, or quantum function")
         end;
  let '(tape, wires) := made in
  wire_order ← match wire_order with
               | None => Returns wires
               | Some w => as_Wires w
               end;
  if forallb (fun w => bool_decide (w ∈ wire_order)) (wires_of tape)
  then Returns (tape, wire_order)
  else Raises (transform_error "Wires in circuit are inconsistent with those in wire_order").

(** What [_create_wrapper] returns: the value of the transform, or the
    function that still waits for the arguments of the circuit. *)
Inductive wrapper :=
| Evaluated (r : Result)
| Deferred (w : A -> outcome Result).

(** [tkwargs["wire_order"] = new_wire_order], only if a wire order was given *)
Definition set_wire_order (wire_order : option (list nat)) (new_wire_order : Wires)
    : option Wires :=
  match wire_order with
  | None => None
  | Some _ => Some new_wire_order
  end.

(** [op_transform._create_wrapper] (lines 330-368) *)
Definition _create_wrapper (self : transform) (obj : pyobj) (targs : list pyobj)
    (wire_order : option (list nat)) (tkwargs : K) : outcome wrapper :=
  match obj with
  | OperatorInstance o =>
      r ← fn expand self o (targs, tkwargs, wire_order); Returns (Evaluated r)
  | Tape _ =>
      made ← _make_tape obj wire_order no_args;
      let '(tape, new_wire_order) := made in
      r ← tape_fn self tape (targs, tkwargs, set_wire_order wire_order new_wire_order);
      Returns (Evaluated r)
  | QNode _ _ | OperatorClass _ | Callable _ =>
      Returns (Deferred (fun args =>
        made ← _make_tape obj wire_order args;
        let '(tape, new_wire_order) := made in
        let kwargs := (targs, tkwargs, set_wire_order wire_order new_wire_order) in
        match tape with
        | AnOperator o => fn expand self o kwargs
        | ATape _ => tape_fn self tape kwargs
        end))
  | _ =>
      Raises (transform_error "Input is not an Operator, tape, QNode, or quantum function")
  end.

(** What [__call__] returns: the wrapper of its first argument, or the
    decorator that still waits for the object. *)
Inductive called :=
| Direct (w : wrapper)
| Decorator (w : pyobj -> outcome wrapper).

(** [op_transform.__call__] (lines 197-227) *)
Definition __call__ (self : transform) (targs : list pyobj)
    (wire_order : option (list nat)) (tkwargs : K) : outcome called :=
  let '(obj, targs) :=
    match targs with
    | [] => (PyNone, [])
    | obj :: targs => (obj, targs)
    end in
  if is_transformable obj then
    w ← _create_wrapper self obj targs wire_order tkwargs; Returns (Direct w)
  else
    let targs := match obj with PyNone => targs | _ => obj :: targs end in
    Returns (Decorator (fun obj => _create_wrapper self obj targs wire_order tkwargs)).

End Dispatch.
End Dispatcher.

(** Inputs for the entry points of the dispatcher: the arguments of a
    circuit and the keyword arguments of a transform are empty, a transform
    returns a number, and every list of wires is a wire order. *)
Module DispatcherExamples.
Import Dispatcher.

Definition rx_tape : QuantumTape :=
  {| tape_wires := [0%nat]; tape_operations := ["RZ"; "RY"; "RZ"] |}.

(** an operator on wire 0 that expands to a tape *)
Definition rx : Operator := {| op_wires := [0%nat]; op_expand := Some (Returns rx_tape) |}.

Definition RX : pyobj (A := unit) := OperatorClass (fun _ => Returns rx).

(** a quantum function that records the operations of [rx_tape] *)
Definition circuit_fn : pyobj (A := unit) := Callable (fun _ => Returns rx_tape).

(** an operator function that counts the wires of the operator *)
Definition count_wires (o : Operator) (_ : transform_args (A := unit) (K := unit))
    : outcome nat :=
  Returns (length (op_wires o)).

Definition count : transform (A := unit) (K := unit) (Result := nat) :=
  op_transform_init count_wires.

End DispatcherExamples.

(** ** Further inputs for the checker *)

(** An instance of Plain on wire 0. *)
Definition plain_instance : Instance :=
  Examples.make_instance "Plain" [0%nat] Examples.no_methods.

(** The operation can be built with the candidate parameters [par]. *)
Definition constructible (op : OpClass) (wires : Wires) (par : pvalue) : bool :=
  match instantiate op par wires with
  | Returns _ => true
  | Raises _ => false
  end.

(** An operation class on one wire that does not declare its parameter count
    and can be built with one parameter only. *)
Definition OneParameter : OpClass :=
  {| cls_key := 8; cls_repr := "OneParameter"; cls_name := "OneParameter";
     num_wires := WiresInt 1; num_params := ParamsProperty;
     cls_init := fun args wires =>
       if Nat.eqb (length args) 1
       then Returns (Examples.make_instance "OneParameter" wires Examples.no_methods)
       else Raises (type_error "__init__() got a wrong number of positional arguments");
     cls_method := Examples.no_static_methods |}.

(** A state in the middle of the session of OneParameter, after
    [_check_parameters]. *)
Definition one_parameter_session : state :=
  Examples.fresh
    (set_tmp (Some (mkTmp false (OfClass OneParameter) 3 "OneParameter" (Some false) None))
       (set_output {[ 8%positive := "" ]} (__init__ LPass 10 true (1 # 100000)))).

(** Candidate parameters of lengths 0, 1 and 2. *)
Definition three_candidates : list (list pvalue) :=
  [[]; [PNum (1 # 2)]; [PNum (1 # 2); PNum (1 # 2)]].

(** The second access to a representation in [_check_single_method]: build
    the instance and call its method of the corresponding name. *)
Definition alternative_access (op : OpClass) (method : string) (args : list pvalue)
    (wires : Wires) : outcome value :=
  instance ← instantiate op (PSeq args) wires;
  call_method instance (replace "compute" "get" method).

(** The comment and the error about a static method that fails. *)
Definition hyperparameter_message (op : OpClass) (method : string) : string :=
  "Operation method " +:+ cls_repr op +:+ "." +:+ method +:+ " does not work" +:+ newline
  +:+ "with num_params (" +:+ num_params_repr (num_params op)
  +:+ ") parameters (see above) but is using additional (hyper)parameters.".

Definition method_error_message (op : OpClass) (method : string) : string :=
  "Operation method " +:+ cls_repr op +:+ "." +:+ method +:+ " does not work" +:+ newline
  +:+ "with num_params (" +:+ num_params_repr (num_params op) +:+ ") parameters.".

(** The keyword arguments of a static method. *)
Definition method_kwargs (use_wires : bool) (wires : Wires) : option Wires :=
  if use_wires then Some wires else None.

(** A state in the middle of the session of an operation with a known
    number of parameters, for a checker with the given verbosity and color
    flag. *)
Definition known_session (op : OpClass) (verbosity : level) (color : bool) : state :=
  Examples.fresh
    (set_tmp (Some (mkTmp false (OfClass op) 3 (cls_name op) (Some true) None))
       (set_output {[ cls_key op := "" ]} (__init__ verbosity 10 color (1 # 100000)))).

(** An operation whose static [compute_matrix] and whose [get_matrix] both
    fail. *)
Definition BrokenMatrix : OpClass :=
  {| cls_key := 9; cls_repr := "BrokenMatrix"; cls_name := "BrokenMatrix";
     num_wires := WiresInt 1; num_params := ParamsInt 1;
     cls_init := fun args wires =>
       if Nat.eqb (length args) 1
       then Returns (Examples.make_instance "BrokenMatrix" wires
                       (Examples.with_method "get_matrix" (Raises Examples.boom)
                          Examples.no_methods))
       else Raises (type_error "__init__() got a wrong number of positional arguments");
     cls_method :=
       Examples.with_method "compute_matrix" (fun _ _ => Raises Examples.boom)
         Examples.no_static_methods |}.

(** The comment about a static method that is said to work with numbers of
    parameters with which the operation cannot be built. *)
Definition works_message (op : OpClass) (method : string) (nums : list nat) : string :=
  "Operation method " +:+ cls_repr op +:+ "." +:+ method +:+ " works" +:+ newline
  +:+ "with number(s) of parameters " +:+ list_repr nums +:+ newline
  +:+ "but instantiation does not work with this/these number(s) of parameters.".

(** The lengths of the candidates that are not among the possible numbers
    of parameters. *)
Definition impossible_lengths (possible : list nat) (pars : list (list pvalue)) : list nat :=
  List.filter (fun num => bool_decide (num ∉ possible)) (length <$> pars).

(** The session of OneParameter after [_check_instantiation]: one parameter
    is the only possible number. *)
Definition one_parameter_checked : state :=
  Examples.fresh
    (set_tmp (Some (mkTmp false (OfClass OneParameter) 3 "OneParameter" (Some false)
                      (Some [1%nat])))
       (set_output {[ 8%positive := "" ]} (__init__ LPass 10 true (1 # 100000)))).

(** Every command that a program may run satisfies [P]. *)
Fixpoint only (P : forall X, cmd X -> Prop) {A} (p : prog A) : Prop :=
  match p with
  | Ret _ => True
  | Throw _ => True
  | Do c k => P _ c /\ forall x, only P (k x)
  | Try body handler k =>
      only P body /\ (forall e, only P (handler e)) /\ forall b, only P (k b)
  end.

(** The command does not assign [self.tmp["num_params_known"]]. *)
Definition keeps_known {X} (c : cmd X) : Prop :=
  match c with
  | Cset_num_params_known _ => False
  | _ => True
  end.

(** The command does not print at the level "pass". *)
Definition below_pass {X} (c : cmd X) : Prop :=
  match c with
  | Cprint_ _ lvl => lvl <> Some LPass
  | _ => True
  end.

(** [s'] still has per-operation storage, with the entry
    [num_params_known] of [s]. *)
Definition known_kept (s s' : state) (_ : list event) : Prop :=
  forall t, tmp (self s) = Some t ->
    exists t', tmp (self s') = Some t' /\ num_params_known t' = num_params_known t.

(** ** The text of an operation *)

(** The message passes the filter of [print_]: errors always do, other
    levels when the verbosity of the checker contains them. *)
Definition shown (c : OperationChecker) (ev : event) : bool :=
  bool_decide (ev_level ev = LError) || bool_decide (ev_level ev ∈ _verbosity c).

(** What [print_] appends to the text for a message that is shown. *)
Definition line (c : OperationChecker) (ev : event) : string :=
  newline +:+ (if print_color c then colorize (ev_level ev) (str_of (ev_msg ev))
               else str_of (ev_msg ev)).

Definition lines (c : OperationChecker) (evs : list event) : string :=
  foldr (fun ev acc => line c ev +:+ acc) "" evs.

(** What a sequence of messages adds to the text of the operation [op]:
    the header, unless it has been printed or no message is shown, and the
    lines of the messages that are shown. *)
Definition added (c : OperationChecker) (op : checked) (printed : bool) (tr : list event)
    : string :=
  let evs := List.filter (shown c) tr in
  (if printed then ""
   else match evs with [] => "" | _ => header_of op end) +:+ lines c evs.

(** The text of an operation whose session emitted [tr]. *)
Definition rendered (c : OperationChecker) (op : checked) (tr : list event) : string :=
  added c op false tr.

(** What running a part of a session does to the text: unless an invocation
    of [print_] crashed, the text of the operation of the session has grown by
    what the messages add, the texts of the other operations are as they
    were, and the header counts as printed once a message was shown. *)
Definition text_step (s s' : state) (tr : list event) : Prop :=
  same_config s s'
  /\ forall t old,
       tmp (self s) = Some t ->
       output (self s) !! checked_key (tmp_op t) = Some old ->
       ~ Exists (crashes (self s)) tr ->
       exists t',
         tmp (self s') = Some t'
         /\ tmp_op t' = tmp_op t
         /\ printed_header t'
            = printed_header t || negb (forallb (fun ev => negb (shown (self s) ev)) tr)
         /\ output (self s')
            = <[checked_key (tmp_op t) :=
                  old +:+ added (self s) (tmp_op t) (printed_header t) tr]> (output (self s)).

(** Any command. *)
Definition any_command (X : Type) (_ : cmd X) : Prop := True.

(** No message of the trace has the level "pass". *)
Definition below_pass_trace (_ _ : state) (tr : list event) : Prop :=
  Forall (fun ev => ev_level ev <> LPass) tr.

(** An operation with one parameter whose constructor always raises. *)
Definition Unbuildable : OpClass :=
  {| cls_key := 10; cls_repr := "Unbuildable"; cls_name := "Unbuildable";
     num_wires := WiresInt 1; num_params := ParamsInt 1;
     cls_init := fun _ _ => Raises Examples.boom;
     cls_method := Examples.no_static_methods |}.

(** Equality of complex numbers as numbers. *)
Definition Ceq (a b : C) : Prop := (re a == re b)%Q /\ (im a == im b)%Q.

(** ** The abort signal *)

(** What [check_single_operation] checks (lines 421-425): a class with the
    parameters and wires of the call, or the class of an instance with the
    parameters and wires of the instance. *)
Definition inputs_of (x : checked * option pvalue * option Wires)
    : OpClass * option pvalue * option Wires :=
  match x with
  | (OfClass c, parameters, wires) => (c, parameters, wires)
  | (OfInstance i c, _, _) => (c, Some (inst_parameters i), Some (inst_wires i))
  end.

(** The tests of [_check_wires] that end in the abort signal: the wire
    count is still the abstract property, or wires are supplied and their
    number passes the comparison of line 459. *)
Definition wires_abort (op : OpClass) (wires : option Wires) : bool :=
  match num_wires op, wires with
  | WiresProperty, _ => true
  | nw, Some wires => neq_AnyWires nw && eq_num_wires (length wires) nw
  | _, None => false
  end.

(** The test of [_check_parameters] that ends in the abort signal: the
    parameter count is declared and differs from the number of supplied
    parameters. *)
Definition parameters_abort (op : OpClass) (parameters : option pvalue) : bool :=
  match num_params op, parameters with
  | ParamsInt n, Some p =>
      match py_len p with
      | Returns len => negb (Nat.eqb len n)
      | Raises _ => false
      end
  | _, _ => false
  end.

(** The operation triggers the abort signal in one of the two steps. *)
Definition triggers_abort (x : checked * option pvalue * option Wires) : bool :=
  let '(op, parameters, wires) := inputs_of x in
  wires_abort op wires || parameters_abort op parameters.

(** Checking the sequence [Plain, NoWires, Plain]. *)
Definition three_operations : call_args :=
  CallSeq [OfClass Examples.Plain; OfClass Examples.NoWires; OfClass Examples.Plain] None None.

(** ** All messages of an operation *)

(** The messages emitted for the operation [key] during a call, over all of
    its sessions, in order. *)
Definition messages_of (key : positive) (ts : list (positive * list event)) : list event :=
  flat_map (fun kt : positive * list event => if decide (kt.1 = key) then kt.2 else []) ts.

(** How often the operation [key] is listed in a call. *)
Definition times_listed (key : positive) (op : list checked) : nat :=
  length (filter (fun op_ => checked_key op_ = key) op).

(** An operation on one wire whose static [compute_matrix] fails and whose
    matrix has the right size for the parameter 0.5 only: 2x2 for 0.5, 4x4
    for any other parameter. *)
Definition Moody : OpClass :=
  {| cls_key := 11; cls_repr := "Moody"; cls_name := "Moody";
     num_wires := WiresInt 1; num_params := ParamsInt 1;
     cls_init := fun args wires =>
       match args with
       | [PNum q] =>
           Returns (Examples.make_instance "Moody" wires
                      (Examples.with_method "get_matrix"
                         (Returns (VArray (if Qeq_bool q (1 # 2) then eye 2 else eye 4)))
                         Examples.no_methods))
       | _ => Raises (type_error "__init__() got a wrong number of positional arguments")
       end;
     cls_method :=
       Examples.with_method "compute_matrix" (fun _ _ => Raises Examples.boom)
         Examples.no_static_methods |}.

(** Checking Moody with the parameter 0.25, and checking it twice, with 0.25
    and then with 0.5. *)
Definition moody_once : call_args :=
  CallOne (OfClass Moody) (Some (PSeq [PNum (1 # 4)])) None.
Definition moody_twice : call_args :=
  CallSeq [OfClass Moody; OfClass Moody]
    (Some (PSeq [PSeq [PNum (1 # 4)]; PSeq [PNum (1 # 2)]])) None.

(** ** A mismatch between two reconstructions *)

(** A backend in which [qml.matrix] of a sparse matrix is diag(1, -1). *)
Definition sparse_backend : Backend :=
  {| qml_matrix := fun v _ =>
       match v with
       | VObj _ => Returns (VArray pauli_z)
       | _ => Examples.unavailable
       end;
     terms_matrix := fun _ => Examples.unavailable;
     zyz_tape := fun _ _ _ _ => Examples.unavailable;
     la_expm := fun _ => Examples.unavailable;
     la_eigvals := fun _ => Examples.unavailable;
     queue_tape := fun _ => Examples.unavailable;
     basis_change := fun _ _ => Examples.unavailable;
     rng_seed := fun z => z;
     rng_next := fun st => ((1 # 2)%Q, st + 1) |}.

(** An operation whose matrix is the identity and whose sparse matrix is
    diag(1, -1). *)
Definition Mismatched : OpClass :=
  Examples.make_class 12 "Mismatched" (WiresInt 1) 1
    (Examples.with_method "get_matrix" (Returns (VArray Examples.identity2))
       (Examples.with_method "sparse_matrix" (Returns (VObj "sparse matrix"))
          Examples.no_methods)).

(** * Properties *)

(** ** Running programs *)

Section RunLemmas.
Context (B : Backend).

Lemma run_bind {A A'} (p : prog A) (k : A -> prog A') (s : state) :
  run B (bind p k) s =
    match run B p s with
    | (Returns a, s', t) => let '(o, s'', t') := run B (k a) s' in (o, s'', t ++ t')
    | (Raises e, s', t) => (Raises e, s', t)
    end.
Proof.
  revert A' k s.
  induction p as [A a|A e|A X c k' IH|A A0 body IHb handler IHh k' IHk]; intros A' k s; simpl.
  - destruct (run B (k a) s) as [[o s'] t]. reflexivity.
  - reflexivity.
  - destruct (exec B c s) as [[[x|e] s1] t]; [|reflexivity].
    rewrite IH.
    destruct (run B (k' x) s1) as [[[a|e] s2] t2]; [|reflexivity].
    destruct (run B (k a) s2) as [[o s3] t3].
    by rewrite app_assoc.
  - destruct (run B body s) as [[[b|e] s1] t1].
    + rewrite IHk.
      destruct (run B (k' b) s1) as [[[a|e] s2] t2]; [|reflexivity].
      destruct (run B (k a) s2) as [[o s3] t3].
      by rewrite app_assoc.
    + destruct (run B (handler e) s1) as [[[b|e'] s2] t2]; [|reflexivity].
      rewrite IHk.
      destruct (run B (k' b) s2) as [[[a|e'] s3] t3]; [|reflexivity].
      destruct (run B (k a) s3) as [[o s4] t4].
      by rewrite app_assoc.
Qed.

Lemma run_lift {A} (o : outcome A) (s : state) : run B (lift o) s = (o, s, []).
Proof. by destruct o. Qed.

Lemma run_do {X} (c : cmd X) (s : state) : run B (do_ c) s = exec B c s.
Proof.
  unfold do_. simpl. destruct (exec B c s) as [[[x|e] s1] t]; [|reflexivity].
  by rewrite app_nil_r.
Qed.

Lemma run_print (m : pmsg) (lvl : level) (s : state) :
  run B (print m lvl) s = print_ m (Some lvl) s.
Proof. unfold print. by rewrite run_do. Qed.
End RunLemmas.

(** ** What [print_] does *)

(** Without a level, [print_] raises and changes nothing. *)
Lemma print__without_level (m : pmsg) (s : state) :
  exists e, print_ m None s = (Raises e, s, []).
Proof. unfold print_. destruct (tmp (self s)); eauto. Qed.

Lemma print__spec (m : pmsg) (lvl : level) (s : state) (t : Tmp) :
  tmp (self s) = Some t ->
  well_keyed s ->
  let ev := Emitted (checked_key (tmp_op t)) lvl m in
  exists s' t',
    print_ m (Some lvl) s = (if crashes (self s) ev then Raises concat_error else Returns tt, s', [ev])
    /\ tmp (self s') = Some t'
    /\ tmp_core t' = tmp_core (set_res (Nat.min (res t) (verbosity_levels lvl)) t)
    /\ well_keyed s'
    /\ max_num_params (self s') = max_num_params (self s)
    /\ tol (self s') = tol (self s)
    /\ seed (self s') = seed (self s)
    /\ results (self s') = results (self s)
    /\ np_random_state s' = np_random_state s
    /\ same_config s s'.
Proof.
  intros Ht Hk ev. unfold well_keyed in Hk. rewrite Ht in Hk. destruct Hk as [old Hold].
  unfold print_, crashes, output_append, well_keyed, same_config. rewrite Ht. simpl.
  destruct (print_color (self s)) eqn:Hc, (printed_header t) eqn:Hh, m as [text|e];
    destruct (bool_decide (lvl = LError)), (bool_decide (lvl ∈ _verbosity (self s)));
    simpl; rewrite ?Hold; simpl; rewrite ?lookup_insert_eq; simpl;
    eexists _, _; (split; [reflexivity|]); simpl;
    rewrite ?lookup_insert_eq, ?Hold; repeat split; eauto.
Qed.

Lemma same_config_trans (s1 s2 s3 : state) :
  same_config s1 s2 -> same_config s2 s3 -> same_config s1 s3.
Proof. intros [? ?] [? ?]. split; congruence. Qed.

Lemma crashes_config (s s' : state) (ev : event) :
  same_config s s' -> crashes (self s') ev = crashes (self s) ev.
Proof. intros [Hv Hc]. unfold crashes. by rewrite Hv, Hc. Qed.

Lemma Exists_crashes_config (s s' : state) (tr : list event) :
  same_config s s' -> Exists (crashes (self s')) tr -> Exists (crashes (self s)) tr.
Proof.
  intros Hc Hex. eapply Exists_impl; [exact Hex|].
  intros ev. simpl. by rewrite (crashes_config s s').
Qed.

Lemma print__config (m : pmsg) (lvl : level) (s : state) o s' tr :
  print_ m (Some lvl) s = (o, s', tr) -> same_config s s'.
Proof.
  unfold print_, output_append, same_config. intros H. simpl in H.
  repeat case_match; simplify_eq; done.
Qed.

(** An invocation of [print_] recorded as crashing did raise. *)
Lemma print__crash (m : pmsg) (lvl : level) (s : state) o s' tr :
  print_ m (Some lvl) s = (o, s', tr) ->
  Exists (crashes (self s)) tr -> exists e, o = Raises e.
Proof.
  unfold print_, output_append, crashes. intros H Hex. simpl in H.
  repeat case_match; simplify_eq; eauto;
    apply Exists_cons in Hex as [Hex|Hex%Exists_nil]; try done; simpl in Hex;
    repeat case_match; simplify_eq; try done;
    rewrite ?andb_false_r in Hex; try done.
  rewrite H1, andb_false_r in Hex. done.
Qed.

(** A message that is a string is printed without failure once the session
    is open. *)
Lemma print__str_returns (text : string) (lvl : level) (s : state) (t : Tmp) :
  tmp (self s) = Some t ->
  well_keyed s ->
  exists s',
    print_ (MStr text) (Some lvl) s = (Returns tt, s', [Emitted (checked_key (tmp_op t)) lvl (MStr text)]).
Proof.
  intros Ht Hk. destruct (print__spec (MStr text) lvl s t Ht Hk) as (s' & t' & H & _).
  exists s'. rewrite H. unfold crashes. simpl. by rewrite andb_false_r.
Qed.

Lemma start_session_keyed (op_ : checked) (s : state) : well_keyed (start_session op_ s).
Proof. unfold well_keyed, start_session. simpl. by rewrite lookup_insert_eq. Qed.

(** ** Equality up to a global phase *)

(** C9 (as the code behaves). For the 1x1 matrix M with entry
    4.9e-11 (1 + i) and theta = pi (so that e^{i theta} M = -M), the two
    matrices are not close within the default tolerance 1e-10, every entry of
    the second rounds to zero at ten decimals, and [equal_up_to_phase] ends in
    an [IndexError] instead of returning [True]. *)
Theorem C9_equal_up_to_phase_raises_on_tiny_matrix :
  equal_up_to_phase tiny_matrix (mat_scale tiny_matrix Cm1) phase_default_atol
  = Raises (index_error "index 0 is out of bounds for axis 0 with size 0").
Proof. vm_compute. reflexivity. Qed.

Lemma isclose_refl (atol : Q) (a : C) : (0 <= atol)%Q -> isclose 0 atol a a = true.
Proof.
  intros Ha. unfold isclose, sqrt_le_affine.
  apply Qle_bool_iff in Ha as Ha'. rewrite Ha'.
  apply orb_true_iff. left. apply Qle_bool_iff.
  unfold Cnorm2, Csub. simpl. nra.
Qed.

Lemma forallb2_refl {A} (f : A -> A -> bool) (l : list A) :
  (forall a, f a a = true) -> forallb2 f l l = true.
Proof. intros Hf. induction l as [|a l IH]; simpl; [done|]. by rewrite Hf, IH. Qed.

(** The first half of C9 holds: a matrix equals itself up to phase, for any
    non-negative tolerance. *)
Lemma equal_up_to_phase_refl (M : matrix) (atol : Q) :
  (0 <= atol)%Q -> equal_up_to_phase M M atol = Returns true.
Proof.
  intros Ha. unfold equal_up_to_phase, allclose, same_shape.
  rewrite forallb2_refl by (intros; apply Nat.eqb_refl). simpl.
  rewrite forallb2_refl; [done|].
  intros row. apply forallb2_refl. intros a. by apply isclose_refl.
Qed.

Lemma find_col_spec (p : C -> bool) (row : list C) (j0 j : nat) :
  find_col p row j0 = Some j ->
  exists c, row !! (j - j0)%nat = Some c /\ p c = true /\ (j0 <= j)%nat.
Proof.
  revert j0. induction row as [|c row IH]; intros j0; simpl; [done|].
  destruct (p c) eqn:Hp.
  - intros [= <-]. exists c. by rewrite Nat.sub_diag.
  - intros (c' & Hc & Hp' & Hle)%IH. exists c'.
    replace (j - j0)%nat with (S (j - S j0)) by lia. repeat split; [done..|lia].
Qed.

Lemma first_where_spec (p : C -> bool) (m : matrix) (i0 : nat) (idx : nat * nat) :
  first_where p m i0 = Some idx ->
  exists c, entry m ((idx.1 - i0)%nat, idx.2) = Some c /\ p c = true /\ (i0 <= idx.1)%nat.
Proof.
  revert i0. induction m as [|row m IH]; intros i0; simpl; [done|].
  destruct (find_col p row 0) as [j|] eqn:Hj.
  - intros [= <-]. apply find_col_spec in Hj as (c & Hc & Hp & _).
    exists c. simpl. rewrite Nat.sub_diag. unfold entry. simpl.
    by rewrite Nat.sub_0_r in Hc.
  - intros (c & Hc & Hp & Hle)%IH. exists c.
    replace (idx.1 - i0)%nat with (S (idx.1 - S i0)) by lia.
    repeat split; [done..|lia].
Qed.

Lemma lookup_map {A A'} (f : A -> A') (l : list A) (i : nat) :
  map f l !! i = f <$> l !! i.
Proof. revert i. induction l as [|x l IH]; intros [|i]; simpl; by try done. Qed.

Lemma isclose_same_value (atol : Q) (x y : C) :
  (0 <= atol)%Q -> (re x == re y)%Q -> (im x == im y)%Q -> isclose 0 atol x y = true.
Proof.
  intros Ha Hr Hi. unfold isclose, sqrt_le_affine.
  apply Qle_bool_iff in Ha as Ha'. rewrite Ha'.
  apply orb_true_iff. left. apply Qle_bool_iff.
  unfold Cnorm2, Csub. simpl. rewrite Hr, Hi. nra.
Qed.

(** The same missed case outside C9: a matrix is not equal to the zero
    matrix up to phase, yet the call ends in the [IndexError] instead of
    returning [False]. *)
Lemma equal_up_to_phase_zero_matrix_raises :
  equal_up_to_phase Examples.identity2 (zeros_like Examples.identity2) (1 # 100000)
  = Raises (index_error "index 0 is out of bounds for axis 0 with size 0").
Proof. vm_compute. reflexivity. Qed.

(** With [rtol = 0] the test [isclose] is [abs(a - b) <= atol], here in
    squared form. *)
Lemma isclose_absolute (atol : Q) (a b : C) :
  isclose 0 atol a b = true
  <-> (0 <= atol)%Q /\ (Cnorm2 (Csub a b) <= atol * atol)%Q.
Proof.
  unfold isclose, sqrt_le_affine.
  destruct (Qle_bool 0 atol) eqn:Ha.
  - apply Qle_bool_iff in Ha. rewrite orb_true_iff, !Qle_bool_iff. split.
    + intros [H|H]; (split; [done|]); nra.
    + intros [_ H]. left. nra.
  - assert (~ (0 <= atol)%Q) as Hn by (rewrite <- Qle_bool_iff, Ha; done).
    rewrite !andb_true_iff, !Qle_bool_iff. split.
    + intros [[H _] _]. exfalso. apply Hn. nra.
    + intros [H _]. done.
Qed.

(** ** The dispatcher *)

(** C5 (as the code behaves). The direct evaluator raises
    [MatrixUndefinedError], no aggregate evaluator is registered, and the
    operator's [expand] raises [DecompositionUndefinedError].  [expand] is
    evaluated before [tape_fn] can report the missing evaluator, its exception
    is none of the two that the handler catches, and [fn] raises that second
    exception, without suppressed context, instead of the original one. *)
Theorem C5_expand_error_replaces_original :
  _tape_fn Dispatch.failing = None
  /\ _fn Dispatch.failing tt tt = Raises Dispatch.no_matrix
  /\ fn Dispatch.expand_undefined Dispatch.failing tt tt = Raises Dispatch.no_decomposition
  /\ exc_type Dispatch.no_decomposition <> exc_type Dispatch.no_matrix
  /\ exc_suppress_context Dispatch.no_decomposition = false.
Proof. repeat split; done. Qed.

(** Where the claim holds. If the direct evaluator raises and either the
    object has no [expand] attribute, or [expand] returns and no aggregate
    evaluator was registered, then the original exception is re-raised with
    the same class and message and with chaining suppressed. *)
Lemma fn_reraises_original {Obj Tape Args Result : Type}
    (expand : Obj -> option (outcome Tape))
    (self : op_transform (Obj := Obj) (Tape := Tape) (Args := Args) (Result := Result))
    (obj : Obj) (args : Args) (e1 : exn) :
  _fn self obj args = Raises e1 ->
  expand obj = None \/ ((exists tape, expand obj = Some (Returns tape)) /\ _tape_fn self = None) ->
  exists e,
    fn expand self obj args = Raises e
    /\ exc_type e = exc_type e1
    /\ exc_msg e = exc_msg e1
    /\ exc_suppress_context e = true.
Proof.
  intros H1 H2. exists (from_None e1). split; [|done].
  unfold fn. rewrite H1.
  destruct H2 as [->|[[tape ->] Ht]]; [done|].
  simpl. unfold tape_fn. by rewrite Ht.
Qed.

(** ** Wire validation *)

(** C3 (as the code behaves). With wires supplied and a concrete declared
    wire count [n], [_check_wires] emits the "does not match" error and
    aborts exactly when the number of supplied wires EQUALS [n]; when the two
    numbers differ it emits nothing and returns the wires. *)
Theorem C3_wire_count_check_inverted (B : Backend) (op : OpClass) (n : nat)
    (wires : Wires) (s : state) :
  num_wires op = WiresInt n ->
  run B (_check_wires op (Some wires)) s =
    if Nat.eqb (length wires) n
    then then_abort (print_ (MStr (wires_message op wires)) (Some LError) s)
    else (Returns wires, s, []).
Proof.
  intros Hn. unfold _check_wires, wires_message. rewrite Hn.
  cbn [neq_AnyWires eq_num_wires andb].
  destruct (Nat.eqb (length wires) n); [|done].
  rewrite run_bind, run_print.
  destruct (print_ _ _ _) as [[[[]|e] s1] t1]; simpl; [|done].
  by rewrite app_nil_r.
Qed.

Lemma C3_wire_count_check_inverted_witness :
  num_wires Examples.Plain = WiresInt 1
  /\ (let r := run Examples.null_backend (_check_wires Examples.Plain (Some [0%nat]))
                 plain_session in
      r.1.1 = Raises fatal
      /\ r.2 = [Emitted 5 LError
                  (MStr ("The number of provided wires (1) does not match the expected "
                         +:+ "number (1) for operation Plain"))])
  /\ run Examples.null_backend (_check_wires Examples.Plain (Some [0%nat; 1%nat])) plain_session
     = (Returns [0%nat; 1%nat], plain_session, []).
Proof.
  pose proof (C3_wire_count_check_inverted Examples.null_backend Examples.Plain 1
                [0%nat] plain_session eq_refl) as H1.
  pose proof (C3_wire_count_check_inverted Examples.null_backend Examples.Plain 1
                [0%nat; 1%nat] plain_session eq_refl) as H2.
  split; [reflexivity|]. split; [split|].
  - exact (eq_trans (f_equal (fun r => r.1.1) H1) eq_refl).
  - exact (eq_trans (f_equal snd H1) eq_refl).
  - exact (eq_trans H2 eq_refl).
Defined.

(** ** Candidate parameters *)

Lemma draw_length (next : Z -> Q * Z) (n : nat) (st : Z) :
  length (draw next n st).1 = n.
Proof.
  revert st. induction n as [|n IH]; intros st; simpl; [done|].
  destruct (next st) as [q st1]. specialize (IH st1).
  destruct (draw next n st1) as [l st2]. simpl in *. by rewrite IH.
Qed.

Lemma run_draw_candidates (B : Backend) (nums : list nat) (acc : list pvalue) (s : state) :
  exists drawn s',
    run B (for_acc nums acc
             (fun acc num => p <- do_ (Cnp_random_random num) ;; Ret (acc ++ [p]))) s
      = (Returns (acc ++ drawn), s', [])
    /\ map py_len drawn = map Returns nums
    /\ self s' = self s.
Proof.
  revert acc s. induction nums as [|num nums IH]; intros acc s.
  - exists [], s. by rewrite app_nil_r.
  - cbn [for_acc]. rewrite run_bind, run_bind, run_do. cbn [exec].
    pose proof (draw_length (rng_next B) num (np_random_state s)) as Hlen.
    destruct (draw _ _ _) as [l st]. cbn [run].
    destruct (IH (acc ++ [PArr l]) (mkState (self s) st (stdout s)))
      as (drawn & s' & -> & Hd & Hs).
    exists (PArr l :: drawn), s'. rewrite <- app_assoc. simpl in *.
    by rewrite Hd, Hlen.
Qed.

(** C8 (as the code behaves). For an operation whose parameter count is not
    statically known and without supplied parameters, [_check_parameters]
    draws one candidate vector for each length in [range(max_num_params)]:
    [max_num_params] vectors of lengths 0, ..., max_num_params - 1. *)
Theorem C8_candidate_lengths (B : Backend) (op : OpClass) (s : state) (t : Tmp) :
  num_params op = ParamsProperty ->
  tmp (self s) = Some t ->
  exists l s',
    run B (_check_parameters op None) s = (Returns (PSeq l), s', [])
    /\ map py_len l = map Returns (seq 0 (max_num_params (self s))).
Proof.
  intros Hop Ht. unfold _check_parameters. rewrite Hop.
  rewrite run_bind, run_do. cbn [exec]. rewrite Ht.
  rewrite run_bind, run_do. cbn [exec]. rewrite run_bind.
  set (s1 := with_self _ s).
  destruct (run_draw_candidates B (seq 0 (max_num_params (self s1))) [] s1)
    as (drawn & s' & -> & Hd & Hs).
  exists drawn, s'. split; [done|]. by rewrite Hd.
Qed.

Lemma C8_candidate_lengths_witness :
  exists l s',
    run Examples.null_backend (_check_parameters unknown_count None) plain_session
      = (Returns (PSeq l), s', [])
    /\ map py_len l = map Returns [0; 1; 2; 3; 4; 5; 6; 7; 8; 9]%nat.
Proof.
  exact (C8_candidate_lengths Examples.null_backend unknown_count plain_session _
           eq_refl eq_refl).
Defined.

(** ** Eigenvalues *)

(** C7 (as the code behaves). [_check_eigvals] compares the computed and
    the declared eigenvalues position by position, without sorting: for a
    matrix whose computed eigenvalues are [1, -1], declaring [1, -1] passes
    and declaring the same multiset as [-1, 1] is reported as an error. *)
Theorem C7_eigvals_compared_in_order (B : Backend) (op : OpClass) (m : matrix) (s : state) :
  la_eigvals B m = Returns [C1; Cm1] ->
  run B (_check_eigvals B (VVector [C1; Cm1]) (VArray m) op) s = (Returns tt, s, [])
  /\ run B (_check_eigvals B (VVector [Cm1; C1]) (VArray m) op) s
     = print_ (MStr (eigvals_message op)) (Some LError) s.
Proof.
  intros Hm. unfold _check_eigvals. cbn [is_None orb as_array as_rows rows_of lift bind].
  rewrite Hm. cbn [lift bind]. split; [reflexivity|].
  change (allclose default_rtol default_atol [[C1; Cm1]] [[Cm1; C1]]) with (Returns false).
  cbn [lift bind]. apply run_print.
Qed.

Lemma C7_eigvals_compared_in_order_witness :
  la_eigvals diagonal_backend pauli_z = Returns [C1; Cm1]
  /\ run diagonal_backend
       (_check_eigvals diagonal_backend (VVector [C1; Cm1]) (VArray pauli_z) Examples.Plain)
       plain_session = (Returns tt, plain_session, [])
  /\ (run diagonal_backend
        (_check_eigvals diagonal_backend (VVector [Cm1; C1]) (VArray pauli_z) Examples.Plain)
        plain_session).2
     = [Emitted 5 LError
          (MStr "The eigenvalues of the matrix and the stored eigvals for Plain do not match.")].
Proof.
  destruct (C7_eigvals_compared_in_order diagonal_backend Examples.Plain pauli_z plain_session
              eq_refl) as [H1 H2].
  split; [reflexivity|]. split; [exact H1|].
  exact (eq_trans (f_equal snd H2) eq_refl).
Defined.

(** ** Cross-representation comparison *)

(** C1 (as the code behaves). [_check_decompositions] drops only the
    reconstructions that are [None].  The operation BrokenSparse has a dense
    matrix and a sparse matrix whose method fails; the captured exception
    stays in the list, is handed to [equal_up_to_phase] as second operand,
    and the call ends in the [TypeError] of NumPy, without any diagnostic. *)
Theorem C1_captured_error_is_compared :
  matrix_from_matrix Examples.BrokenSparse half [0%nat]
    = Returns (VArray Examples.identity2)
  /\ matrix_from_sparse_matrix Examples.null_backend Examples.BrokenSparse half [0%nat]
    = Returns (VExc Examples.boom)
  /\ (let r := __call__ Examples.null_backend (CallOne (OfClass Examples.BrokenSparse) None None)
                 None (Examples.fresh checker0) in
      r.1.1 = Raises (type_error "ufunc 'isfinite' not supported for the input types")
      /\ r.2 = [(3%positive, [])]).
Proof. vm_compute. done. Qed.

(** ** Captured exceptions *)

(** Whatever exception the generator raises, [matrix_from_generator] turns
    it into [None]: the captured exception is not returned. *)
Lemma matrix_from_generator_drops_exception (B : Backend) (op : OpClass) (par : pvalue)
    (wires : Wires) (instance : Instance) (e : exn) :
  instantiate op par wires = Returns instance ->
  inst_method instance "generator" = Some (Raises e) ->
  matrix_from_generator B op par wires = Returns VNone.
Proof.
  intros Hi Hg. unfold matrix_from_generator. rewrite Hi. simpl.
  unfold getattr_instance. rewrite Hg. simpl.
  by destruct (decide _).
Qed.

(** C6 (as the code behaves). The operation BrokenGenerator has a generator
    that raises a [RuntimeError].  [wrap_op_method] captures the exception as
    a value, [matrix_from_generator] replaces it by [None], and the whole
    check reports "pass": the only message is the success notice. *)
Theorem C6_generator_exception_is_dropped :
  wrapped_method GeneratorUndefinedError (Raises Examples.boom) = VExc Examples.boom
  /\ matrix_from_generator Examples.null_backend Examples.BrokenGenerator half [0%nat]
     = Returns VNone
  /\ (let r := __call__ Examples.null_backend
                 (CallOne (OfClass Examples.BrokenGenerator) None None)
                 None (Examples.fresh checker0) in
      (fst <$> match r.1.1 with Returns x => Some x | Raises _ => None end)
        = Some {[ 2%positive := LPass ]}
      /\ r.2 = [(2%positive,
                 [Emitted 2 LPass
                    (MStr ("No problems have been found with the operation BrokenGenerator."
                           +:+ newline))])]).
Proof. vm_compute. done. Qed.

(** ** The abort signal *)

(** C2 fails as stated: checking the sequence [NoWires, Plain], the first
    operation triggers the abort signal; the call raises it instead of
    returning the two mappings, and Plain is never checked (it has no session
    and no entry in the text mapping). *)
Lemma C2_counterexample :
  let r := __call__ Examples.null_backend two_operations None (Examples.fresh checker0) in
  r.1.1 = Raises fatal
  /\ r.2 = [(4%positive, [Emitted 4 LError no_wires_message])]
  /\ output (self r.1.2) !! 5%positive = None.
Proof. vm_compute. done. Qed.

(** The two steps that raise the abort signal: an abstract wire count, and a
    parameter count that differs from the declared one. *)
Lemma check_wires_abstract_aborts (B : Backend) (op : OpClass) (wires : option Wires)
    (s : state) :
  num_wires op = WiresProperty ->
  run B (_check_wires op wires) s
  = then_abort (print_ (MStr ("The operation " +:+ cls_repr op
                              +:+ " does not define the number of wires it acts on."))
                  (Some LError) s).
Proof.
  intros Hn. unfold _check_wires. rewrite Hn.
  rewrite run_bind, run_print.
  destruct (print_ _ _ _) as [[[[]|e] s1] t1]; simpl; [|done].
  by rewrite app_nil_r.
Qed.

Lemma check_parameters_mismatch_aborts (B : Backend) (op : OpClass) (n : nat)
    (parameters : list pvalue) (s : state) (t : Tmp) :
  num_params op = ParamsInt n ->
  length parameters <> n ->
  tmp (self s) = Some t ->
  run B (_check_parameters op (Some (PSeq parameters))) s
  = then_abort
      (print_ (MStr ("The number of provided parameters (" +:+ pretty (length parameters)
                     +:+ ") does not match the expected number (" +:+ pretty n
                     +:+ ") for operation " +:+ cls_repr op)) (Some LError)
         (with_self (set_tmp (Some (set_num_params_known true t))) s)).
Proof.
  intros Hn Hlen Ht. unfold _check_parameters. rewrite Hn.
  rewrite run_bind, run_do. cbn [exec]. rewrite Ht.
  cbn [py_len lift bind].
  apply Nat.eqb_neq in Hlen. rewrite Hlen. cbn [negb].
  rewrite run_bind, run_print.
  destruct (print_ _ _ _) as [[[[]|e] s1] t1]; simpl; [|done].
  by rewrite app_nil_r.
Qed.

Section Abort.
Context (B : Backend).

Lemma sessions_abort (pre post : list (checked * option pvalue * option Wires))
    (x : checked * option pvalue * option Wires) (s s1 s2 : state) ts1 (e : exn) t :
  sessions B pre s = (Returns tt, s1, ts1) ->
  session B x s1 = (Raises e, s2, t) ->
  sessions B (pre ++ x :: post) s = (Raises e, s2, ts1 ++ [(checked_key x.1.1, t)]).
Proof.
  revert s ts1. induction pre as [|y pre IH]; intros s ts1; simpl.
  - intros [= <- <-] Hx. by rewrite Hx.
  - destruct (session B y s) as [[[[]|e'] s'] t'] eqn:Hy; [|done].
    destruct (sessions B pre s') as [[o1 s1'] ts1'] eqn:Hpre.
    intros [= -> -> <-] Hx.
    by rewrite (IH _ _ Hpre Hx).
Qed.

(** An operation that triggers the abort signal is reported once, as an
    error, and its session ends in the signal. *)
Lemma session_aborts (x : checked * option pvalue * option Wires) (s : state) :
  triggers_abort x = true ->
  exists s' text,
    session B x s
    = (Raises fatal, s', [Emitted (checked_key x.1.1) LError (MStr text)]).
Proof.
  destruct x as [[op_ parameters_] wires_]. intros Habort. unfold session.
  set (s0 := start_session op_ s).
  assert (exists s' text,
            run B (check_single_operation B op_ parameters_ wires_) s0
            = (Raises fatal, s', [Emitted (checked_key op_) LError (MStr text)]))
    as (s' & text & ->); [|by eexists _, _].
  unfold check_single_operation. rewrite run_bind, run_do. cbn [exec].
  unfold triggers_abort in Habort.
  set (y := inputs_of (op_, parameters_, wires_)) in *.
  assert ((let '(op, parameters, wires) :=
             match op_ with
             | OfClass c => (c, parameters_, wires_)
             | OfInstance i c => (c, Some (inst_parameters i), Some (inst_wires i))
             end in
           wires <- _check_wires op wires ;;
           parameters <- _check_parameters op parameters ;;
           _check_instantiation op parameters wires ;;
           for_ _default_methods_to_check
             (fun method_tuple => _check_single_method op method_tuple parameters wires) ;;
           _check_decompositions B op parameters wires ;;
           _check_properties B op parameters wires)
          = (wires <- _check_wires y.1.1 y.2 ;;
             parameters <- _check_parameters y.1.1 y.1.2 ;;
             _check_instantiation y.1.1 parameters wires ;;
             for_ _default_methods_to_check
               (fun method_tuple => _check_single_method y.1.1 method_tuple parameters wires) ;;
             _check_decompositions B y.1.1 parameters wires ;;
             _check_properties B y.1.1 parameters wires)) as Hprog
    by (subst y; by destruct op_).
  assert (forall s1 : state,
            tmp (self s1) = tmp (self s0) -> well_keyed s1 ->
            exists s' text,
              run B (wires <- _check_wires y.1.1 y.2 ;;
                     parameters <- _check_parameters y.1.1 y.1.2 ;;
                     _check_instantiation y.1.1 parameters wires ;;
                     for_ _default_methods_to_check
                       (fun method_tuple =>
                          _check_single_method y.1.1 method_tuple parameters wires) ;;
                     _check_decompositions B y.1.1 parameters wires ;;
                     _check_properties B y.1.1 parameters wires) s1
              = (Raises fatal, s', [Emitted (checked_key op_) LError (MStr text)]))
    as Hrest.
  { destruct y as [[op parameters] wires]. cbn [fst snd]. clear Hprog.
    intros s1 Ht Hk. rewrite run_bind.
    destruct (wires_abort op wires) eqn:Hw.
    - (* the wire check aborts *)
      unfold wires_abort in Hw. unfold _check_wires.
      destruct (num_wires op) as [| |n] eqn:Hn.
      + rewrite run_bind, run_print.
        edestruct (print__str_returns) as [s2 ->]; [exact Ht|exact Hk|].
        simpl. by eexists _, _.
      + destruct wires as [w|]; [|done]. by cbn [neq_AnyWires andb] in Hw.
      + destruct wires as [w|]; [|done]. rewrite Hw.
        rewrite run_bind, run_print.
        edestruct (print__str_returns) as [s2 ->]; [exact Ht|exact Hk|].
        simpl. by eexists _, _.
    - (* the wire check passes, the parameter check aborts *)
      simpl in Habort. unfold parameters_abort in Habort.
      destruct (num_params op) as [n|] eqn:Hp; [|done].
      destruct parameters as [p|]; [|done].
      destruct (py_len p) as [len|] eqn:Hlen; [|done].
      assert (exists w, run B (_check_wires op wires) s1 = (Returns w, s1, [])) as [w ->].
      { unfold wires_abort in Hw. unfold _check_wires.
        destruct (num_wires op) as [| |k]; [done| |];
          destruct wires as [ws|]; rewrite ?Hw; by eexists. }
      rewrite run_bind. unfold _check_parameters. rewrite Hp.
      rewrite run_bind, run_do. cbn [exec].
      change (tmp (self s0)) with
        (Some {| printed_header := false; tmp_op := op_; res := max_level;
                 name := checked_name op_;
                 num_params_known := None; possible_num_params := None |}) in Ht.
      rewrite Ht. rewrite Hlen. cbn [lift bind]. rewrite Habort.
      rewrite run_bind, run_print.
      edestruct (print__str_returns) as [s2 ->]; [reflexivity| |].
      { unfold well_keyed in *. rewrite Ht in Hk. exact Hk. }
      simpl. by eexists _, _. }
  rewrite Hprog.
  destruct (seed (self s0)) as [z|] eqn:Hz.
  - rewrite run_bind, run_do. cbn [exec].
    destruct (Hrest (mkState (self s0) (rng_seed B z) (stdout s0)) eq_refl
                (start_session_keyed _ _)) as (s' & text & Hs').
    cbn beta iota. rewrite Hs'. by eexists _, _.
  - rewrite run_bind. cbn [run].
    destruct (Hrest s0 eq_refl (start_session_keyed _ _)) as (s' & text & Hs').
    cbn beta iota. rewrite Hs'. by eexists _, _.
Qed.

(** C2, amended. The abort signal raised by a pipeline step ends the
    current operation's remaining checks and, since nothing in [__call__]
    catches it, the invocation: when the operations before [x] were checked
    and [x] triggers the signal in the wire or in the parameter check, the
    call raises the signal; it returns no mapping, the session of [x] consists
    of the one error message, and the operations after [x] have no session. *)
Theorem C2_abort_ends_the_call (args : call_args) (seed : option Z) (s s1 : state)
    (op : list checked) (pre post : list (checked * option pvalue * option Wires))
    (x : checked * option pvalue * option Wires) ts1 :
  normalise args = Returns (op, pre ++ x :: post) ->
  sessions B pre (prepare op seed s) = (Returns tt, s1, ts1) ->
  triggers_abort x = true ->
  exists s2 text,
    __call__ B args seed s
    = (Raises fatal, s2,
       ts1 ++ [(checked_key x.1.1, [Emitted (checked_key x.1.1) LError (MStr text)])]).
Proof.
  intros Hn Hpre Habort. unfold __call__. rewrite Hn.
  destruct (session_aborts x s1 Habort) as (s2 & text & Hx).
  rewrite (sessions_abort pre post x _ _ _ _ _ _ Hpre Hx). by eexists _, _.
Qed.
End Abort.

Lemma C2_abort_ends_the_call_witness :
  exists s2 text,
    __call__ Examples.null_backend three_operations None (Examples.fresh checker0)
    = (Raises fatal, s2,
       [(5%positive,
         [Emitted 5 LPass
            (MStr ("No problems have been found with the operation Plain." +:+ newline))])]
       ++ [(4%positive, [Emitted 4 LError (MStr text)])]).
Proof.
  refine (C2_abort_ends_the_call Examples.null_backend three_operations None
            (Examples.fresh checker0) _
            [OfClass Examples.Plain; OfClass Examples.NoWires; OfClass Examples.Plain]
            [(OfClass Examples.Plain, None, None)] [(OfClass Examples.Plain, None, None)]
            (OfClass Examples.NoWires, None, None) _ eq_refl _ eq_refl).
  vm_compute. reflexivity.
Defined.

(** ** The severity of a session *)

Lemma min_from_min (l : list nat) (a r : nat) :
  min_from (Nat.min a r) l = Nat.min a (min_from r l).
Proof. induction l as [|x l IH]; simpl; [done|]. rewrite IH. lia. Qed.

Lemma min_from_app (l1 l2 : list nat) (r : nat) :
  min_from r (l1 ++ l2) = min_from (min_from r l1) l2.
Proof.
  induction l1 as [|x l1 IH]; simpl; [done|].
  rewrite IH. by rewrite min_from_min.
Qed.

Lemma session_step_refl (s : state) : session_step s s [].
Proof. intros t Ht. exists t. by repeat split. Qed.

Lemma session_step_trans (s1 s2 s3 : state) (tr1 tr2 : list event) :
  session_step s1 s2 tr1 -> session_step s2 s3 tr2 -> session_step s1 s3 (tr1 ++ tr2).
Proof.
  intros H1 H2 t Ht.
  destruct (H1 t Ht) as (t1 & Ht1 & Hop1 & Hres1 & Hk1).
  destruct (H2 t1 Ht1) as (t2 & Ht2 & Hop2 & Hres2 & Hk2).
  exists t2. repeat split; [done|congruence| |].
  - unfold levels_of. rewrite map_app, min_from_app. unfold levels_of in *. congruence.
  - apply Forall_app. split; [done|]. by rewrite <- Hop1.
Qed.

Lemma print__session_step (m : pmsg) (lvl : level) (s : state) o s' tr :
  print_ m (Some lvl) s = (o, s', tr) ->
  session_step s s' tr /\ results (self s') = results (self s).
Proof.
  unfold print_. intros H.
  destruct (tmp (self s)) as [t|] eqn:Ht.
  2:{ injection H as <- <- <-. split; [|done]. intros t; congruence. }
  cut (exists t', tmp (self s') = Some t' /\ tmp_op t' = tmp_op t
         /\ res t' = Nat.min (res t) (verbosity_levels lvl)
         /\ tr = [Emitted (checked_key (tmp_op t)) lvl m]
         /\ results (self s') = results (self s)).
  { intros (t' & ? & ? & ? & -> & ?). split; [|done].
    intros t0 Ht0. assert (t0 = t) as -> by congruence.
    exists t'. repeat split; [done..| |by repeat constructor].
    simpl. lia. }
  unfold output_append in H. simpl in H.
  repeat case_match; simplify_eq; simpl; eexists; repeat split; done.
Qed.

Section Severity.
Context (B : Backend).

Lemma exec_session_step {X} (c : cmd X) (s : state) o s' tr :
  exec B c s = (o, s', tr) ->
  session_step s s' tr /\ results (self s') = results (self s).
Proof.
  destruct c as [m [lvl|]| | | | | | | | |]; simpl; unfold tmp_missing; intros H.
  1: by eapply print__session_step.
  1: destruct (print__without_level m s) as [e He]; rewrite He in H.
  all: repeat case_match; simplify_eq; split; try done; try apply session_step_refl.
  all: intros t0 Ht0; simpl in *; simplify_eq; eexists; repeat split; done.
Qed.

Lemma run_session_step {A} (p : prog A) (s : state) o s' tr :
  run B p s = (o, s', tr) ->
  session_step s s' tr /\ results (self s') = results (self s).
Proof.
  revert s o s' tr.
  induction p as [A a|A e|A X c k IH|A A0 body IHb handler IHh k IHk];
    intros s o s' tr; simpl.
  - intros [= <- <- <-]. split; [apply session_step_refl|done].
  - intros [= <- <- <-]. split; [apply session_step_refl|done].
  - destruct (exec B c s) as [[[x|e] s1] t1] eqn:He;
      apply exec_session_step in He as [He1 He2].
    + destruct (run B (k x) s1) as [[o2 s2] t2] eqn:Hr.
      apply IH in Hr as [Hr1 Hr2]. intros [= <- <- <-].
      split; [by eapply session_step_trans|congruence].
    + by intros [= <- <- <-].
  - destruct (run B body s) as [[[b|e] s1] t1] eqn:Hb; apply IHb in Hb as [Hb1 Hb2].
    + destruct (run B (k b) s1) as [[o2 s2] t2] eqn:Hr.
      apply IHk in Hr as [Hr1 Hr2]. intros [= <- <- <-].
      split; [by eapply session_step_trans|congruence].
    + destruct (run B (handler e) s1) as [[[b|e'] s2] t2] eqn:Hh;
        apply IHh in Hh as [Hh1 Hh2].
      * destruct (run B (k b) s2) as [[o3 s3] t3] eqn:Hr.
        apply IHk in Hr as [Hr1 Hr2]. intros [= <- <- <-].
        split; [|congruence].
        eapply session_step_trans; [|done]. by eapply session_step_trans.
      * intros [= <- <- <-]. split; [by eapply session_step_trans|congruence].
Qed.
Lemma levels_verbosity_inv (n : nat) (lvl : level) :
  levels_verbosity n = Some lvl -> verbosity_levels lvl = n.
Proof. destruct n as [|[|[|[|n]]]]; simpl; intros; by simplify_eq. Qed.

Lemma print__level (m : pmsg) (lvl : level) (s : state) o s' tr :
  print_ m (Some lvl) s = (o, s', tr) -> Forall (fun ev => ev_level ev = lvl) tr.
Proof.
  unfold print_, output_append. intros H. simpl in H.
  repeat case_match; simplify_eq; by repeat constructor.
Qed.

(** A session that returns has stored, for its operation, the level whose
    index is the severity of the messages it emitted. *)
Lemma session_result (x : checked * option pvalue * option Wires) (s s' : state) tr :
  session B x s = (Returns tt, s', tr) ->
  exists lvl,
    results (self s') = <[checked_key x.1.1 := lvl]> (results (self s))
    /\ verbosity_levels lvl = severity tr.
Proof.
  destruct x as [[op_ parameters_] wires_]. unfold session.
  destruct (run B _ _) as [[[[]|e] s1] t1] eqn:Hrun; [|done].
  apply run_session_step in Hrun as [Hstep Hres].
  destruct (Hstep _ eq_refl) as (t' & Ht' & _ & Hres' & _). simpl in Hres'.
  rewrite Ht'. simpl.
  destruct (levels_verbosity (res t')) as [lvl|] eqn:Hlvl; [|done].
  apply levels_verbosity_inv in Hlvl.
  case_bool_decide as Hpass.
  - destruct (print_ _ _ _) as [[o2 s2] t2] eqn:Hp.
    intros [= -> <- <-].
    pose proof (print__level _ _ _ _ _ _ Hp) as Hl.
    apply print__session_step in Hp as [_ Hp].
    exists lvl. split; [by rewrite Hp; simpl; rewrite Hres|].
    unfold severity, levels_of. rewrite map_app, min_from_app.
    fold (levels_of t1). change max_level with 3%nat in Hres'.
    rewrite <- Hres', <- Hlvl. subst lvl. simpl.
    clear -Hl. induction Hl as [|ev l Hev _ IH]; simpl; [done|].
    rewrite Hev, <- IH. done.
  - intros [= <- <-]. exists lvl. split; [by simpl; rewrite Hres|].
    change max_level with 3%nat in Hres'. unfold severity. congruence.
Qed.

Lemma sessions_results (l : list (checked * option pvalue * option Wires)) (s s' : state) ts :
  sessions B l s = (Returns tt, s', ts) ->
  ts.*1 = (fun x => checked_key x.1.1) <$> l
  /\ forall key,
       match last_session key ts with
       | Some tr => exists lvl, results (self s') !! key = Some lvl
                                /\ verbosity_levels lvl = severity tr
       | None => results (self s') !! key = results (self s) !! key
       end.
Proof.
  revert s s' ts. induction l as [|x l IH]; intros s s' ts; simpl.
  - intros [= <- <-]. done.
  - destruct (session B x s) as [[[[]|e] s1] t1] eqn:Hx; [|done].
    destruct (sessions B l s1) as [[o2 s2] ts2] eqn:Hl.
    intros [= -> <- <-].
    apply IH in Hl as [Hkeys Hl]. apply session_result in Hx as (lvl & Hx & Hlvl).
    split; [by rewrite fmap_cons, Hkeys|].
    intros key. simpl. specialize (Hl key).
    destruct (last_session key ts2) as [tr|]; [done|].
    rewrite Hl, Hx. case_decide as Hk.
    + subst key. exists lvl. by rewrite lookup_insert_eq.
    + by rewrite lookup_insert_ne.
Qed.
End Severity.

Lemma broadcast_parameters_length (n : nat) parameters ps :
  broadcast_parameters n parameters = Returns ps -> length ps = n.
Proof.
  unfold broadcast_parameters.
  destruct parameters as [p|]; [|intros [= <-]; by rewrite length_replicate].
  destruct (first_entry p) as [first|]; [|done]. csimpl.
  destruct (isinstance_Sequence first); csimpl;
    [|intros [= <-]; by rewrite length_replicate].
  destruct p as [q|l|l]; csimpl; [done| |];
    (destruct (Nat.eqb (length l) n) eqn:Hlen; [|done]);
    intros [= <-]; rewrite length_fmap; by apply Nat.eqb_eq.
Qed.

Lemma broadcast_wires_length (n : nat) wires ws :
  broadcast_wires n wires = Returns ws -> length ws = n.
Proof.
  unfold broadcast_wires. intros H.
  repeat case_match; simplify_eq; rewrite ?length_replicate; try done.
  by apply Nat.eqb_eq.
Qed.

Lemma fmap_fst_fst {X Y Z} (l : list (X * Y * Z)) :
  (fun x => x.1.1) <$> l = (l.*1).*1.
Proof. induction l as [|x l IH]; csimpl; [done|]. by rewrite IH. Qed.

Lemma normalise_operations (args : call_args) op todo :
  normalise args = Returns (op, todo) ->
  op = operations args /\ (fun x => x.1.1) <$> todo = op.
Proof.
  destruct args as [o p w|ops p w]; simpl.
  - by intros [= <- <-].
  - destruct (broadcast_parameters _ _) as [ps|] eqn:Hp; [|done]. simpl.
    destruct (broadcast_wires _ _) as [ws|] eqn:Hw; [|done]. simpl.
    intros [= <- <-]. split; [done|].
    apply broadcast_parameters_length in Hp. apply broadcast_wires_length in Hw.
    rewrite fmap_fst_fst. unfold zip3.
    rewrite !fst_zip; [done|lia|].
    rewrite length_zip_with. lia.
Qed.

Lemma last_session_is_Some (key : positive) (ts : list (positive * list event)) :
  key ∈ ts.*1 -> is_Some (last_session key ts).
Proof.
  induction ts as [|[k tr] ts IH]; simpl.
  - by intros ?%elem_of_nil.
  - intros [Hk|Hin]%elem_of_cons; simpl in *.
    + subst k. destruct (last_session key ts); [done|]. by rewrite decide_True.
    + destruct (IH Hin) as [tr' ->]. done.
Qed.

(** C4 fails as stated for an operation that is listed twice: Moody is
    checked with the parameter 0.25, which gives two comments and an error,
    and then with 0.5, which gives two comments; the mapping reports
    "comment", the severity of the second session, while the minimum over all
    messages emitted for the operation is "error". *)
Lemma C4_counterexample :
  exists r out s' ts,
    __call__ Examples.null_backend moody_twice None (Examples.fresh checker0)
      = (Returns (r, out), s', ts)
    /\ r !! 11%positive = Some LComment
    /\ levels_of (messages_of 11 ts) = [2; 2; 0; 2; 2]%nat
    /\ verbosity_levels LComment <> severity (messages_of 11 ts).
Proof.
  do 4 eexists. split; [vm_compute; reflexivity|]. vm_compute. repeat split; done.
Qed.

Lemma messages_of_absent (key : positive) (ts : list (positive * list event)) :
  key ∉ ts.*1 -> messages_of key ts = [].
Proof.
  induction ts as [|[k tr] ts IH]; [done|]. cbn [fmap list_fmap fst].
  intros [Hk Hin]%not_elem_of_cons. unfold messages_of. cbn [flat_map fst snd].
  rewrite decide_False by done. by apply IH.
Qed.

Lemma last_session_absent (key : positive) (ts : list (positive * list event)) :
  key ∉ ts.*1 -> last_session key ts = None.
Proof.
  induction ts as [|[k tr] ts IH]; [done|]. cbn [fmap list_fmap fst].
  intros [Hk Hin]%not_elem_of_cons. simpl. rewrite (IH Hin). by rewrite decide_False.
Qed.

(** For an operation with one session, the messages of its last session are
    all its messages. *)
Lemma last_session_once (key : positive) (ts : list (positive * list event)) tr :
  length (filter (fun k => k = key) ts.*1) = 1%nat ->
  last_session key ts = Some tr ->
  tr = messages_of key ts.
Proof.
  revert tr. induction ts as [|[k tr0] ts IH]; intros tr; [done|].
  cbn [fmap list_fmap fst]. rewrite filter_cons. unfold messages_of. cbn [flat_map fst snd].
  fold (messages_of key ts). simpl last_session.
  destruct (decide (k = key)) as [->|Hk].
  - cbn [length]. intros [= Hlen]. apply length_zero_iff_nil in Hlen.
    assert (key ∉ ts.*1) as Hnot.
    { intros Hin. assert (key ∈ filter (fun k => k = key) ts.*1) as Hf
        by (by apply list_elem_of_filter).
      rewrite Hlen in Hf. by apply elem_of_nil in Hf. }
    rewrite (last_session_absent key ts Hnot), (messages_of_absent key ts Hnot).
    intros [= <-]. by rewrite app_nil_r.
  - intros Hlen. destruct (last_session key ts) as [tr'|] eqn:Hlast; [|done].
    intros [= <-]. by apply IH.
Qed.

Lemma filter_fmap_key (key : positive) (op : list checked) :
  filter (fun k => k = key) (checked_key <$> op)
  = checked_key <$> filter (fun op_ => checked_key op_ = key) op.
Proof.
  induction op as [|o op IH]; [done|]. rewrite fmap_cons, !filter_cons.
  destruct (decide (checked_key o = key)); by rewrite ?fmap_cons, IH.
Qed.

(** C4, amended. For every checked operation, the severity in the returned
    result mapping is the minimum of the levels of all messages emitted in its
    last check session, under error=0 < hint=1 < comment=2 < pass=3 and
    starting from "pass" (3); a session without any diagnostic reports "pass".
    For an operation that is listed once these are all the messages emitted
    for it during the call. *)
Theorem C4_severity_is_minimum (B : Backend) (args : call_args) (seed : option Z)
    (s s' : state) (r : gmap positive level) (out : gmap positive string)
    (ts : list (positive * list event)) :
  __call__ B args seed s = (Returns (r, out), s', ts) ->
  forall op_, op_ ∈ operations args ->
    exists tr lvl,
      last_session (checked_key op_) ts = Some tr
      /\ r !! checked_key op_ = Some lvl
      /\ verbosity_levels lvl = severity tr
      /\ (times_listed (checked_key op_) (operations args) = 1%nat ->
          tr = messages_of (checked_key op_) ts).
Proof.
  unfold __call__.
  destruct (normalise args) as [[op todo]|] eqn:Hn; [|done].
  apply normalise_operations in Hn as [-> Htodo].
  destruct (sessions B todo _) as [[[[]|e] s1] ts1] eqn:Hs; [|done].
  intros [= <- <- <- <-] op_ Hop.
  apply sessions_results in Hs as [Hkeys Hs].
  specialize (Hs (checked_key op_)).
  destruct (last_session_is_Some (checked_key op_) ts1) as [tr Htr].
  { rewrite Hkeys. rewrite <- Htodo in Hop.
    apply list_elem_of_fmap in Hop as (x & -> & Hx).
    apply list_elem_of_fmap. by exists x. }
  rewrite Htr in Hs. destruct Hs as (lvl & ? & ?). exists tr, lvl.
  repeat split; [done..|].
  intros Honce. apply last_session_once; [|done].
  assert (ts1.*1 = checked_key <$> operations args) as ->.
  { rewrite Hkeys, <- Htodo, <- list_fmap_compose. done. }
  rewrite filter_fmap_key, length_fmap. exact Honce.
Qed.

Lemma C4_severity_is_minimum_witness :
  exists r out s' ts,
    __call__ Examples.null_backend moody_once None (Examples.fresh checker0)
      = (Returns (r, out), s', ts)
    /\ exists tr lvl,
         last_session 11%positive ts = Some tr
         /\ r !! 11%positive = Some lvl
         /\ verbosity_levels lvl = severity tr
         /\ (times_listed 11 [OfClass Moody] = 1%nat -> tr = messages_of 11 ts).
Proof.
  do 4 eexists. split; [vm_compute; reflexivity|].
  apply (C4_severity_is_minimum Examples.null_backend moody_once None
           (Examples.fresh checker0)
           _ _ _ _ ltac:(vm_compute; reflexivity) (OfClass Moody)).
  apply list_elem_of_singleton. reflexivity.
Defined.

(** In that example the minimum is taken over two comments and an error. *)
Lemma moody_once_levels :
  let r := __call__ Examples.null_backend moody_once None (Examples.fresh checker0) in
  (fst <$> r.1.1) = Returns {[ 11%positive := LError ]}
  /\ map (fun kt => (kt.1, levels_of kt.2)) r.2 = [(11%positive, [2; 2; 0]%nat)].
Proof. vm_compute. done. Qed.


(** ** Independence of the verbosity *)

Section Lockstep.
Context (B : Backend).

Lemma exec_config {X} (c : cmd X) (s : state) o s' tr :
  exec B c s = (o, s', tr) -> same_config s s'.
Proof.
  destruct c as [m [lvl|]| | | | | | | | |]; simpl; unfold tmp_missing; intros H.
  1: by eapply print__config.
  1: destruct (print__without_level m s) as [e He]; rewrite He in H.
  all: repeat case_match; simplify_eq; done.
Qed.

Lemma run_config {A} (p : prog A) (s : state) o s' tr :
  run B p s = (o, s', tr) -> same_config s s'.
Proof.
  revert s o s' tr.
  induction p as [A a|A e|A X c k IH|A A0 body IHb handler IHh k IHk];
    intros s o s' tr; simpl.
  - by intros [= <- <- <-].
  - by intros [= <- <- <-].
  - destruct (exec B c s) as [[[x|e] s1] t1] eqn:He; apply exec_config in He.
    + destruct (run B (k x) s1) as [[o2 s2] t2] eqn:Hr. apply IH in Hr.
      intros [= <- <- <-]. by eapply same_config_trans.
    + by intros [= <- <- <-].
  - destruct (run B body s) as [[[b|e] s1] t1] eqn:Hb; apply IHb in Hb.
    + destruct (run B (k b) s1) as [[o2 s2] t2] eqn:Hr. apply IHk in Hr.
      intros [= <- <- <-]. by eapply same_config_trans.
    + destruct (run B (handler e) s1) as [[[b|e'] s2] t2] eqn:Hh; apply IHh in Hh.
      * destruct (run B (k b) s2) as [[o3 s3] t3] eqn:Hr. apply IHk in Hr.
        intros [= <- <- <-]. eapply same_config_trans; [|done].
        by eapply same_config_trans.
      * intros [= <- <- <-]. by eapply same_config_trans.
Qed.

Lemma exec_crash {X} (c : cmd X) (s : state) o s' tr :
  exec B c s = (o, s', tr) -> Exists (crashes (self s)) tr -> exists e, o = Raises e.
Proof.
  destruct c as [m [lvl|]| | | | | | | | |]; simpl; unfold tmp_missing; intros H.
  1: by eapply print__crash.
  1: destruct (print__without_level m s) as [e He]; rewrite He in H.
  all: repeat case_match; simplify_eq; by intros ?%Exists_nil.
Qed.


End Lockstep.

(** ** A crash in [print_] is never swallowed *)

Lemma crashes_color (c : OperationChecker) (tr : list event) :
  Exists (crashes c) tr -> print_color c = false.
Proof.
  intros (ev & _ & Hev)%Exists_exists. unfold crashes in Hev.
  by destruct (print_color c).
Qed.

Lemma cr_ret {A} (a : A) : crash_raises (Ret a).
Proof. intros B s o s' t [= <- <- <-] ?%Exists_nil. done. Qed.

Lemma cr_throw {A} (e : exn) : crash_raises (Throw (A := A) e).
Proof. intros B s o s' t [= <- <- <-] ?%Exists_nil. done. Qed.

Lemma cr_lift {A} (o : outcome A) : crash_raises (lift o).
Proof. destruct o; [apply cr_ret|apply cr_throw]. Qed.

Lemma cr_do {X} (c : cmd X) : crash_raises (do_ c).
Proof. intros B s o s' t. rewrite run_do. apply exec_crash. Qed.

Lemma cr_bind {A A'} (p : prog A) (k : A -> prog A') :
  crash_raises p -> (forall a, crash_raises (k a)) -> crash_raises (bind p k).
Proof.
  intros Hp Hk B s o s' t. rewrite run_bind.
  destruct (run B p s) as [[[a|e] s1] t1] eqn:E1.
  - destruct (run B (k a) s1) as [[o2 s2] t2] eqn:E2.
    intros [= <- <- <-] [Hc|Hc]%Exists_app.
    + by destruct (Hp _ _ _ _ _ E1 Hc).
    + eapply Hk; [done|]. apply run_config in E1.
      eapply Exists_impl; [exact Hc|]. intros ev. simpl. by rewrite (crashes_config s s1).
  - intros [= <- <- <-] _. eauto.
Qed.

Lemma cr_for {X} (l : list X) (body : X -> prog unit) :
  (forall x, crash_raises (body x)) -> crash_raises (for_ l body).
Proof.
  intros Hb. induction l as [|x l IH]; simpl; [apply cr_ret|].
  apply cr_bind; [apply Hb|done].
Qed.

Lemma cr_for_acc {X S} (l : list X) (acc : S) (body : S -> X -> prog S) :
  (forall acc x, crash_raises (body acc x)) -> crash_raises (for_acc l acc body).
Proof.
  intros Hb. revert acc. induction l as [|x l IH]; intros acc; simpl; [apply cr_ret|].
  apply cr_bind; [apply Hb|done].
Qed.

Lemma cr_try {A} (body : prog A) (handler : exn -> prog A) :
  crash_raises body ->
  (forall e, crash_raises (handler e)) ->
  (forall e, raises_without_color (handler e)) ->
  crash_raises (try_except body handler).
Proof.
  intros Hb Hh Hr B s o s' t. unfold try_except. simpl.
  destruct (run B body s) as [[[b|e] s1] t1] eqn:E1.
  - intros [= <- <- <-] Hc. rewrite app_nil_r in Hc.
    by destruct (Hb _ _ _ _ _ E1 Hc).
  - apply run_config in E1 as C1.
    destruct (run B (handler e) s1) as [[[b|e'] s2] t2] eqn:E2.
    + intros [= <- <- <-] Hc. rewrite app_nil_r in Hc.
      apply Exists_app in Hc as [Hc|Hc].
      * apply crashes_color in Hc. destruct C1 as [_ C1]. rewrite <- C1 in Hc.
        destruct (Hr e B s1 Hc) as (e' & s3 & t3 & E3). congruence.
      * eapply (Hh e); [done|].
        eapply Exists_impl; [exact Hc|]. intros ev. simpl. by rewrite (crashes_config s s1).
    + intros [= <- <- <-] _. eauto.
Qed.

Lemma print_error_raises_without_color {A} (e : exn) (k : prog A) :
  raises_without_color (print (MExc e) LError ;; k).
Proof.
  intros B s Hc. rewrite run_bind, run_print.
  unfold print_, output_append. simpl. rewrite Hc.
  repeat case_match; simplify_eq; eauto.
Qed.

Ltac cr :=
  repeat first
    [ apply cr_ret | apply cr_throw | apply cr_lift | apply cr_do
    | apply cr_bind; [|intros ?]
    | apply cr_for; intros ?
    | apply cr_for_acc; intros ? ?
    | match goal with
      | |- crash_raises (match ?x with _ => _ end) => destruct x
      | |- crash_raises (if ?b then _ else _) => destruct b
      end ].

Section CrashRaises.
Context (B : Backend).

Lemma cr_check_wires op wires : crash_raises (_check_wires op wires).
Proof. unfold _check_wires, print. cr. Qed.

Lemma cr_check_parameters op parameters : crash_raises (_check_parameters op parameters).
Proof. unfold _check_parameters, print. cr. Qed.

Lemma cr_check_instantiation op parameters wires :
  crash_raises (_check_instantiation op parameters wires).
Proof. unfold _check_instantiation, print. cr. Qed.

Lemma cr_check_single_method op method_tuple parameters wires :
  crash_raises (_check_single_method op method_tuple parameters wires).
Proof.
  unfold _check_single_method.
  destruct method_tuple as [[method expected_exc] use_wires].
  apply cr_bind; [cr|intros wrapped].
  apply cr_bind; [cr|intros [|]].
  - apply cr_bind; [cr|intros args].
    destruct (wrapped _); try apply cr_ret.
    apply cr_bind.
    + apply cr_try.
      * unfold print. cr.
      * intros f. unfold print. cr.
      * intros f. apply print_error_raises_without_color.
    + intros [|]; unfold print; cr.
  - unfold print. cr.
Qed.

Lemma cr_check_decompositions op parameters wires :
  crash_raises (_check_decompositions B op parameters wires).
Proof. unfold _check_decompositions, print. cr. Qed.

Lemma cr_check_properties op parameters wires :
  crash_raises (_check_properties B op parameters wires).
Proof.
  unfold _check_properties, _check_matrix_shape, _check_eigvals, _check_diag_gates,
    _check_basis, print.
  cr.
Qed.

Lemma cr_check_single_operation op parameters wires :
  crash_raises (check_single_operation B op parameters wires).
Proof.
  unfold check_single_operation.
  apply cr_bind; [cr|intros seed].
  apply cr_bind; [cr|intros _].
  destruct op as [c|i c].
  all: apply cr_bind; [apply cr_check_wires|intros w].
  all: apply cr_bind; [apply cr_check_parameters|intros p].
  all: apply cr_bind; [apply cr_check_instantiation|intros _].
  all: apply cr_bind; [apply cr_for; intros m; apply cr_check_single_method|intros _].
  all: apply cr_bind; [apply cr_check_decompositions|intros _].
  all: apply cr_check_properties.
Qed.
End CrashRaises.

Section CallLockstep.
Context (B : Backend).








End CallLockstep.



(** In that example the severity is "comment" under both verbosities, while
    the texts differ: "pass" shows the comments, "error" shows nothing. *)
Lemma hyper_call_texts_differ :
  fst <$> hyper_call LPass true = Returns {[ 7%positive := LComment ]}
  /\ fst <$> hyper_call LError true = Returns {[ 7%positive := LComment ]}
  /\ text_length 7 (hyper_call LPass true) <> text_length 7 (hyper_call LError true)
  /\ text_length 7 (hyper_call LError true) = Some O.
Proof. vm_compute. repeat split; done. Qed.


(** ** The entry points of the dispatcher *)

Section DispatcherProperties.
Import Dispatcher.
Context {A K Result : Type}.
Context (as_Wires : list nat -> outcome Wires).
Context (no_args : A).

Lemma forallb_elem_of (l l' : list nat) :
  forallb (fun w => bool_decide (w ∈ l)) l' = true <-> forall w, w ∈ l' -> w ∈ l.
Proof.
  rewrite forallb_forall. split.
  - intros H w Hw. apply list_elem_of_In, H, bool_decide_eq_true in Hw. done.
  - intros H w Hw. apply bool_decide_eq_true, H, list_elem_of_In, Hw.
Qed.

Lemma forallb_elem_of_self (l : list nat) :
  forallb (fun w => bool_decide (w ∈ l)) l = true.
Proof. by apply forallb_elem_of. Qed.

(** X1. When [_make_tape] returns, every wire of the circuit is in the wire
    order it returns; the wire order is the conversion of the one given, and
    without one the wires of the device (for a QNode) or of the circuit. *)
Theorem make_tape_wires_within_order (obj : pyobj (A := A)) (wire_order : option (list nat))
    (args : A) (tape : circuit) (order : Wires) :
  _make_tape as_Wires obj wire_order args = Returns (tape, order) ->
  (forall w, w ∈ wires_of tape -> w ∈ order)
  /\ match wire_order, obj with
     | Some given, _ => as_Wires given = Returns order
     | None, QNode _ device_wires => order = device_wires
     | None, _ => order = wires_of tape
     end.
Proof.
  unfold _make_tape. intros H.
  destruct obj as [construct dw|t|init|o|mk| |v]; simpl in H; try discriminate;
    [destruct (construct args) as [t|e]; [|discriminate]
    |
    |destruct (init args) as [o|e]; [|discriminate]
    |destruct (mk args) as [t|e]; [|discriminate]; simpl in H;
     destruct (Nat.eqb _ _); [discriminate|]];
    simpl in H;
    (destruct wire_order as [given|]; simpl in H;
     [destruct (as_Wires given) as [w'|e]; [|discriminate]; simpl in H|]);
    destruct (forallb _ _) eqn:Hall; try discriminate; simplify_eq;
    (split; [by apply forallb_elem_of|done]).
Qed.


Lemma make_tape_of_operator_class (init : A -> outcome Operator) (args : A) (o : Operator) :
  init args = Returns o ->
  _make_tape as_Wires (OperatorClass init) None args = Returns (AnOperator o, op_wires o).
Proof.
  intros Hinit. unfold _make_tape. rewrite Hinit. simpl.
  by rewrite forallb_elem_of_self.
Qed.

(** X2. The functional form agrees with the direct one: applied to an
    operator class, the transform returns a function of the arguments of the
    class which, where the class builds an operator from them, returns what
    the transform returns when applied to that operator; where the
    constructor raises, the function raises the same exception. *)
Theorem functional_form_agrees (self : transform (A := A) (K := K) (Result := Result))
    (init : A -> outcome Operator) (targs : list pyobj) (tkwargs : K) :
  exists w,
    __call__ as_Wires no_args self (OperatorClass init :: targs) None tkwargs
    = Returns (Direct (Deferred w))
    /\ (forall args o, init args = Returns o ->
          (fun r => Direct (Evaluated r)) <$> w args
          = __call__ as_Wires no_args self (OperatorInstance o :: targs) None tkwargs)
    /\ (forall args e, init args = Raises e -> w args = Raises e).
Proof.
  eexists. split; [reflexivity|]. split.
  - intros args o Hinit. rewrite (make_tape_of_operator_class _ _ _ Hinit). simpl.
    unfold __call__, _create_wrapper. simpl.
    set (r := fn _ _ _ _). change (fn _ _ _ _) with r. by destruct r.
  - intros args e Hinit. unfold _make_tape. by rewrite Hinit.
Qed.


(** X3. A wire order is validated for an operator class and not for an
    operator: when the wire order given lacks a wire of the operator the
    class builds, the function returned for the class raises
    [OperationTransformError], while the transform applied to the operator
    itself evaluates the operator function with the wire order as given. *)
Theorem wire_order_checked_for_class_only
    (self : transform (A := A) (K := K) (Result := Result))
    (init : A -> outcome Operator) (targs : list pyobj) (tkwargs : K)
    (given : list nat) (order : Wires) (args : A) (o : Operator) (w0 : nat) :
  init args = Returns o ->
  as_Wires given = Returns order ->
  w0 ∈ op_wires o ->
  w0 ∉ order ->
  (exists w,
      __call__ as_Wires no_args self (OperatorClass init :: targs) (Some given) tkwargs
      = Returns (Direct (Deferred w))
      /\ w args = Raises (transform_error
                            "Wires in circuit are inconsistent with those in wire_order"))
  /\ __call__ as_Wires no_args self (OperatorInstance o :: targs) (Some given) tkwargs
     = (fun r => Direct (Evaluated r)) <$> fn expand self o (targs, tkwargs, Some given).
Proof.
  intros Hinit Has Hin Hnot. split.
  - eexists. split; [reflexivity|].
    unfold _make_tape. rewrite Hinit. simpl. rewrite Has. simpl.
    destruct (forallb _ _) eqn:Hall; [|done].
    exfalso. apply Hnot. by apply (proj1 (forallb_elem_of _ _) Hall).
  - unfold __call__, _create_wrapper. simpl.
    set (r := fn _ _ _ _). change (fn _ _ _ _) with r. by destruct r.
Qed.

(** X4. The decorator form: a first argument that is neither an operator, a
    tape nor callable is taken for an argument of the transform.  The call
    returns a function of the object, and applying it to an object gives what
    the call with the object in front of the arguments gives; a leading
    [None] is dropped; an object that cannot be transformed is refused with
    [OperationTransformError]. *)
Theorem decorator_form_agrees (self : transform (A := A) (K := K) (Result := Result))
    (v : string) (targs : list pyobj) (wire_order : option (list nat)) (tkwargs : K) :
  (exists w,
      __call__ as_Wires no_args self (Other v :: targs) wire_order tkwargs
      = Returns (Decorator w)
      /\ forall obj,
           if is_transformable obj
           then Direct <$> w obj
                = __call__ as_Wires no_args self (obj :: Other v :: targs) wire_order tkwargs
           else w obj = Raises (transform_error
                                  "Input is not an Operator, tape, QNode, or quantum function"))
  /\ (exists w,
        __call__ as_Wires no_args self (PyNone :: targs) wire_order tkwargs
        = Returns (Decorator w)
        /\ __call__ as_Wires no_args self [] wire_order tkwargs
           = Returns (Decorator (fun obj => _create_wrapper as_Wires no_args self obj []
                                              wire_order tkwargs))
        /\ forall obj,
             is_transformable obj = true ->
             Direct <$> w obj
             = __call__ as_Wires no_args self (obj :: targs) wire_order tkwargs).
Proof.
  split.
  - eexists. split; [reflexivity|]. intros obj.
    destruct obj; simpl; try reflexivity;
      unfold __call__; simpl;
      match goal with |- context [_create_wrapper ?a ?b ?c ?d ?e ?f ?g] =>
        by destruct (_create_wrapper a b c d e f g) end.
  - eexists. split; [reflexivity|]. split; [reflexivity|]. intros obj Hobj.
    unfold __call__. rewrite Hobj.
    match goal with |- context [_create_wrapper ?a ?b ?c ?d ?e ?f ?g] =>
      by destruct (_create_wrapper a b c d e f g) end.
Qed.

(** X5. A transform without a registered tape transform does not support
    circuits: applied to a tape it raises [OperationTransformError], and the
    functions it returns for a QNode and for a quantum function raise it
    whenever the tape can be built, whatever the operator function is. *)
Theorem circuits_need_a_tape_transform
    (f : Operator -> transform_args (A := A) (K := K) -> outcome Result)
    (targs : list pyobj) (wire_order : option (list nat)) (tkwargs : K) :
  (forall given, wire_order = Some given -> exists order, as_Wires given = Returns order) ->
  (forall t,
     exists msg,
       __call__ as_Wires no_args (op_transform_init f) (Tape t :: targs) wire_order tkwargs
       = Raises (transform_error msg))
  /\ (forall construct device_wires,
        exists w,
          __call__ as_Wires no_args (op_transform_init f)
            (QNode construct device_wires :: targs) wire_order tkwargs
          = Returns (Direct (Deferred w))
          /\ forall args t, construct args = Returns t ->
                exists msg, w args = Raises (transform_error msg))
  /\ (forall make_tape,
        exists w,
          __call__ as_Wires no_args (op_transform_init f)
            (Callable make_tape :: targs) wire_order tkwargs
          = Returns (Direct (Deferred w))
          /\ forall args t, make_tape args = Returns t ->
                exists msg, w args = Raises (transform_error msg)).
Proof.
  intros Has.
  assert (forall (t : QuantumTape) (wires : Wires),
            exists msg,
              (wo ← match wire_order with None => Returns wires | Some w => as_Wires w end;
               if forallb (fun w => bool_decide (w ∈ wo)) (tape_wires t)
               then Returns (ATape t, wo)
               else Raises (transform_error
                              "Wires in circuit are inconsistent with those in wire_order"))
              ≫= (fun made : circuit * Wires =>
                    let '(tape, new_wire_order) := made in
                    match tape with
                    | AnOperator o =>
                        fn expand (op_transform_init f) o
                          (targs, tkwargs, set_wire_order wire_order new_wire_order)
                    | ATape _ =>
                        tape_fn (op_transform_init f) tape
                          (targs, tkwargs, set_wire_order wire_order new_wire_order)
                    end)
              = Raises (transform_error msg)) as Hrest.
  { intros t wires. destruct wire_order as [given|].
    - destruct (Has given eq_refl) as [order ->]. simpl.
      destruct (forallb _ _); simpl; eexists; reflexivity.
    - simpl. destruct (forallb _ _); simpl; eexists; reflexivity. }
  split; [|split].
  - intros t. unfold __call__, _create_wrapper, _make_tape. simpl.
    destruct wire_order as [given|].
    + destruct (Has given eq_refl) as [order Ho]. rewrite Ho. simpl.
      destruct (forallb _ _); simpl; eexists; reflexivity.
    + simpl. destruct (forallb _ _); simpl; eexists; reflexivity.
  - intros construct dw. eexists. split; [reflexivity|]. intros args t Ht.
    unfold _make_tape. rewrite Ht. simpl. apply Hrest.
  - intros mk. eexists. split; [reflexivity|]. intros args t Ht.
    unfold _make_tape. rewrite Ht. simpl.
    destruct (Nat.eqb _ _); [eexists; reflexivity|]. simpl. apply Hrest.
Qed.

(** X6. After a tape transform has been registered, it is what circuits are
    evaluated with: a tape is handed to it as it is, a quantum function that
    records at least one operation is handed over as the tape it records, and
    an operator on which the operator function raises is handed over as its
    expansion. *)
Theorem registered_tape_transform_is_used
    (g : Operator -> transform_args (A := A) (K := K) -> outcome Result)
    (f : circuit -> transform_args (A := A) (K := K) -> outcome Result)
    (targs : list pyobj) (tkwargs : K) :
  let self := tape_transform (op_transform_init g) f in
  (forall t,
     __call__ as_Wires no_args self (Tape t :: targs) None tkwargs
     = (fun r => Direct (Evaluated r)) <$> f (ATape t) (targs, tkwargs, None))
  /\ (forall make_tape,
        exists w,
          __call__ as_Wires no_args self (Callable make_tape :: targs) None tkwargs
          = Returns (Direct (Deferred w))
          /\ forall args t, make_tape args = Returns t -> tape_operations t <> [] ->
                w args = f (ATape t) (targs, tkwargs, None))
  /\ (forall o e t r,
        g o (targs, tkwargs, None) = Raises e ->
        op_expand o = Some (Returns t) ->
        f (ATape t) (targs, tkwargs, None) = Returns r ->
        __call__ as_Wires no_args self (OperatorInstance o :: targs) None tkwargs
        = Returns (Direct (Evaluated r))).
Proof.
  intros self. subst self. split; [|split].
  - intros t. unfold __call__, _create_wrapper, _make_tape. simpl.
    rewrite forallb_elem_of_self. simpl. unfold tape_fn. simpl.
    by destruct (f _ _).
  - intros mk. eexists. split; [reflexivity|]. intros args t Ht Hops.
    unfold _make_tape. rewrite Ht. simpl.
    destruct (tape_operations t) eqn:Hl; [done|]. simpl.
    rewrite forallb_elem_of_self. simpl. reflexivity.
  - intros o e t r Hg Hexp Hf.
    unfold __call__, _create_wrapper, fn, expand, transform_args, Wires in *. simpl.
    rewrite Hg, Hexp. simpl. unfold tape_fn. simpl. rewrite Hf. reflexivity.
Qed.

(** X7. A transform built with the class [tape_transform] has no operator
    function.  Applied to an operator it evaluates the tape function on the
    expansion of the operator; applied to an operator without [expand] it
    raises the [TypeError] of calling [None], with the context suppressed. *)
Theorem tape_transform_class_expands_operators
    (f : circuit -> transform_args (A := A) (K := K) -> outcome Result)
    (o : Operator) (targs : list pyobj) (wire_order : option (list nat)) (tkwargs : K) :
  let self := tape_transform_class f in
  let call := __call__ as_Wires no_args self (OperatorInstance o :: targs) wire_order tkwargs in
  (forall t r,
     op_expand o = Some (Returns t) ->
     f (ATape t) (targs, tkwargs, wire_order) = Returns r ->
     call = Returns (Direct (Evaluated r)))
  /\ (op_expand o = None ->
      call = Raises (from_None (type_error "'NoneType' object is not callable"))).
Proof.
  intros self call. subst self call. split.
  - intros t r Hexp Hf.
    unfold __call__, _create_wrapper, fn, expand. simpl.
    rewrite Hexp. simpl. unfold tape_fn. simpl. rewrite Hf. reflexivity.
  - intros Hexp. unfold __call__, _create_wrapper, fn, expand. simpl.
    rewrite Hexp. reflexivity.
Qed.

(** X25. A quantum function that records no operation is refused: the
    function returned for it raises [OperationTransformError] for such
    arguments, whatever the wire order is and whether or not a tape transform
    has been registered. *)
Theorem empty_quantum_function_is_refused
    (self : transform (A := A) (K := K) (Result := Result))
    (make_tape : A -> outcome QuantumTape) (targs : list pyobj)
    (wire_order : option (list nat)) (tkwargs : K) :
  exists w,
    __call__ as_Wires no_args self (Callable make_tape :: targs) wire_order tkwargs
    = Returns (Direct (Deferred w))
    /\ forall args t, make_tape args = Returns t -> tape_operations t = [] ->
          w args = Raises (transform_error "Quantum function contains no quantum operations").
Proof.
  eexists. split; [reflexivity|]. intros args t Ht Hops.
  unfold _make_tape. rewrite Ht. cbn [mbind outcome_mbind outcome_bind]. by rewrite Hops.
Qed.

End DispatcherProperties.

Lemma make_tape_wires_within_order_witness :
  (forall w, w ∈ [0%nat] -> w ∈ [0; 1]%nat)
  /\ Returns [0; 1]%nat = Returns (A := Wires) [0; 1]%nat.
Proof.
  exact (make_tape_wires_within_order Returns DispatcherExamples.RX (Some [0; 1]%nat) tt
           (Dispatcher.AnOperator DispatcherExamples.rx) [0; 1]%nat eq_refl).
Defined.

Lemma wire_order_checked_for_class_only_witness :
  (exists w,
      Dispatcher.__call__ Returns tt DispatcherExamples.count [DispatcherExamples.RX]
        (Some [1%nat]) tt
      = Returns (Dispatcher.Direct (Dispatcher.Deferred w))
      /\ w tt = Raises (Dispatcher.transform_error
                          "Wires in circuit are inconsistent with those in wire_order"))
  /\ Dispatcher.__call__ Returns tt DispatcherExamples.count
       [Dispatcher.OperatorInstance DispatcherExamples.rx] (Some [1%nat]) tt
     = Returns (Dispatcher.Direct (Dispatcher.Evaluated 1%nat)).
Proof.
  apply (wire_order_checked_for_class_only Returns tt DispatcherExamples.count
           (fun _ => Returns DispatcherExamples.rx) [] tt [1%nat] [1%nat] tt
           DispatcherExamples.rx 0%nat); 
    [reflexivity|reflexivity|by apply list_elem_of_singleton
    |by intros ?%list_elem_of_singleton].
Defined.

Lemma circuits_need_a_tape_transform_witness :
  exists msg,
    Dispatcher.__call__ Returns tt DispatcherExamples.count
      [Dispatcher.Tape DispatcherExamples.rx_tape] (Some [0%nat]) tt
    = Raises (Dispatcher.transform_error msg).
Proof.
  refine (proj1 (circuits_need_a_tape_transform Returns tt DispatcherExamples.count_wires
                   [] (Some [0%nat]) tt _) DispatcherExamples.rx_tape).
  intros given [= <-]. eexists. reflexivity.
Defined.

(** ** Equality up to a factor *)

Lemma forallb2_map_map {X Y} (g : Y -> Y -> bool) (f1 f2 : X -> Y) (l : list X) :
  (forall x, g (f1 x) (f2 x) = true) -> forallb2 g (map f1 l) (map f2 l) = true.
Proof. intros Hg. induction l as [|x l IH]; simpl; [done|]. by rewrite Hg, IH. Qed.

Lemma same_shape_zeros_like (M : matrix) : same_shape (zeros_like M) M = true.
Proof.
  unfold same_shape, zeros_like.
  induction M as [|row M IH]; simpl; [done|]. by rewrite length_map, Nat.eqb_refl.
Qed.

Lemma same_shape_zeros_scale (M : matrix) (u : C) :
  same_shape (zeros_like M) (mat_scale M u) = true.
Proof.
  unfold same_shape, zeros_like, mat_scale. apply forallb2_map_map.
  intros row. rewrite !length_map. apply Nat.eqb_refl.
Qed.

Lemma entry_zeros_like (M : matrix) (idx : nat * nat) :
  entry (zeros_like M) idx = (fun _ => C0) <$> entry M idx.
Proof.
  unfold entry, zeros_like, matrix in *. rewrite lookup_map.
  destruct (M !! idx.1) as [row|]; simpl; [|done].
  by rewrite lookup_map.
Qed.

(** A product with the quotient of zero is zero. *)
Lemma times_zero_quotient (x b : C) :
  let y := Cmul x (Cdiv C0 b) in
  (re C0 == re y)%Q /\ (im C0 == im y)%Q.
Proof.
  destruct x as [xr xi], b as [br bi].
  unfold Cmul, Cdiv, Cnorm2, C0, Qdiv; cbn [re im]. split; ring.
Qed.

(** X8. [equal_up_to_phase] does not look at the modulus of the factor it
    computes: for a non-negative tolerance and a matrix [M] with an entry that
    does not round to zero at ten decimals, the zero matrix of the shape of
    [M] is reported as equal to [M] up to a phase.  (The factor is the
    quotient of a zero entry by a nonzero one, and every product with it is
    zero.) *)
Theorem equal_up_to_phase_accepts_the_zero_matrix (M : matrix) (atol : Q)
    (idx : nat * nat) :
  (0 <= atol)%Q ->
  first_where (round_nonzero 10) M 0 = Some idx ->
  equal_up_to_phase (zeros_like M) M atol = Returns true.
Proof.
  intros Ha Hidx. unfold equal_up_to_phase.
  destruct (allclose 0 atol (zeros_like M) M) as [[|]|e] eqn:Hclose; cbn [outcome_bind].
  - done.
  - rewrite Hidx.
    apply first_where_spec in Hidx as (b & Hb & _ & _).
    rewrite Nat.sub_0_r in Hb. replace (idx.1, idx.2) with idx in Hb by by destruct idx.
    rewrite entry_zeros_like, Hb. simpl.
    unfold allclose. rewrite same_shape_zeros_scale. f_equal.
    unfold zeros_like, mat_scale. apply forallb2_map_map. intros row.
    apply forallb2_map_map. intros x.
    destruct (times_zero_quotient x b) as [Hr Hi]. by apply isclose_same_value.
  - unfold allclose in Hclose. by rewrite same_shape_zeros_like in Hclose.
Qed.

Lemma equal_up_to_phase_accepts_the_zero_matrix_witness :
  equal_up_to_phase (zeros_like Examples.identity2) Examples.identity2
    phase_default_atol = Returns true.
Proof.
  apply (equal_up_to_phase_accepts_the_zero_matrix Examples.identity2
           phase_default_atol (0, 0)%nat); [done|reflexivity].
Defined.

(** ** Diagonal matrices *)

Lemma forallb2_lookup {X Y} (f : X -> Y -> bool) (l : list X) (l' : list Y) :
  forallb2 f l l' = true
  <-> length l = length l'
      /\ forall i a b, l !! i = Some a -> l' !! i = Some b -> f a b = true.
Proof.
  revert l'. induction l as [|x l IH]; intros [|y l']; simpl;
    try (split; [done|intros [? _]; done]).
  rewrite andb_true_iff, IH. split.
  - intros [Hf [Hlen Hall]]. split; [by rewrite Hlen|].
    intros [|i] a b; simpl; [by intros [= <-] [= <-]|]. apply Hall.
  - intros [Hlen Hall]. split; [exact (Hall 0%nat x y eq_refl eq_refl)|].
    split; [by injection Hlen|]. intros i a b. apply (Hall (S i)).
Qed.

Lemma isclose_zero (rtol atol : Q) (x : C) :
  (0 <= atol)%Q ->
  isclose rtol atol x C0 = true <-> (Cnorm2 x <= atol * atol)%Q.
Proof.
  intros Ha. unfold isclose, sqrt_le_affine.
  apply Qle_bool_iff in Ha as Ha'. rewrite Ha'.
  rewrite orb_true_iff, !Qle_bool_iff.
  unfold Cnorm2, Csub, C0. cbn [re im].
  set (d := (_ - _ - _)%Q).
  assert (d == re x * re x + im x * im x - atol * atol)%Q as Hd by (unfold d; ring).
  split.
  - intros [H|H]; [nra|].
    assert (d * d <= 0)%Q as H0 by nra.
    destruct (Qlt_le_dec 0 d) as [Hpos|Hneg]; nra.
  - intros H. left. nra.
Qed.

Lemma stretch_length {X} (l : list X) : stretch (length l) l = l.
Proof. by destruct l as [|x [|y l]]. Qed.

Lemma is_rect_row (m : matrix) (i : nat) (row : list C) :
  is_rect m = true -> m !! i = Some row -> length row = shape1 m.
Proof.
  unfold is_rect. rewrite forallb_forall. intros Hall Hrow.
  apply Nat.eqb_eq, Hall. apply list_elem_of_In. by eapply list_elem_of_lookup_2.
Qed.

(** Broadcasting an array to its own shape leaves it as it is. *)
Lemma broadcast_to_own_shape (m : matrix) :
  is_rect m = true -> broadcast_to (shape0 m) (shape1 m) m = m.
Proof.
  intros Hrect. unfold broadcast_to, shape0.
  assert (map (stretch (shape1 m)) m = m) as ->.
  { apply list_eq. intros i. unfold matrix in *. rewrite lookup_map.
    destruct (m !! i) as [row|] eqn:Hrow; simpl; [|done].
    by rewrite <- (is_rect_row m i row Hrect Hrow), stretch_length. }
  apply stretch_length.
Qed.

Lemma omap_seq_total {X} (f : nat -> option X) (a k : nat) :
  (forall i, (i < k)%nat -> is_Some (f (a + i)%nat)) ->
  length (omap f (seq a k)) = k
  /\ forall i, (i < k)%nat -> omap f (seq a k) !! i = f (a + i)%nat.
Proof.
  revert a. induction k as [|k IH]; intros a Hf; [split; [done|lia]|].
  destruct (Hf 0%nat ltac:(lia)) as [x Hx]. rewrite Nat.add_0_r in Hx.
  destruct (IH (S a)) as [Hlen Hlook].
  { intros i Hi. replace (S a + i)%nat with (a + S i)%nat by lia. apply Hf. lia. }
  cbn [seq]. change (omap f (a :: seq (S a) k))
    with (match f a with Some y => y :: omap f (seq (S a) k) | None => omap f (seq (S a) k) end).
  rewrite Hx. split; [simpl; by rewrite Hlen|].
  intros [|i] Hi; simpl; [by rewrite Nat.add_0_r|].
  rewrite Hlook by lia. f_equal. lia.
Qed.

(** The diagonal of a square array. *)
Lemma diag_of_square (m : matrix) :
  is_rect m = true -> shape0 m = shape1 m ->
  length (diag_of m) = shape0 m
  /\ forall i, (i < shape0 m)%nat -> diag_of m !! i = entry m (i, i).
Proof.
  intros Hrect Hsq. unfold diag_of. rewrite <- Hsq, Nat.min_id.
  apply (omap_seq_total (fun i => entry m (i, i)) 0).
  intros i Hi. simpl. unfold entry. simpl. unfold shape0 in *.
  destruct (lookup_lt_is_Some_2 m i Hi) as [row Hrow]. unfold matrix in *. rewrite Hrow. simpl.
  apply lookup_lt_is_Some_2. rewrite (is_rect_row m i row Hrect Hrow). lia.
Qed.

Lemma length_diag_matrix (v : list C) : length (diag_matrix v) = length v.
Proof. unfold diag_matrix. by rewrite length_imap. Qed.

Lemma shape1_diag_matrix (v : list C) : shape1 (diag_matrix v) = length v.
Proof.
  unfold shape1, diag_matrix. destruct v as [|x v]; [done|]. simpl.
  by rewrite length_imap.
Qed.

Lemma is_rect_diag_matrix (v : list C) : is_rect (diag_matrix v) = true.
Proof.
  unfold is_rect. apply forallb_forall. intros row Hrow.
  apply list_elem_of_In, list_elem_of_lookup in Hrow as [i Hrow].
  assert (forall r, diag_matrix v !! i = Some r -> length r = length v) as Hlen.
  { intros r. unfold diag_matrix, matrix. rewrite list_lookup_imap.
    destruct (v !! i); simpl; [|done]. intros [= <-]. by rewrite length_imap. }
  apply Nat.eqb_eq. by rewrite (Hlen _ Hrow), shape1_diag_matrix.
Qed.

(** On a square array the subtraction of the diagonal part needs no
    broadcasting. *)
Lemma matrix_sub_diag_square (m : matrix) :
  is_rect m = true -> shape0 m = shape1 m ->
  matrix_sub m (diag_matrix (diag_of m))
  = Returns (zip_with (zip_with Csub) m (diag_matrix (diag_of m))).
Proof.
  intros Hrect Hsq. destruct (diag_of_square m Hrect Hsq) as [Hlen _].
  unfold matrix_sub, broadcast.
  assert (shape0 (diag_matrix (diag_of m)) = shape0 m) as Hs0
    by (unfold shape0 at 1; by rewrite length_diag_matrix).
  assert (shape1 (diag_matrix (diag_of m)) = shape1 m) as Hs1
    by (rewrite shape1_diag_matrix; congruence).
  rewrite Hs0, Hs1. unfold broadcast_axis. rewrite !Nat.eqb_refl. cbn [outcome_bind fst snd].
  rewrite (broadcast_to_own_shape m Hrect).
  rewrite <- Hs0 at 1. rewrite <- Hs1.
  by rewrite (broadcast_to_own_shape _ (is_rect_diag_matrix _)).
Qed.

Lemma entry_diag_matrix (v : list C) (i j : nat) :
  entry (diag_matrix v) (i, j)
  = (_ ← v !! i; x ← v !! j; Some (if Nat.eqb i j then x else C0)).
Proof.
  unfold entry, diag_matrix, matrix. simpl. rewrite list_lookup_imap.
  destruct (v !! i); simpl; [|done]. rewrite list_lookup_imap.
  by destruct (v !! j).
Qed.

Lemma Cnorm2_sub_zero (c : C) : (Cnorm2 (Csub c C0) == Cnorm2 c)%Q.
Proof. unfold Cnorm2, Csub, C0. cbn [re im]. ring. Qed.

Lemma Cnorm2_sub_self (c : C) : (Cnorm2 (Csub c c) == 0)%Q.
Proof. unfold Cnorm2, Csub. cbn [re im]. ring. Qed.

(** X9. On a square matrix [is_diagonal] returns, and it returns [True]
    exactly when every entry off the diagonal has a modulus of at most 1e-8,
    the absolute tolerance of [numpy.allclose]; the entries on the diagonal
    play no role. *)
Theorem is_diagonal_off_diagonal_entries (m : matrix) :
  is_rect m = true ->
  shape0 m = shape1 m ->
  exists b,
    is_diagonal m = Returns b
    /\ (b = true <->
        forall i j c, i <> j -> entry m (i, j) = Some c ->
          (Cnorm2 c <= default_atol * default_atol)%Q).
Proof.
  intros Hrect Hsq. unfold is_diagonal.
  rewrite (matrix_sub_diag_square m Hrect Hsq). cbn [outcome_bind].
  destruct (diag_of_square m Hrect Hsq) as [Hdlen Hdiag].
  set (d := diag_matrix (diag_of m)).
  assert (forall i j c, entry m (i, j) = Some c ->
            entry d (i, j) = Some (if Nat.eqb i j then c else C0)) as Hd.
  { intros i j c Hc. unfold d. rewrite entry_diag_matrix.
    unfold entry in Hc. simpl in Hc.
    destruct (m !! i) as [row|] eqn:Hrow; simpl in Hc; [|done].
    assert (i < shape0 m)%nat as Hi by (by eapply lookup_lt_Some).
    assert (j < shape0 m)%nat as Hj.
    { rewrite Hsq, <- (is_rect_row m i row Hrect Hrow). by eapply lookup_lt_Some. }
    rewrite (Hdiag i Hi), (Hdiag j Hj).
    destruct (entry m (i, i)) as [ci|] eqn:Hci.
    2:{ destruct (lookup_lt_is_Some_2 (diag_of m) i) as [x Hx]; [lia|].
        rewrite (Hdiag i Hi), Hci in Hx. done. }
    destruct (entry m (j, j)) as [cj|] eqn:Hcj.
    2:{ destruct (lookup_lt_is_Some_2 (diag_of m) j) as [x Hx]; [lia|].
        rewrite (Hdiag j Hj), Hcj in Hx. done. }
    simpl. destruct (Nat.eqb i j) eqn:Hij; [|done].
    apply Nat.eqb_eq in Hij. subst j. unfold entry in Hcj. simpl in Hcj.
    unfold matrix in *. rewrite Hrow in Hcj. simpl in Hcj. congruence. }
  assert (forall i row, m !! i = Some row ->
            exists drow, d !! i = Some drow /\ length drow = length row) as Hrows.
  { intros i row Hrow. unfold d, diag_matrix, matrix. rewrite list_lookup_imap.
    assert (i < shape0 m)%nat as Hi by (by eapply lookup_lt_Some).
    destruct (lookup_lt_is_Some_2 (diag_of m) i) as [x Hx]; [lia|].
    rewrite Hx. simpl. eexists. split; [done|].
    rewrite length_imap, Hdlen, Hsq. symmetry. by eapply is_rect_row. }
  assert (length d = length m) as Hdl by (unfold d; by rewrite length_diag_matrix, Hdlen).
  set (off := zip_with (zip_with Csub) m d).
  assert (same_shape off (zeros_like m) = true) as Hshape.
  { unfold same_shape. apply forallb2_lookup. unfold off, zeros_like, matrix in *.
    split; [rewrite length_zip_with, length_map; lia|].
    intros i a b. rewrite lookup_zip_with, lookup_map.
    destruct (m !! i) as [row|] eqn:Hrow; simpl; [|done].
    destruct (Hrows i row Hrow) as (drow & -> & Hlen). simpl.
    intros [= <-] [= <-]. rewrite length_zip_with, length_map, Hlen.
    apply Nat.eqb_eq. lia. }
  unfold allclose. rewrite Hshape. eexists. split; [reflexivity|].
  assert (0 <= default_atol)%Q as Ha by done.
  rewrite forallb2_lookup. split.
  - intros [_ Hall] i j c Hij Hc.
    pose proof (Hd i j c Hc) as Hdc.
    unfold entry in Hc, Hdc. simpl in Hc, Hdc.
    destruct (m !! i) as [row|] eqn:Hrow; simpl in Hc; [|done].
    destruct (d !! i) as [drow|] eqn:Hdrow; simpl in Hdc; [|done].
    specialize (Hall i (zip_with Csub row drow) (map (fun _ => C0) row)).
    unfold off, zeros_like, matrix in *.
    rewrite lookup_zip_with, lookup_map, Hrow, Hdrow in Hall.
    specialize (Hall eq_refl eq_refl).
    apply forallb2_lookup in Hall as [_ Hall].
    apply Nat.eqb_neq in Hij. rewrite Hij in Hdc.
    specialize (Hall j (Csub c C0) C0).
    rewrite lookup_zip_with, lookup_map, Hc, Hdc in Hall.
    specialize (Hall eq_refl eq_refl).
    apply (isclose_zero default_rtol default_atol _ Ha) in Hall.
    by rewrite Cnorm2_sub_zero in Hall.
  - intros Hall. unfold off, zeros_like, matrix in *.
    split; [rewrite length_zip_with, length_map; lia|].
    intros i a b. rewrite lookup_zip_with, lookup_map.
    destruct (m !! i) as [row|] eqn:Hrow; simpl; [|done].
    destruct (Hrows i row Hrow) as (drow & Hdrow & Hlen). rewrite Hdrow. simpl.
    intros [= <-] [= <-]. apply forallb2_lookup.
    split; [rewrite length_zip_with, length_map; lia|].
    intros j a b. rewrite lookup_zip_with, lookup_map.
    destruct (row !! j) as [c|] eqn:Hc; simpl; [|done].
    assert (entry m (i, j) = Some c) as Hentry.
    { unfold entry. simpl. unfold matrix in *. by rewrite Hrow. }
    pose proof (Hd i j c Hentry) as Hdc. unfold entry in Hdc. simpl in Hdc.
    unfold matrix in *. rewrite Hdrow in Hdc. simpl in Hdc. rewrite Hdc. simpl.
    intros [= <-] [= <-]. apply (isclose_zero default_rtol default_atol _ Ha).
    destruct (Nat.eqb i j) eqn:Hij.
    + rewrite Cnorm2_sub_self. unfold default_atol. nra.
    + rewrite Cnorm2_sub_zero. apply Nat.eqb_neq in Hij. by apply (Hall i j c Hij).
Qed.

Lemma is_diagonal_off_diagonal_entries_witness :
  exists b,
    is_diagonal pauli_z = Returns b
    /\ (b = true <->
        forall i j c, i <> j -> entry pauli_z (i, j) = Some c ->
          (Cnorm2 c <= default_atol * default_atol)%Q).
Proof. exact (is_diagonal_off_diagonal_entries pauli_z eq_refl eq_refl). Defined.

(** ** The shape of a matrix *)

Lemma print__trace (m : pmsg) (lvl : level) (s : state) (t : Tmp) :
  tmp (self s) = Some t ->
  (print_ m (Some lvl) s).2 = [Emitted (checked_key (tmp_op t)) lvl m].
Proof.
  intros Ht. unfold print_, output_append. rewrite Ht. simpl.
  repeat case_match; simplify_eq; done.
Qed.

(** X10. The shape check of a square matrix takes the integer part of the
    base-2 logarithm of its dimension: for an operation on [n] wires a matrix
    of any dimension [d] with [2^n <= d < 2^(n+1)] passes without a message,
    also when [d] is no power of two, and for every other dimension exactly
    one error is reported. *)
Theorem check_matrix_shape_takes_floor_log2 (B : Backend) (op : OpClass) (m : matrix)
    (n : nat) (s : state) (t : Tmp) :
  tmp (self s) = Some t ->
  num_wires op = WiresInt n ->
  shape0 m = shape1 m ->
  (0 < shape0 m)%nat ->
  ((2 ^ n <= shape0 m < 2 ^ S n)%nat ->
     run B (_check_matrix_shape (VArray m) op) s = (Returns tt, s, []))
  /\ (~ (2 ^ n <= shape0 m < 2 ^ S n)%nat ->
      (run B (_check_matrix_shape (VArray m) op) s).2
      = [Emitted (checked_key (tmp_op t)) LError
           (MStr ("The operation " +:+ cls_repr op +:+ " defines a matrix for "
                  +:+ pretty (Nat.log2 (shape0 m)) +:+ " wires but is defined to have "
                  +:+ pretty n +:+ " wires."))]).
Proof.
  intros Ht Hw Hsq Hpos.
  assert (Nat.log2 (shape0 m) = n <-> (2 ^ n <= shape0 m < 2 ^ S n)%nat) as Hlog.
  { split.
    - intros <-. by apply Nat.log2_spec.
    - intros H. by apply Nat.log2_unique; [lia|]. }
  unfold _check_matrix_shape. rewrite <- Hsq, Nat.eqb_refl, Hw. simpl.
  destruct (shape0 m) as [|d] eqn:Hd; [lia|]. rewrite andb_true_r.
  split.
  - intros H%Hlog. rewrite H, Nat.eqb_refl. reflexivity.
  - intros H. destruct (Nat.eqb (Nat.log2 (S d)) n) eqn:E.
    + apply Nat.eqb_eq in E. by apply Hlog in E.
    + simpl. pose proof (print__trace
        (MStr ("The operation " +:+ cls_repr op +:+ " defines a matrix for "
               +:+ pretty (Nat.log2 (S d)) +:+ " wires but is defined to have "
               +:+ pretty n +:+ " wires.")) LError s t Ht) as Hp.
      destruct (print_ _ _ _) as [[[[]|e] s1] tr1]; simpl in *; subst tr1; by rewrite ?app_nil_r.
Qed.

Lemma check_matrix_shape_takes_floor_log2_witness :
  run Examples.null_backend (_check_matrix_shape (VArray (eye 3)) Examples.Plain) plain_session
  = (Returns tt, plain_session, []).
Proof.
  refine (proj1 (check_matrix_shape_takes_floor_log2 Examples.null_backend Examples.Plain
                   (eye 3) 1 plain_session _ eq_refl eq_refl eq_refl _) _);
    [simpl; lia|simpl; lia].
Defined.

(** ** Seeds *)

Section Seeded.
Context (B : Backend).

Lemma session_seeded (x : checked * option pvalue * option Wires) (c : OperationChecker)
    (z r1 r2 : Z) (out : list string) :
  seed c = Some z ->
  session B x (mkState c r1 out) = session B x (mkState c r2 out).
Proof.
  intros Hz. destruct x as [[op_ parameters_] wires_]. unfold session.
  assert (run B (check_single_operation B op_ parameters_ wires_)
            (start_session op_ (mkState c r1 out))
          = run B (check_single_operation B op_ parameters_ wires_)
              (start_session op_ (mkState c r2 out))) as ->; [|done].
  unfold check_single_operation. rewrite !run_bind, !run_do. simpl. rewrite Hz.
  rewrite !run_bind, !run_do. simpl. reflexivity.
Qed.

Lemma sessions_seeded (l : list (checked * option pvalue * option Wires))
    (c : OperationChecker) (z r1 r2 : Z) (out : list string) :
  seed c = Some z ->
  (sessions B l (mkState c r1 out)).1.1 = (sessions B l (mkState c r2 out)).1.1
  /\ (sessions B l (mkState c r1 out)).2 = (sessions B l (mkState c r2 out)).2
  /\ self (sessions B l (mkState c r1 out)).1.2 = self (sessions B l (mkState c r2 out)).1.2.
Proof.
  intros Hz. destruct l as [|x l]; simpl; [done|].
  rewrite (session_seeded x c z r1 r2 out Hz). done.
Qed.

(** X11. With a seed, a call does not depend on the state of the random
    source it starts from: the random source is seeded anew at the beginning
    of the check of every operation, so the outcome of the call and the
    messages of every session are the same for any two initial states of the
    random source. *)
Theorem seeded_call_ignores_random_state (args : call_args) (z : Z) (c : OperationChecker)
    (r1 r2 : Z) (out : list string) :
  (__call__ B args (Some z) (mkState c r1 out)).1.1
  = (__call__ B args (Some z) (mkState c r2 out)).1.1
  /\ (__call__ B args (Some z) (mkState c r1 out)).2
     = (__call__ B args (Some z) (mkState c r2 out)).2.
Proof.
  unfold __call__. destruct (normalise args) as [[op todo]|e]; [|done].
  unfold prepare, with_self. simpl.
  match goal with |- context [sessions B todo (mkState ?c' r1 out)] =>
    destruct (sessions_seeded todo c' z r1 r2 out eq_refl) as (H1 & H2 & H3);
    destruct (sessions B todo (mkState c' r1 out)) as [[o1 s1] ts1];
    destruct (sessions B todo (mkState c' r2 out)) as [[o2 s2] ts2]
  end.
  simpl in *. subst. rewrite H3. destruct o2; done.
Qed.
End Seeded.

(** ** Broadcasting *)

Lemma zip3_replicate {X Y Z} (xs : list X) (y : Y) (z : Z) :
  zip3 xs (replicate (length xs) y) (replicate (length xs) z) = (fun x => (x, y, z)) <$> xs.
Proof. unfold zip3. induction xs as [|x xs IH]; csimpl; [done|]. by rewrite IH. Qed.

(** X12. Broadcasting: for a sequence of operations, parameters that are
    absent or a sequence that starts with a number, and wires that are absent
    or one [Wires] object, are handed unchanged to the check of every
    operation, in the order of the operations. *)
Theorem call_shares_parameters_and_wires (op : list checked) (q : Q) (l : list pvalue)
    (wires : option Wires) :
  normalise (CallSeq op None (WiresObject <$> wires))
  = Returns (op, (fun op_ => (op_, None, wires)) <$> op)
  /\ normalise (CallSeq op (Some (PSeq (PNum q :: l))) (WiresObject <$> wires))
     = Returns (op, (fun op_ => (op_, Some (PSeq (PNum q :: l)), wires)) <$> op).
Proof.
  unfold normalise, broadcast_parameters, broadcast_wires.
  destruct wires as [w|]; simpl; by rewrite !zip3_replicate.
Qed.

(** X13. Wires that are not one [Wires] object are taken as one entry per
    operation.  When their number differs from the number of operations (the
    parameters being absent or shared), the call ends in an [AssertionError]
    before anything is checked: no session is started and the checker is left
    as it was. *)
Theorem call_asserts_one_wires_entry_per_operation (B : Backend) (op : list checked)
    (ws : list (option Wires)) (parameters : option pvalue) (seed : option Z) (s : state) :
  length ws <> length op ->
  parameters = None \/ (exists q l, parameters = Some (PSeq (PNum q :: l))) ->
  __call__ B (CallSeq op parameters (Some (WiresPerOp ws))) seed s
  = (Raises assertion_error, s, []).
Proof.
  intros Hlen Hp. unfold __call__, normalise, broadcast_wires.
  apply Nat.eqb_neq in Hlen.
  destruct Hp as [->|(q & l & ->)]; unfold broadcast_parameters;
    cbn [mbind outcome_mbind outcome_bind]; by rewrite Hlen.
Qed.

Lemma call_asserts_one_wires_entry_per_operation_witness :
  __call__ Examples.null_backend
    (CallSeq [OfClass Examples.Plain; OfClass Examples.NoWires] None
       (Some (WiresPerOp [Some [0%nat]]))) None (Examples.fresh checker0)
  = (Raises assertion_error, Examples.fresh checker0, []).
Proof.
  apply (call_asserts_one_wires_entry_per_operation Examples.null_backend
           [OfClass Examples.Plain; OfClass Examples.NoWires] [Some [0%nat]] None None
           (Examples.fresh checker0)); [simpl; lia|by left].
Defined.

(** ** Instances *)

(** X14. An instance is checked with its own parameters and wires, whatever
    the call supplies, and the wire check is run on them.  An instance whose
    number of wires equals the number its class declares therefore never
    passes: the call reports the wire mismatch as an error and ends in the
    abort signal. *)
Theorem checking_a_consistent_instance_aborts (B : Backend) (i : Instance) (c : OpClass)
    (n : nat) (parameters : option pvalue) (wires : option Wires) (sd : option Z)
    (s : state) :
  num_wires c = WiresInt n ->
  length (inst_wires i) = n ->
  exists s',
    __call__ B (CallOne (OfInstance i c) parameters wires) sd s
    = (Raises fatal, s',
       [(inst_key i,
         [Emitted (inst_key i) LError (MStr (wires_message c (inst_wires i)))])]).
Proof.
  intros Hw Hlen. subst n. unfold __call__. cbn [normalise sessions session].
  set (s0 := start_session _ _).
  assert (exists s',
            run B (check_single_operation B (OfInstance i c) parameters wires) s0
            = (Raises fatal, s',
               [Emitted (inst_key i) LError (MStr (wires_message c (inst_wires i)))]))
    as [s' Hrun].
  { unfold check_single_operation. rewrite run_bind, run_do. cbn [exec].
    assert (forall s1 : state,
              tmp (self s1) = tmp (self s0) -> well_keyed s1 ->
              exists s',
                run B (wires <- _check_wires c (Some (inst_wires i)) ;;
                       parameters <- _check_parameters c (Some (inst_parameters i)) ;;
                       _check_instantiation c parameters wires ;;
                       for_ _default_methods_to_check
                         (fun method_tuple =>
                            _check_single_method c method_tuple parameters wires) ;;
                       _check_decompositions B c parameters wires ;;
                       _check_properties B c parameters wires) s1
                = (Raises fatal, s',
                   [Emitted (inst_key i) LError (MStr (wires_message c (inst_wires i)))]))
      as Hrest.
    { intros s1 Ht Hk. rewrite run_bind. unfold _check_wires. rewrite Hw.
      cbn [neq_AnyWires eq_num_wires andb]. rewrite Nat.eqb_refl.
      rewrite run_bind, run_print.
      destruct (print__str_returns (wires_message c (inst_wires i)) LError s1 _ Ht Hk)
        as [s2 Hp].
      unfold wires_message in *. rewrite Hw in *. cbn [num_wires_repr] in *.
      rewrite Hp. simpl. by eexists. }
    destruct (seed (self s0)) as [z|] eqn:Hz.
    - rewrite run_bind, run_do. cbn [exec].
      destruct (Hrest (mkState (self s0) (rng_seed B z) (stdout s0)) eq_refl
                  (start_session_keyed _ _)) as [s' Hs'].
      simpl in *. rewrite Hs'. by eexists.
    - rewrite run_bind. cbn [run].
      destruct (Hrest s0 eq_refl (start_session_keyed _ _)) as [s' Hs'].
      simpl in *. rewrite Hs'. by eexists. }
  rewrite Hrun. by eexists.
Qed.

Lemma checking_a_consistent_instance_aborts_witness :
  exists s',
    __call__ Examples.null_backend (CallOne (OfInstance plain_instance Examples.Plain) None None)
      None (Examples.fresh checker0)
    = (Raises fatal, s',
       [(1%positive,
         [Emitted 1 LError (MStr (wires_message Examples.Plain [0%nat]))])]).
Proof.
  exact (checking_a_consistent_instance_aborts Examples.null_backend plain_instance
           Examples.Plain 1 None None None (Examples.fresh checker0) eq_refl eq_refl).
Defined.

(** ** Instantiation with an unknown number of parameters *)

Lemma print__str_spec (text : string) (lvl : level) (s : state) (t : Tmp) :
  tmp (self s) = Some t ->
  well_keyed s ->
  exists s' t',
    print_ (MStr text) (Some lvl) s = (Returns tt, s', [Emitted (checked_key (tmp_op t)) lvl (MStr text)])
    /\ tmp (self s') = Some t'
    /\ tmp_core t' = tmp_core (set_res (Nat.min (res t) (verbosity_levels lvl)) t)
    /\ well_keyed s'
    /\ same_config s s'.
Proof.
  intros Ht Hk.
  destruct (print__spec (MStr text) lvl s t Ht Hk) as (s' & t' & H & Ht' & Hc & Hk' & Hrest).
  exists s', t'. rewrite H. unfold crashes. simpl. rewrite andb_false_r.
  repeat split; try done; apply Hrest.
Qed.

Lemma foldl_try_instantiate (op : OpClass) (wires : Wires) (pars : list (list pvalue))
    (acc : list nat) :
  foldl (try_instantiate op wires) acc (PSeq <$> pars)
  = acc ++ (length <$> List.filter (fun args => constructible op wires (PSeq args)) pars).
Proof.
  revert acc. induction pars as [|args pars IH]; intros acc; csimpl; [by rewrite app_nil_r|].
  rewrite IH. unfold try_instantiate, constructible.
  destruct (instantiate op (PSeq args) wires) as [inst|e]; csimpl; [|done].
  by rewrite <- app_assoc.
Qed.

Lemma map_outcome_py_len (pars : list (list pvalue)) :
  map_outcome py_len (PSeq <$> pars) = Returns (length <$> pars).
Proof. induction pars as [|args pars IH]; csimpl; [done|]. by rewrite IH. Qed.

(** X15. For an operation with an unknown number of parameters,
    [_check_instantiation] stores as possible numbers of parameters the
    lengths of exactly those candidates with which the operation can be
    built, in their order.  It reports an error when there is none, a hint
    when there is exactly one, and nothing when there are several. *)
Theorem check_instantiation_records_successes (B : Backend) (op : OpClass) (wires : Wires)
    (pars : list (list pvalue)) (s : state) (t : Tmp) :
  tmp (self s) = Some t ->
  num_params_known t = Some false ->
  well_keyed s ->
  exists s' t' tr,
    run B (_check_instantiation op (PSeq (PSeq <$> pars)) wires) s = (Returns tt, s', tr)
    /\ tmp (self s') = Some t'
    /\ possible_num_params t'
       = Some (length <$> List.filter (fun args => constructible op wires (PSeq args)) pars)
    /\ ev_level <$> tr
       = match List.filter (fun args => constructible op wires (PSeq args)) pars with
         | [] => [LError]
         | [_] => [LHint]
         | _ => []
         end.
Proof.
  intros Ht Hknown Hk. unfold _check_instantiation.
  rewrite run_bind, run_do. cbn [exec]. rewrite Ht, Hknown. cbn [py_iter lift bind].
  rewrite foldl_try_instantiate. cbn [app].
  set (ok := List.filter _ pars).
  rewrite run_bind.
  destruct ok as [|a [|b ok']]; rewrite ?fmap_cons, ?fmap_nil; cbn beta iota.
  - rewrite run_bind, map_outcome_py_len, run_lift. rewrite run_print.
    match goal with |- context [print_ (MStr ?text) (Some LError) s] =>
      destruct (print__str_spec text LError s t Ht Hk) as (s1 & t1 & -> & Ht1 & _) end.
    rewrite run_do. cbn [exec]. rewrite Ht1.
    eexists _, _, _. split; [reflexivity|]. simpl. done.
  - rewrite run_print.
    match goal with |- context [print_ (MStr ?text) (Some LHint) s] =>
      destruct (print__str_spec text LHint s t Ht Hk) as (s1 & t1 & -> & Ht1 & _) end.
    rewrite run_do. cbn [exec]. rewrite Ht1.
    eexists _, _, _. split; [reflexivity|]. simpl. done.
  - cbn [run]. rewrite run_do. cbn [exec]. rewrite Ht.
    eexists _, _, _. split; [reflexivity|]. simpl. done.
Qed.

Lemma check_instantiation_records_successes_witness :
  exists s' t' tr,
    run Examples.null_backend
      (_check_instantiation OneParameter (PSeq (PSeq <$> three_candidates)) [0%nat])
      one_parameter_session = (Returns tt, s', tr)
    /\ tmp (self s') = Some t'
    /\ possible_num_params t' = Some [1%nat]
    /\ ev_level <$> tr = [LHint].
Proof.
  exact (check_instantiation_records_successes Examples.null_backend OneParameter [0%nat]
           three_candidates one_parameter_session _ eq_refl eq_refl
           (ex_intro _ "" eq_refl)).
Defined.

(** ** Static methods that fail *)

Section SingleMethod.
Context (B : Backend).

Lemma triple_eta {X Y Z} (x : X * Y * Z) : (let '(a, b, c) := x in (a, b, c)) = x.
Proof. by destruct x as [[? ?] ?]. Qed.

Lemma run_try_except {A} (body : prog A) (handler : exn -> prog A) (s : state) :
  run B (try_except body handler) s =
    match run B body s with
    | (Returns b, s1, t) => (Returns b, s1, t)
    | (Raises e, s1, t) => let '(o, s2, t') := run B (handler e) s1 in (o, s2, t ++ t')
    end.
Proof.
  unfold try_except. simpl.
  destruct (run B body s) as [[[b|e] s1] t1]; [by rewrite app_nil_r|].
  destruct (run B (handler e) s1) as [[[b|e'] s2] t2]; [by rewrite app_nil_r|done].
Qed.

Lemma print__exc_spec (e : exn) (lvl : level) (s : state) (t : Tmp) :
  tmp (self s) = Some t ->
  well_keyed s ->
  exists s' t',
    print_ (MExc e) (Some lvl) s
    = (if negb (print_color (self s))
          && (bool_decide (lvl = LError) || bool_decide (lvl ∈ _verbosity (self s)))
       then Raises concat_error else Returns tt,
       s', [Emitted (checked_key (tmp_op t)) lvl (MExc e)])
    /\ tmp (self s') = Some t'
    /\ tmp_core t' = tmp_core (set_res (Nat.min (res t) (verbosity_levels lvl)) t)
    /\ well_keyed s'
    /\ same_config s s'.
Proof.
  intros Ht Hk.
  destruct (print__spec (MExc e) lvl s t Ht Hk) as (s' & t' & H & Ht' & Hc & Hk' & Hrest).
  exists s', t'. rewrite H. unfold crashes. simpl. rewrite andb_true_r.
  repeat split; try done; apply Hrest.
Qed.

Lemma tmp_core_op (t t' : Tmp) : tmp_core t' = tmp_core t -> tmp_op t' = tmp_op t.
Proof. unfold tmp_core. by intros [= -> _ _ _ _]. Qed.

(** The start of [_check_single_method] when the number of parameters is
    known and the static method raises an unexpected exception. *)
Lemma run_check_single_method_known (op : OpClass) (method : string)
    (expected_exc : exc_class) (use_wires : bool) (args : list pvalue) (wires : Wires)
    (m : list pvalue -> option Wires -> outcome value) (exc : exn) (s : state) (t : Tmp) :
  tmp (self s) = Some t ->
  num_params_known t = Some true ->
  cls_method op method = Some m ->
  m args (method_kwargs use_wires wires) = Raises exc ->
  exc_type exc <> expected_exc ->
  run B (_check_single_method op (method, expected_exc, use_wires) (PSeq args) wires) s
  = run B
      (returned <- try_except
         (_ <- lift (alternative_access op method args wires) ;;
          print (MExc exc) LComment ;;
          print (MStr (hyperparameter_message op method)) LComment ;;
          Ret true)
         (fun f => print (MExc exc) LError ;; print (MExc f) LError ;; Ret false) ;;
       if returned : bool then Ret tt
       else print (MStr (method_error_message op method)) LError) s.
Proof.
  intros Ht Hknown Hm Hexc Hne. unfold _check_single_method, getattr_class. rewrite Hm.
  cbn [fmap option_fmap option_map wrap_op_method lift bind].
  rewrite run_bind, run_do. cbn [exec]. rewrite Ht, Hknown.
  cbn [unpack lift bind fst snd]. fold (method_kwargs use_wires wires).
  rewrite Hexc. unfold wrapped_method. rewrite decide_False by done.
  etransitivity; [apply triple_eta|].
  rewrite !run_bind, !run_try_except. unfold alternative_access.
  destruct (instantiate op (PSeq args) wires) as [inst|f]; [|reflexivity].
  cbn [mbind outcome_mbind outcome_bind lift bind].
  destruct (call_method inst _) as [v|f]; reflexivity.
Qed.

(** X16. With a known number of parameters and colors on: when a static
    method raises an exception other than the expected one while the instance
    can be built and its method of the corresponding name can be called, the
    failure is reported with two comments, the exception and an explanation,
    and with nothing more severe. *)
Theorem failing_static_method_is_commented (op : OpClass) (method : string)
    (expected_exc : exc_class) (use_wires : bool) (args : list pvalue) (wires : Wires)
    (m : list pvalue -> option Wires -> outcome value) (exc : exn) (v : value)
    (s : state) (t : Tmp) :
  tmp (self s) = Some t ->
  num_params_known t = Some true ->
  well_keyed s ->
  print_color (self s) = true ->
  cls_method op method = Some m ->
  m args (method_kwargs use_wires wires) = Raises exc ->
  exc_type exc <> expected_exc ->
  alternative_access op method args wires = Returns v ->
  exists s',
    run B (_check_single_method op (method, expected_exc, use_wires) (PSeq args) wires) s
    = (Returns tt, s',
       [Emitted (checked_key (tmp_op t)) LComment (MExc exc);
        Emitted (checked_key (tmp_op t)) LComment (MStr (hyperparameter_message op method))]).
Proof.
  intros Ht Hknown Hk Hcolor Hm Hexc Hne Halt.
  rewrite (run_check_single_method_known op method expected_exc use_wires args wires m exc s t)
    by done.
  rewrite run_bind, run_try_except, Halt. cbn [lift bind]. rewrite run_bind, run_print.
  destruct (print__exc_spec exc LComment s t Ht Hk) as (s1 & t1 & -> & Ht1 & Hc1 & Hk1 & Hcf1).
  rewrite Hcolor. cbn [negb andb]. rewrite run_bind, run_print.
  destruct (print__str_spec (hyperparameter_message op method) LComment s1 t1 Ht1 Hk1)
    as (s2 & t2 & -> & _).
  rewrite (tmp_core_op _ _ Hc1). simpl. by eexists.
Qed.

(** X17. With a known number of parameters and colors on: when a static
    method raises an exception other than the expected one and the second
    access through an instance raises as well, three errors are reported, the
    two exceptions and an explanation, and the check goes on. *)
Theorem failing_static_method_is_an_error (op : OpClass) (method : string)
    (expected_exc : exc_class) (use_wires : bool) (args : list pvalue) (wires : Wires)
    (m : list pvalue -> option Wires -> outcome value) (exc f : exn)
    (s : state) (t : Tmp) :
  tmp (self s) = Some t ->
  num_params_known t = Some true ->
  well_keyed s ->
  print_color (self s) = true ->
  cls_method op method = Some m ->
  m args (method_kwargs use_wires wires) = Raises exc ->
  exc_type exc <> expected_exc ->
  alternative_access op method args wires = Raises f ->
  exists s',
    run B (_check_single_method op (method, expected_exc, use_wires) (PSeq args) wires) s
    = (Returns tt, s',
       [Emitted (checked_key (tmp_op t)) LError (MExc exc);
        Emitted (checked_key (tmp_op t)) LError (MExc f);
        Emitted (checked_key (tmp_op t)) LError (MStr (method_error_message op method))]).
Proof.
  intros Ht Hknown Hk Hcolor Hm Hexc Hne Halt.
  rewrite (run_check_single_method_known op method expected_exc use_wires args wires m exc s t)
    by done.
  rewrite run_bind, run_try_except, Halt. cbn [lift bind run]. rewrite run_bind, run_print.
  destruct (print__exc_spec exc LError s t Ht Hk) as (s1 & t1 & -> & Ht1 & Hc1 & Hk1 & Hcf1).
  rewrite Hcolor. cbn [negb andb]. rewrite run_bind, run_print.
  destruct (print__exc_spec f LError s1 t1 Ht1 Hk1) as (s2 & t2 & -> & Ht2 & Hc2 & Hk2 & Hcf2).
  destruct Hcf1 as [_ Hcol1]. rewrite Hcol1, Hcolor. cbn [negb andb run app].
  rewrite run_print.
  destruct (print__str_spec (method_error_message op method) LError s2 t2 Ht2 Hk2)
    as (s3 & t3 & -> & _).
  pose proof (tmp_core_op _ _ Hc1) as E1. pose proof (tmp_core_op _ _ Hc2) as E2.
  simpl in E1, E2. rewrite E2, E1. simpl. by eexists.
Qed.

(** X18. With colors off the report of a failing static method cannot be
    written: as soon as one of its messages is shown, because the second
    access failed as well (an error) or because comments are shown, the check
    ends in a [TypeError], that of concatenating a string and an exception
    object. *)
Theorem failing_static_method_crashes_without_color (op : OpClass) (method : string)
    (expected_exc : exc_class) (use_wires : bool) (args : list pvalue) (wires : Wires)
    (m : list pvalue -> option Wires -> outcome value) (exc : exn)
    (s : state) (t : Tmp) :
  tmp (self s) = Some t ->
  num_params_known t = Some true ->
  well_keyed s ->
  print_color (self s) = false ->
  cls_method op method = Some m ->
  m args (method_kwargs use_wires wires) = Raises exc ->
  exc_type exc <> expected_exc ->
  (exists f, alternative_access op method args wires = Raises f)
  \/ LComment ∈ _verbosity (self s) ->
  exists e s' tr,
    run B (_check_single_method op (method, expected_exc, use_wires) (PSeq args) wires) s
    = (Raises e, s', tr)
    /\ exc_type e = TypeError.
Proof.
  intros Ht Hknown Hk Hcolor Hm Hexc Hne Hshown.
  cut (exists s' tr,
         run B (_check_single_method op (method, expected_exc, use_wires) (PSeq args) wires) s
         = (Raises concat_error, s', tr)).
  { intros (s' & tr & ->). by eexists _, _, _. }
  rewrite (run_check_single_method_known op method expected_exc use_wires args wires m exc s t)
    by done.
  rewrite run_bind, run_try_except.
  assert (forall s0 t0 f, tmp (self s0) = Some t0 -> well_keyed s0 ->
            print_color (self s0) = false ->
            exists s' tr,
              run B (print (MExc exc) LError ;; print (MExc f) LError ;; Ret false) s0
              = (Raises concat_error, s', tr)) as Hhandler.
  { intros s0 t0 f Ht0 Hk0 Hc0. rewrite run_bind, run_print.
    destruct (print__exc_spec exc LError s0 t0 Ht0 Hk0) as (s1 & t1 & -> & _).
    rewrite Hc0. simpl. by eexists _, _. }
  destruct (alternative_access op method args wires) as [v|f] eqn:Halt.
  - destruct Hshown as [[f [=]]|Hshown].
    cbn [lift bind]. rewrite run_bind, run_print.
    destruct (print__exc_spec exc LComment s t Ht Hk) as (s1 & t1 & -> & Ht1 & Hc1 & Hk1 & Hcf1).
    rewrite Hcolor, (bool_decide_eq_true_2 _ Hshown), orb_true_r. cbn [negb andb orb].
    destruct Hcf1 as [_ Hcol1]. rewrite Hcolor in Hcol1. cbn beta iota.
    destruct (Hhandler s1 t1 concat_error Ht1 Hk1 Hcol1) as (s2 & tr2 & ->).
    by eexists _, _.
  - cbn [lift bind run].
    destruct (Hhandler s t f Ht Hk Hcolor) as (s2 & tr2 & ->).
    by eexists _, _.
Qed.
End SingleMethod.

Lemma failing_static_method_is_commented_witness :
  exists s',
    run Examples.null_backend
      (_check_single_method Hyper ("compute_matrix", MatrixUndefinedError, false)
         (PSeq [PNum (1 # 2)]) [0%nat]) (known_session Hyper LPass true)
    = (Returns tt, s',
       [Emitted 7 LComment (MExc Examples.boom);
        Emitted 7 LComment (MStr (hyperparameter_message Hyper "compute_matrix"))]).
Proof.
  apply (failing_static_method_is_commented Examples.null_backend Hyper "compute_matrix"
           MatrixUndefinedError false [PNum (1 # 2)] [0%nat]
           (fun _ _ => Raises Examples.boom) Examples.boom (VArray Examples.identity2)
           (known_session Hyper LPass true) _ eq_refl eq_refl);
    [by exists ""|reflexivity|reflexivity|reflexivity|discriminate|reflexivity].
Defined.

Lemma failing_static_method_is_an_error_witness :
  exists s',
    run Examples.null_backend
      (_check_single_method BrokenMatrix ("compute_matrix", MatrixUndefinedError, false)
         (PSeq [PNum (1 # 2)]) [0%nat]) (known_session BrokenMatrix LPass true)
    = (Returns tt, s',
       [Emitted 9 LError (MExc Examples.boom);
        Emitted 9 LError (MExc Examples.boom);
        Emitted 9 LError (MStr (method_error_message BrokenMatrix "compute_matrix"))]).
Proof.
  apply (failing_static_method_is_an_error Examples.null_backend BrokenMatrix "compute_matrix"
           MatrixUndefinedError false [PNum (1 # 2)] [0%nat]
           (fun _ _ => Raises Examples.boom) Examples.boom Examples.boom
           (known_session BrokenMatrix LPass true) _ eq_refl eq_refl);
    [by exists ""|reflexivity|reflexivity|reflexivity|discriminate|reflexivity].
Defined.

Lemma failing_static_method_crashes_without_color_witness :
  exists e s' tr,
    run Examples.null_backend
      (_check_single_method Hyper ("compute_matrix", MatrixUndefinedError, false)
         (PSeq [PNum (1 # 2)]) [0%nat]) (known_session Hyper LComment false)
    = (Raises e, s', tr)
    /\ exc_type e = TypeError.
Proof.
  apply (failing_static_method_crashes_without_color Examples.null_backend Hyper
           "compute_matrix" MatrixUndefinedError false [PNum (1 # 2)] [0%nat]
           (fun _ _ => Raises Examples.boom) Examples.boom
           (known_session Hyper LComment false) _ eq_refl eq_refl);
    [by exists ""|reflexivity|reflexivity|reflexivity|discriminate|].
  right. apply (bool_decide_unpack _). vm_compute. exact I.
Defined.

(** ** Static methods with an unknown number of parameters *)

Section CrossReference.
Context (B : Backend).

Lemma run_for_acc_pure {X S} (l : list X) (body : S -> X -> prog S) (step : S -> X -> S)
    (s : state) :
  (forall acc x, x ∈ l -> run B (body acc x) s = (Returns (step acc x), s, [])) ->
  forall acc, run B (for_acc l acc body) s = (Returns (foldl step acc l), s, []).
Proof.
  induction l as [|x l IH]; intros Hbody acc; simpl; [done|].
  rewrite run_bind, Hbody by apply list_elem_of_here.
  rewrite IH; [done|]. intros acc' x' Hx'. apply Hbody. by apply list_elem_of_further.
Qed.

Lemma foldl_collect_impossible (possible : list nat) (pars : list (list pvalue))
    (acc : list nat * list nat) :
  foldl (fun (acc : list nat * list nat) (par : pvalue) =>
           match par with
           | PSeq args =>
               if bool_decide (length args ∉ possible)
               then (acc.1, acc.2 ++ [length args]) else acc
           | _ => acc
           end) acc (PSeq <$> pars)
  = (acc.1, acc.2 ++ impossible_lengths possible pars).
Proof.
  revert acc. unfold impossible_lengths.
  induction pars as [|args pars IH]; intros [f0 s0]; csimpl; [by rewrite app_nil_r|].
  rewrite IH. destruct (bool_decide (length args ∉ possible)); simpl; [|done].
  by rewrite <- app_assoc.
Qed.

Lemma foldl_unchanged {X S} (l : list X) (acc : S) : foldl (fun acc _ => acc) acc l = acc.
Proof. by induction l. Qed.

(** X19. With an unknown number of parameters, a static method counts as
    working with a number of parameters when the wrapped call returns [None],
    which is what it returns when the method raises its expected exception.
    A method that is undefined for every candidate is therefore reported, in a
    comment, to work with every candidate length with which the operation
    cannot be built, while a method that returns a matrix for every candidate
    is never reported. *)
Theorem undefined_method_is_said_to_work (op : OpClass) (method : string)
    (expected_exc : exc_class) (use_wires : bool) (wires : Wires)
    (m : list pvalue -> option Wires -> outcome value) (pars : list (list pvalue))
    (s : state) (t : Tmp) (possible : list nat) :
  tmp (self s) = Some t ->
  num_params_known t = Some false ->
  possible_num_params t = Some possible ->
  cls_method op method = Some m ->
  ((forall args, args ∈ pars ->
      exists e, m args (method_kwargs use_wires wires) = Raises e
                /\ exc_type e = expected_exc) ->
   run B (_check_single_method op (method, expected_exc, use_wires)
            (PSeq (PSeq <$> pars)) wires) s
   = match impossible_lengths possible pars with
     | [] => (Returns tt, s, [])
     | nums => print_ (MStr (works_message op method nums)) (Some LComment) s
     end)
  /\ ((forall args, args ∈ pars ->
         exists mat, m args (method_kwargs use_wires wires) = Returns (VArray mat)) ->
      run B (_check_single_method op (method, expected_exc, use_wires)
               (PSeq (PSeq <$> pars)) wires) s
      = (Returns tt, s, [])).
Proof.
  intros Ht Hknown Hposs Hm.
  assert (exec B Cget_possible_num_params s = (Returns possible, s, [])) as Hget.
  { simpl. by rewrite Ht, Hposs. }
  split; intros Hall;
    unfold _check_single_method, getattr_class; rewrite Hm;
    cbn [fmap option_fmap option_map wrap_op_method lift bind];
    rewrite run_bind, run_do; cbn [exec]; rewrite Ht, Hknown;
    cbn [py_iter lift bind fst snd]; fold (method_kwargs use_wires wires);
    rewrite run_bind.
  - erewrite (run_for_acc_pure (PSeq <$> pars) _
                (fun (acc : list nat * list nat) (par : pvalue) =>
                   match par with
                   | PSeq args =>
                       if bool_decide (length args ∉ possible)
                       then (acc.1, acc.2 ++ [length args]) else acc
                   | _ => acc
                   end)).
    2:{ intros [f0 s0] par (args & -> & Hargs)%list_elem_of_fmap.
        destruct (Hall args Hargs) as (e & He & Hexp).
        cbn [unpack py_len lift bind]. rewrite He. unfold wrapped_method.
        rewrite decide_True by done. cbn [is_None].
        rewrite run_bind, run_do, Hget.
        by destruct (bool_decide (length args ∉ possible)). }
    rewrite foldl_collect_impossible. cbn [fst snd app run].
    destruct (impossible_lengths possible pars) as [|n nums]; [reflexivity|].
    cbn [bind]. rewrite run_print. unfold works_message.
    by destruct (print_ _ _ _) as [[? ?] ?].
  - erewrite (run_for_acc_pure (PSeq <$> pars) _ (fun acc _ => acc)).
    2:{ intros [f0 s0] par (args & -> & Hargs)%list_elem_of_fmap.
        destruct (Hall args Hargs) as (mat & Hmat).
        cbn [unpack py_len lift bind]. rewrite Hmat. reflexivity. }
    rewrite foldl_unchanged. reflexivity.
Qed.
End CrossReference.

Lemma undefined_method_is_said_to_work_witness :
  run Examples.null_backend
    (_check_single_method OneParameter ("compute_matrix", MatrixUndefinedError, false)
       (PSeq (PSeq <$> three_candidates)) [0%nat]) one_parameter_checked
  = print_ (MStr (works_message OneParameter "compute_matrix" [0; 2]%nat)) (Some LComment)
      one_parameter_checked.
Proof.
  refine (proj1 (undefined_method_is_said_to_work Examples.null_backend OneParameter
                   "compute_matrix" MatrixUndefinedError false [0%nat]
                   (fun _ _ => Examples.undefined MatrixUndefinedError) three_candidates
                   one_parameter_checked _ [1%nat] eq_refl eq_refl eq_refl eq_refl) _).
  intros args _. eexists. split; reflexivity.
Defined.

(** ** Invariants of programs by the commands they run *)

Lemma only_bind (P : forall X, cmd X -> Prop) {A A'} (p : prog A) (k : A -> prog A') :
  only P p -> (forall a, only P (k a)) -> only P (bind p k).
Proof.
  intros Hp Hk. induction p as [A a|A e|A X c k' IH|A A0 body IHb handler IHh k' IHk]; simpl in *.
  - apply Hk.
  - done.
  - destruct Hp as [Hc Hp]. split; [done|]. intros x. by apply IH.
  - destruct Hp as (Hb & Hh & Hp). repeat split; [done..|]. intros b. by apply IHk.
Qed.

Lemma only_lift (P : forall X, cmd X -> Prop) {A} (o : outcome A) : only P (lift o).
Proof. by destruct o. Qed.

Lemma only_do (P : forall X, cmd X -> Prop) {X} (c : cmd X) : P X c -> only P (do_ c).
Proof. intros Hc. by split. Qed.

Lemma only_for (P : forall X, cmd X -> Prop) {X} (l : list X) (body : X -> prog unit) :
  (forall x, only P (body x)) -> only P (for_ l body).
Proof.
  intros Hb. induction l as [|x l IH]; simpl; [done|]. apply only_bind; [apply Hb|done].
Qed.

Lemma only_for_acc (P : forall X, cmd X -> Prop) {X S} (l : list X) (acc : S)
    (body : S -> X -> prog S) :
  (forall acc x, only P (body acc x)) -> only P (for_acc l acc body).
Proof.
  intros Hb. revert acc. induction l as [|x l IH]; intros acc; simpl; [done|].
  apply only_bind; [apply Hb|done].
Qed.

Lemma only_try (P : forall X, cmd X -> Prop) {A} (body : prog A) (handler : exn -> prog A) :
  only P body -> (forall e, only P (handler e)) -> only P (try_except body handler).
Proof. intros Hb Hh. by repeat split. Qed.

Ltac only_tac :=
  repeat first
    [ apply only_lift | apply only_do; simpl; try done
    | apply only_bind; [|intros ?]
    | apply only_for; intros ?
    | apply only_for_acc; intros ? ?
    | apply only_try; [|intros ?]
    | match goal with
      | |- only _ (Ret _) => exact I
      | |- only _ (Throw _) => exact I
      | |- only _ (match ?x with _ => _ end) => destruct x
      | |- only _ (if ?b then _ else _) => destruct b
      | |- only _ (let '(_, _) := ?x in _) => destruct x
      end ].

Section Only.
Context (B : Backend).
Context (P : forall X, cmd X -> Prop) (R : state -> state -> list event -> Prop).
Hypothesis R_refl : forall s, R s s [].
Hypothesis R_trans : forall s1 s2 s3 t1 t2, R s1 s2 t1 -> R s2 s3 t2 -> R s1 s3 (t1 ++ t2).
Hypothesis R_exec : forall X (c : cmd X) s o s' tr, P X c -> exec B c s = (o, s', tr) -> R s s' tr.

(** A relation between the states before and after, and the messages, that
    holds for the commands of a program holds for the program. *)
Lemma run_only {A} (p : prog A) (s : state) o s' tr :
  only P p -> run B p s = (o, s', tr) -> R s s' tr.
Proof.
  revert s o s' tr.
  induction p as [A a|A e|A X c k IH|A A0 body IHb handler IHh k IHk];
    intros s o s' tr Hp; simpl in *.
  - by intros [= <- <- <-].
  - by intros [= <- <- <-].
  - destruct Hp as [Hc Hp].
    destruct (exec B c s) as [[[x|e] s1] t1] eqn:He; apply R_exec in He; try done.
    + destruct (run B (k x) s1) as [[o2 s2] t2] eqn:Hr.
      apply IH in Hr; [|done]. intros [= <- <- <-]. by eapply R_trans.
    + by intros [= <- <- <-].
  - destruct Hp as (Hb & Hh & Hp).
    destruct (run B body s) as [[[b|e] s1] t1] eqn:Hbody; apply IHb in Hbody; try done.
    + destruct (run B (k b) s1) as [[o2 s2] t2] eqn:Hr.
      apply IHk in Hr; [|done]. intros [= <- <- <-]. by eapply R_trans.
    + destruct (run B (handler e) s1) as [[[b|e'] s2] t2] eqn:Hhandler;
        apply IHh in Hhandler; try done.
      * destruct (run B (k b) s2) as [[o3 s3] t3] eqn:Hr.
        apply IHk in Hr; [|done]. intros [= <- <- <-].
        eapply R_trans; [|done]. by eapply R_trans.
      * intros [= <- <- <-]. by eapply R_trans.
Qed.
End Only.

(** ** Operations with an unknown number of parameters *)

Section UnknownCount.
Context (B : Backend).

Lemma exec_known_kept {X} (c : cmd X) (s : state) o s' tr :
  keeps_known c -> exec B c s = (o, s', tr) -> known_kept s s' tr.
Proof.
  intros Hkeeps Hexec. destruct c; simpl in *;
    unfold tmp_missing, print_, output_append, known_kept in *; try done;
    simpl in Hexec; repeat case_match; simplify_eq; simpl;
    intros t0 Ht0; simplify_eq; eauto.
Qed.

Lemma run_known_kept {A} (p : prog A) (s : state) o s' tr :
  only (@keeps_known) p -> run B p s = (o, s', tr) -> known_kept s s' tr.
Proof.
  apply (run_only B (@keeps_known) known_kept).
  - intros s0 t Ht. eauto.
  - intros s1 s2 s3 t1 t2 H1 H2 t Ht.
    destruct (H1 t Ht) as (t' & Ht' & Hk'). destruct (H2 t' Ht') as (t'' & Ht'' & Hk'').
    exists t''. split; [done|congruence].
  - intros X c. apply exec_known_kept.
Qed.

Lemma only_check_instantiation op parameters wires :
  only (@keeps_known) (_check_instantiation op parameters wires).
Proof. unfold _check_instantiation, print. only_tac. Qed.

Lemma only_check_single_method op method_tuple parameters wires :
  only (@keeps_known) (_check_single_method op method_tuple parameters wires).
Proof.
  unfold _check_single_method, print.
  destruct method_tuple as [[method expected_exc] use_wires]. only_tac.
Qed.

Lemma run_check_wires_returns (op : OpClass) (wires : option Wires) (s s' : state) w tr :
  run B (_check_wires op wires) s = (Returns w, s', tr) -> s' = s /\ tr = [].
Proof.
  assert (forall text, run B (print (MStr text) LError ;; Throw fatal) s
                       <> (Returns w, s', tr)) as Habort.
  { intros text. rewrite run_bind, run_print.
    by destruct (print_ _ _ _) as [[[[]|e] s1] t1]. }
  unfold _check_wires.
  destruct (num_wires op) as [| |n], wires as [ws|]; cbn [neq_AnyWires eq_num_wires andb];
    try (intros H; by apply Habort in H); try (by intros [= <- <- <-]).
  destruct (Nat.eqb _ _); [intros H; by apply Habort in H|by intros [= <- <- <-]].
Qed.

Lemma run_check_parameters_unknown (op : OpClass) (s : state) (t : Tmp) :
  num_params op = ParamsProperty ->
  tmp (self s) = Some t ->
  exists l s',
    run B (_check_parameters op None) s = (Returns (PSeq l), s', [])
    /\ map py_len l = map Returns (seq 0 (max_num_params (self s)))
    /\ tmp (self s') = Some (set_num_params_known false t).
Proof.
  intros Hop Ht. unfold _check_parameters. rewrite Hop.
  rewrite run_bind, run_do. cbn [exec]. rewrite Ht.
  rewrite run_bind, run_do. cbn [exec]. rewrite run_bind.
  set (s1 := with_self _ s).
  destruct (run_draw_candidates B (seq 0 (max_num_params (self s1))) [] s1)
    as (drawn & s' & -> & Hd & Hs).
  exists drawn, s'. split; [done|]. split; [by rewrite Hd|]. by rewrite Hs.
Qed.

Lemma run_for_raises {X} (l : list X) (body : X -> prog unit) (x : X) :
  x ∈ l ->
  (forall s, exists e s' tr, run B (body x) s = (Raises e, s', tr)) ->
  forall s, exists e s' tr, run B (for_ l body) s = (Raises e, s', tr).
Proof.
  intros Hx Hbody. induction l as [|y l IH]; [by apply elem_of_nil in Hx|].
  intros s. simpl. rewrite run_bind.
  apply elem_of_cons in Hx as [<-|Hx].
  - destruct (Hbody s) as (e & s' & tr & ->). eauto.
  - destruct (run B (body y) s) as [[[[]|e] s1] t1]; [|eauto].
    destruct (IH Hx s1) as (e & s' & tr & ->). eauto.
Qed.

(** With an unknown number of parameters [_check_decompositions] builds the
    operation with every candidate, and a candidate with which it cannot be
    built ends the check. *)
Lemma run_check_decompositions_raises (op : OpClass) (pars : list pvalue) (wires : Wires)
    (par : pvalue) (s : state) (t : Tmp) :
  tmp (self s) = Some t ->
  num_params_known t = Some false ->
  par ∈ pars ->
  constructible op wires par = false ->
  exists e s' tr, run B (_check_decompositions B op (PSeq pars) wires) s = (Raises e, s', tr).
Proof.
  intros Ht Hknown Hpar Hcons. unfold _check_decompositions.
  rewrite run_bind, run_do. cbn [exec]. rewrite Ht, Hknown. cbn [py_iter lift bind].
  match goal with |- context [for_ pars ?body] =>
    destruct (run_for_raises pars body par Hpar) with (s := s) as (e & s' & tr & ->) end.
  - intros s0. unfold decomposition_methods. cbn [map_outcome].
    unfold matrix_from_single_qubit_rot_angles at 1. unfold constructible in Hcons.
    destruct (instantiate op par wires) as [inst|e]; [done|].
    cbn [mbind outcome_mbind outcome_bind lift bind run]. eauto.
  - eauto.
Qed.

Lemma candidate_of_length (l : list pvalue) (max k : nat) :
  map py_len l = map Returns (seq 0 max) ->
  (k < max)%nat ->
  exists par args, par ∈ l /\ unpack par = Returns args /\ length args = k.
Proof.
  intros Hl Hk.
  assert (Returns k ∈ map py_len l) as Hin.
  { rewrite Hl. apply list_elem_of_In, in_map, in_seq. lia. }
  apply list_elem_of_In, in_map_iff in Hin as (par & Hlen & Hpar).
  destruct par as [q|args|args]; [done| |]; injection Hlen as <-;
    eexists _, args; (split; [by apply list_elem_of_In|done]).
Qed.

(** X20. An operation class that does not declare its number of parameters
    is checked with candidates of every length below [max_num_params], and
    the check of the decompositions builds the operation with each of them.
    If the constructor refuses the candidates of one of these lengths, the
    call does not return: it ends in an exception. *)
Theorem unknown_count_needs_every_candidate_length (op : OpClass) (wires : option Wires)
    (sd : option Z) (s : state) (k : nat) :
  num_params op = ParamsProperty ->
  (k < max_num_params (self s))%nat ->
  (forall args w, length args = k -> exists e, cls_init op args w = Raises e) ->
  exists e s' ts,
    __call__ B (CallOne (OfClass op) None wires) sd s = (Raises e, s', ts).
Proof.
  intros Hop Hk Hinit. unfold __call__. cbn [normalise sessions session].
  set (s0 := start_session _ _).
  assert (max_num_params (self s0) = max_num_params (self s)) as Hmax by done.
  assert (exists t0, tmp (self s0) = Some t0) as [t0 Ht0] by by eexists.
  assert (exists e s' tr,
            run B (check_single_operation B (OfClass op) None wires) s0 = (Raises e, s', tr))
    as (e & s' & tr & ->); [|by eexists _, _, _].
  unfold check_single_operation. rewrite run_bind, run_do. cbn [exec].
  assert (forall s1 : state,
            tmp (self s1) = Some t0 -> max_num_params (self s1) = max_num_params (self s) ->
            exists e s' tr,
              run B (wires <- _check_wires op wires ;;
                     parameters <- _check_parameters op None ;;
                     _check_instantiation op parameters wires ;;
                     for_ _default_methods_to_check
                       (fun method_tuple =>
                          _check_single_method op method_tuple parameters wires) ;;
                     _check_decompositions B op parameters wires ;;
                     _check_properties B op parameters wires) s1
              = (Raises e, s', tr)) as Hrest.
  { intros s1 Ht1 Hmax1. rewrite run_bind.
    destruct (run B (_check_wires op wires) s1) as [[[w|e] s2] t2] eqn:Hw; [|eauto].
    apply run_check_wires_returns in Hw as [-> ->].
    rewrite run_bind.
    destruct (run_check_parameters_unknown op s1 t0 Hop Ht1) as (l & s3 & -> & Hl & Ht3).
    destruct (candidate_of_length l _ k Hl ltac:(by rewrite Hmax1))
      as (par & args & Hpar & Hargs & Hlen).
    rewrite run_bind.
    destruct (run B (_check_instantiation op (PSeq l) w) s3) as [[[[]|e] s4] t4] eqn:Hi;
      [|eauto].
    apply run_known_kept in Hi; [|apply only_check_instantiation].
    destruct (Hi _ Ht3) as (t4' & Ht4 & Hk4). simpl in Hk4.
    rewrite run_bind.
    destruct (run B (for_ _default_methods_to_check _) s4) as [[[[]|e] s5] t5] eqn:Hm;
      [|eauto].
    apply run_known_kept in Hm;
      [|apply only_for; intros m; apply only_check_single_method].
    destruct (Hm _ Ht4) as (t5' & Ht5 & Hk5). rewrite Hk4 in Hk5.
    rewrite run_bind.
    destruct (run_check_decompositions_raises op l w par s5 t5' Ht5 Hk5 Hpar)
      as (e & s6 & t6 & ->); [|eauto].
    unfold constructible, instantiate. rewrite Hargs.
    cbn [mbind outcome_mbind outcome_bind].
    by destruct (Hinit args w Hlen) as [e ->]. }
  destruct (seed (self s0)) as [z|] eqn:Hz.
  - rewrite run_bind, run_do. cbn [exec].
    destruct (Hrest (mkState (self s0) (rng_seed B z) (stdout s0)) Ht0 Hmax)
      as (e & s' & tr & Hs').
    cbn beta iota. rewrite Hs'. eauto.
  - rewrite run_bind. cbn [run].
    destruct (Hrest s0 Ht0 Hmax) as (e & s' & tr & Hs').
    cbn beta iota. rewrite Hs'. eauto.
Qed.
End UnknownCount.

Lemma unknown_count_needs_every_candidate_length_witness :
  exists e s' ts,
    __call__ Examples.null_backend (CallOne (OfClass OneParameter) None None) None
      (Examples.fresh checker0) = (Raises e, s', ts).
Proof.
  apply (unknown_count_needs_every_candidate_length Examples.null_backend OneParameter
           None None (Examples.fresh checker0) 0); [reflexivity|simpl; lia|].
  intros args w Hlen. destruct args; [|discriminate]. eexists. reflexivity.
Defined.

(** ** The text of an operation *)

Lemma string_app_assoc (a b c : string) : (a +:+ b) +:+ c = a +:+ (b +:+ c).
Proof.
  induction a as [|x a IH]; [done|].
  change (String x ((a +:+ b) +:+ c) = String x (a +:+ (b +:+ c))). by rewrite IH.
Qed.

Lemma string_app_nil_r (a : string) : a +:+ "" = a.
Proof.
  induction a as [|x a IH]; [done|]. change (String x (a +:+ "") = String x a). by rewrite IH.
Qed.

Lemma lines_app (c : OperationChecker) (l1 l2 : list event) :
  lines c (l1 ++ l2) = lines c l1 +:+ lines c l2.
Proof.
  unfold lines. induction l1 as [|ev l1 IH]; cbn [foldr app]; [done|].
  by rewrite IH, string_app_assoc.
Qed.

Lemma forallb_hidden_filter (c : OperationChecker) (tr : list event) :
  forallb (fun ev => negb (shown c ev)) tr
  = match List.filter (shown c) tr with [] => true | _ => false end.
Proof.
  induction tr as [|ev tr IH]; simpl; [done|]. by destruct (shown c ev).
Qed.

Lemma added_app (c : OperationChecker) (op : checked) (printed : bool) (t1 t2 : list event) :
  added c op printed (t1 ++ t2)
  = added c op printed t1
    +:+ added c op (printed || negb (forallb (fun ev => negb (shown c ev)) t1)) t2.
Proof.
  unfold added. rewrite forallb_hidden_filter, List.filter_app, lines_app.
  destruct printed; simpl.
  - done.
  - destruct (List.filter (shown c) t1) as [|e1 l1]; simpl; [done|].
    by rewrite !string_app_assoc.
Qed.

Lemma only_any {A} (p : prog A) : only any_command p.
Proof. induction p; simpl; repeat split; done. Qed.

Lemma shown_config (s s' : state) (ev : event) :
  same_config s s' -> shown (self s') ev = shown (self s) ev.
Proof. intros [Hv _]. unfold shown. by rewrite Hv. Qed.

Lemma added_config (s s' : state) (op : checked) (printed : bool) (tr : list event) :
  same_config s s' -> added (self s') op printed tr = added (self s) op printed tr.
Proof.
  intros [Hv Hc]. unfold added, lines, line, shown. rewrite Hv, Hc. done.
Qed.

Lemma same_config_refl (s : state) : same_config s s.
Proof. by split. Qed.

Lemma text_step_refl (s : state) : text_step s s [].
Proof.
  split; [apply same_config_refl|]. intros t old Ht Hold _. exists t.
  repeat split; [done|by rewrite orb_false_r|].
  unfold added. simpl. destruct (printed_header t); simpl;
    by rewrite string_app_nil_r, insert_id.
Qed.

Lemma text_step_trans (s1 s2 s3 : state) (t1 t2 : list event) :
  text_step s1 s2 t1 -> text_step s2 s3 t2 -> text_step s1 s3 (t1 ++ t2).
Proof.
  intros [Hc1 H1] [Hc2 H2]. split; [by eapply same_config_trans|].
  intros t old Ht Hold Hcrash.
  destruct (H1 t old Ht Hold) as (t' & Ht' & Hop' & Hph' & Hout').
  { intros Hex. apply Hcrash, Exists_app. by left. }
  destruct (H2 t' (old +:+ added (self s1) (tmp_op t) (printed_header t) t1) Ht')
    as (t'' & Ht'' & Hop'' & Hph'' & Hout'').
  { by rewrite Hout', Hop', lookup_insert_eq. }
  { intros Hex. apply Hcrash, Exists_app. right. by eapply Exists_crashes_config. }
  exists t''. repeat split; [done|congruence| |].
  - rewrite Hph'', Hph', forallb_app, negb_andb, orb_assoc.
    f_equal. f_equal. clear -Hc1. induction t2 as [|ev t2 IH]; simpl; [done|].
    by rewrite IH, (shown_config s1 s2).
  - rewrite Hout'', Hout', Hop', insert_insert_eq. f_equal.
    rewrite (added_config s1 s2) by done.
    by rewrite Hph', added_app, string_app_assoc.
Qed.

Lemma print__text_step (m : pmsg) (lvl : level) (s : state) o s' tr :
  print_ m (Some lvl) s = (o, s', tr) -> text_step s s' tr.
Proof.
  intros H. split; [by eapply print__config|].
  intros t old Ht Hold Hcrash.
  pose proof (print__trace m lvl s t Ht) as Htr. rewrite H in Htr. simpl in Htr. subst tr.
  assert (crashes (self s) (Emitted (checked_key (tmp_op t)) lvl m) = false) as Hno.
  { destruct (crashes _ _) eqn:E; [|done]. exfalso.
    apply Hcrash. apply Exists_cons_hd. by rewrite E. }
  clear Hcrash. unfold crashes in Hno. simpl in Hno.
  unfold print_, output_append in H. rewrite Ht in H. simpl in H.
  unfold added, shown, lines, line. simpl.
  rewrite Hold in H.
  destruct (bool_decide (lvl = LError) || bool_decide (lvl ∈ _verbosity (self s)))
    eqn:Hshown;
    destruct (printed_header t) eqn:Hph;
    destruct (print_color (self s)) eqn:Hcol;
    destruct m as [text|e]; simpl in *;
    rewrite ?lookup_insert_eq, ?Hold in H; simpl in H; simplify_eq;
    (eexists; split; [reflexivity|]; simpl; split; [done|]; split; [by rewrite ?Hph|]).
  all: simpl; rewrite ?Hph; simpl.
  all: rewrite ?insert_insert_eq.
  all: try (f_equal; rewrite ?string_app_assoc; by rewrite ?string_app_nil_r).
  all: symmetry; apply insert_id; rewrite Hold; f_equal; symmetry; apply string_app_nil_r.
Qed.

Lemma text_step_quiet (s s' : state) :
  same_config s s' ->
  output (self s') = output (self s) ->
  (forall t, tmp (self s) = Some t ->
     exists t', tmp (self s') = Some t' /\ tmp_op t' = tmp_op t
                /\ printed_header t' = printed_header t) ->
  text_step s s' [].
Proof.
  intros Hc Hout Htmp. split; [done|]. intros t old Ht Hold _.
  destruct (Htmp t Ht) as (t' & Ht' & Hop & Hph). exists t'.
  repeat split; [done..|by rewrite orb_false_r|].
  rewrite Hout. unfold added. simpl.
  destruct (printed_header t); simpl; by rewrite string_app_nil_r, insert_id.
Qed.

Section Text.
Context (B : Backend).

Lemma exec_text_step {X} (c : cmd X) (s : state) o s' tr :
  exec B c s = (o, s', tr) -> text_step s s' tr.
Proof.
  destruct c as [m [lvl|]| | | | | | | | |]; simpl; unfold tmp_missing; intros H.
  1: by eapply print__text_step.
  1: destruct (print__without_level m s) as [e He]; rewrite He in H.
  all: repeat case_match; simplify_eq; try apply text_step_refl.
  all: apply text_step_quiet; [by split|done|].
  all: intros t0 Ht0; simpl in *; simplify_eq; eauto.
Qed.

Lemma run_text_step {A} (p : prog A) (s : state) o s' tr :
  run B p s = (o, s', tr) -> text_step s s' tr.
Proof.
  apply (run_only B any_command text_step text_step_refl text_step_trans).
  - intros X c s0 o0 s0' tr0 _. apply exec_text_step.
  - apply only_any.
Qed.

Lemma rendered_config (s s' : state) (op : checked) (tr : list event) :
  same_config s s' -> rendered (self s') op tr = rendered (self s) op tr.
Proof. apply added_config. Qed.

(** A session that returns leaves, as the text of its operation, what its
    messages render to, and the other texts as they were. *)
Lemma session_text (x : checked * option pvalue * option Wires) (s s' : state) tr :
  session B x s = (Returns tt, s', tr) ->
  output (self s')
  = <[checked_key x.1.1 := rendered (self s) x.1.1 tr]> (output (self s))
  /\ same_config s s'.
Proof.
  destruct x as [[op_ parameters_] wires_]. unfold session.
  set (s0 := start_session op_ s).
  assert (text_step s0 s' tr -> ~ Exists (crashes (self s0)) tr ->
          output (self s')
          = <[checked_key op_ := rendered (self s) op_ tr]> (output (self s))
          /\ same_config s s') as Hend.
  { intros [Hc Hstep] Hno.
    destruct (Hstep _ "" eq_refl (lookup_insert_eq _ _ _) Hno) as (t' & _ & _ & _ & Hout).
    split; [|exact Hc]. rewrite Hout. simpl. by rewrite insert_insert_eq. }
  destruct (run B _ _) as [[[[]|e] s1] t1] eqn:Hrun; [|done].
  assert (~ Exists (crashes (self s0)) t1) as Hno1.
  { intros Hex. by destruct (cr_check_single_operation B _ _ _ B _ _ _ _ Hrun Hex). }
  apply run_text_step in Hrun as Hstep1.
  destruct (tmp (self s1)) as [t1'|] eqn:Ht1; [|done]. simpl.
  destruct (levels_verbosity (res t1')) as [lvl|]; [|done].
  set (s1' := with_self _ s1).
  assert (text_step s1 s1' []) as Hstep2.
  { apply text_step_quiet; [by split|done|]. intros t0 Ht0. exists t0. by rewrite <- Ht0. }
  case_bool_decide.
  - destruct (print_ _ _ _) as [[o2 s2] t2] eqn:Hp. intros [= -> <- <-].
    match type of Hp with print_ ?m (Some ?l) _ = _ =>
      pose proof (print__trace m l s1' t1' Ht1) as Htr end.
    rewrite Hp in Htr. simpl in Htr.
    apply print__text_step in Hp.
    apply Hend.
    + eapply text_step_trans; [exact Hstep1|].
      rewrite <- (app_nil_l t2). by eapply text_step_trans.
    + intros [Hex|Hex]%Exists_app; [done|]. subst t2.
      apply Exists_cons in Hex as [Hex|Hex%Exists_nil]; [|done].
      unfold crashes in Hex. simpl in Hex. by rewrite andb_false_r in Hex.
  - intros [= <- <-]. apply Hend; [|done].
    rewrite <- (app_nil_r t1). by eapply text_step_trans.
Qed.

Lemma sessions_texts (l : list (checked * option pvalue * option Wires)) (s s' : state) ts :
  sessions B l s = (Returns tt, s', ts) ->
  forall key,
    match last_session key ts with
    | Some tr =>
        exists x, x ∈ l /\ checked_key x.1.1 = key
                  /\ output (self s') !! key = Some (rendered (self s) x.1.1 tr)
    | None => output (self s') !! key = output (self s) !! key
    end.
Proof.
  revert s s' ts. induction l as [|x l IH]; intros s s' ts; simpl.
  - by intros [= <- <-].
  - destruct (session B x s) as [[[[]|e] s1] t1] eqn:Hx; [|done].
    destruct (sessions B l s1) as [[o2 s2] ts2] eqn:Hl.
    intros [= -> <- <-] key.
    apply session_text in Hx as [Hout Hc]. specialize (IH _ _ _ Hl key). simpl.
    destruct (last_session key ts2) as [tr|].
    + destruct IH as (y & Hy & Hkey & Hlook). exists y.
      split; [by apply list_elem_of_further|]. split; [done|].
      by rewrite Hlook, (rendered_config s s1).
    + rewrite IH, Hout. case_decide as Hk.
      * exists x. split; [apply list_elem_of_here|]. split; [done|].
        subst key. by rewrite lookup_insert_eq.
      * by rewrite lookup_insert_ne.
Qed.

(** X21. The text returned for an operation is determined by the messages of
    its session: it is empty when none of them is shown, and otherwise the
    header followed, for each message that is shown and in their order, by a
    line break and the message, colored when colors are on.  A message is
    shown when it is an error or when its level is in the verbosity of the
    checker; the others leave no trace in the text. *)
Theorem texts_are_the_shown_messages (args : call_args) (sd : option Z) (s s' : state)
    (r : gmap positive level) (out : gmap positive string)
    (ts : list (positive * list event)) :
  __call__ B args sd s = (Returns (r, out), s', ts) ->
  (forall op1 op2, op1 ∈ operations args -> op2 ∈ operations args ->
     checked_key op1 = checked_key op2 -> op1 = op2) ->
  forall op_, op_ ∈ operations args ->
    exists tr,
      last_session (checked_key op_) ts = Some tr
      /\ out !! checked_key op_ = Some (rendered (self s) op_ tr).
Proof.
  unfold __call__.
  destruct (normalise args) as [[op todo]|] eqn:Hn; [|done].
  apply normalise_operations in Hn as [-> Htodo].
  destruct (sessions B todo _) as [[[[]|e] s1] ts1] eqn:Hs; [|done].
  intros [= <- <- <- <-] Hinj op_ Hop.
  apply sessions_results in Hs as Hkeys. destruct Hkeys as [Hkeys _].
  apply sessions_texts with (key := checked_key op_) in Hs.
  destruct (last_session_is_Some (checked_key op_) ts1) as [tr Htr].
  { rewrite Hkeys. rewrite <- Htodo in Hop.
    apply list_elem_of_fmap in Hop as (x & -> & Hx).
    apply list_elem_of_fmap. by exists x. }
  rewrite Htr in Hs. destruct Hs as (x & Hx & Hkey & Hlook).
  exists tr. split; [done|]. rewrite Hlook. f_equal.
  assert (x.1.1 = op_) as ->; [|done].
  apply Hinj; [|done..]. rewrite <- Htodo. apply list_elem_of_fmap. by exists x.
Qed.
End Text.


Lemma texts_are_the_shown_messages_witness :
  exists r out s' ts,
    __call__ Examples.null_backend moody_once None (Examples.fresh checker0)
      = (Returns (r, out), s', ts)
    /\ exists tr,
         last_session 11%positive ts = Some tr
         /\ out !! 11%positive = Some (rendered checker0 (OfClass Moody) tr).
Proof.
  do 4 eexists. split; [vm_compute; reflexivity|].
  refine (texts_are_the_shown_messages Examples.null_backend moody_once None
            (Examples.fresh checker0)
            _ _ _ _ ltac:(vm_compute; reflexivity) _ (OfClass Moody) _).
  - intros op1 op2 ->%list_elem_of_singleton ->%list_elem_of_singleton _. reflexivity.
  - apply list_elem_of_singleton. reflexivity.
Defined.

(** ** Passing *)

Section Passing.
Context (B : Backend).

Lemma run_below_pass {A} (p : prog A) (s : state) o s' tr :
  only (@below_pass) p -> run B p s = (o, s', tr) -> below_pass_trace s s' tr.
Proof.
  apply (run_only B (@below_pass) below_pass_trace).
  - intros s0. constructor.
  - intros s1 s2 s3 t1 t2 H1 H2. by apply Forall_app.
  - intros X c s0 o0 s0' tr0 Hc He. destruct c as [m [lvl|]| | | | | | | | |]; simpl in *;
      unfold tmp_missing in *.
    1: apply print__level in He; eapply Forall_impl; [exact He|]; intros ev ->; congruence.
    1: destruct (print__without_level m s0) as [e He']; rewrite He' in He.
    all: repeat case_match; simplify_eq; constructor.
Qed.

Lemma only_below_pass_check (op : checked) (parameters : option pvalue)
    (wires : option Wires) :
  only (@below_pass) (check_single_operation B op parameters wires).
Proof.
  unfold check_single_operation, _check_wires, _check_parameters, _check_instantiation,
    _check_decompositions, _check_properties, _check_matrix_shape, _check_eigvals,
    _check_diag_gates, _check_basis, print.
  apply only_bind; [only_tac|intros sd].
  apply only_bind; [only_tac|intros _].
  destruct op as [c|i c].
  all: apply only_bind; [only_tac|intros w].
  all: apply only_bind; [only_tac|intros p].
  all: apply only_bind; [only_tac|intros _].
  all: apply only_bind;
    [apply only_for; intros [[method expected_exc] use_wires];
     unfold _check_single_method, print; only_tac|intros _].
  all: apply only_bind; [only_tac|intros _].
  all: only_tac.
Qed.

Lemma severity_below_pass (tr : list event) :
  Forall (fun ev => ev_level ev <> LPass) tr ->
  severity tr = 3%nat <-> tr = [].
Proof.
  intros Hall. split; [|by intros ->].
  destruct Hall as [|ev tr Hev _]; [done|].
  intros H. exfalso.
  assert (verbosity_levels (ev_level ev) < 3)%nat as Hlt
    by (destruct (ev_level ev); simpl; try lia; done).
  unfold severity, levels_of, min_from in H. cbn [map foldr] in H. lia.
Qed.

Lemma session_pass (x : checked * option pvalue * option Wires) (s s' : state) tr :
  session B x s = (Returns tt, s', tr) ->
  exists lvl,
    results (self s') = <[checked_key x.1.1 := lvl]> (results (self s))
    /\ (lvl = LPass /\ ev_level <$> tr = [LPass]
        \/ lvl <> LPass /\ tr <> [] /\ Forall (fun ev => ev_level ev <> LPass) tr).
Proof.
  destruct x as [[op_ parameters_] wires_]. unfold session.
  destruct (run B _ _) as [[[[]|e] s1] t1] eqn:Hrun; [|done].
  apply run_below_pass in Hrun as Hbelow; [|apply only_below_pass_check].
  apply run_session_step in Hrun as [Hstep Hres].
  destruct (Hstep _ eq_refl) as (t' & Ht' & _ & Hres' & _). simpl in Hres'.
  rewrite Ht'. simpl.
  destruct (levels_verbosity (res t')) as [lvl|] eqn:Hlvl; [|done].
  apply levels_verbosity_inv in Hlvl.
  change max_level with 3%nat in Hres'. fold (severity t1) in Hres'.
  case_bool_decide as Hpass.
  - destruct (print_ _ _ _) as [[o2 s2] t2] eqn:Hp.
    intros [= -> <- <-].
    pose proof (print__level _ _ _ _ _ _ Hp) as Hl.
    match type of Hp with print_ ?m (Some ?l) ?s1' = _ =>
      pose proof (print__trace m l s1' t' Ht') as Htr end.
    rewrite Hp in Htr. simpl in Htr.
    apply print__session_step in Hp as [_ Hp].
    exists lvl. split; [by rewrite Hp; simpl; rewrite Hres|]. left. split; [done|].
    assert (t1 = []) as ->.
    { apply (severity_below_pass t1 Hbelow). rewrite <- Hres', <- Hlvl, Hpass. done. }
    by rewrite Htr.
  - intros [= <- <-]. exists lvl. split; [by simpl; rewrite Hres|]. right.
    split; [done|]. split; [|done]. intros ->.
    apply Hpass. destruct lvl; simpl in *; try done; rewrite Hres' in Hlvl; done.
Qed.

Lemma sessions_pass (l : list (checked * option pvalue * option Wires)) (s s' : state) ts :
  sessions B l s = (Returns tt, s', ts) ->
  forall key,
    match last_session key ts with
    | Some tr =>
        exists lvl,
          results (self s') !! key = Some lvl
          /\ (lvl = LPass /\ ev_level <$> tr = [LPass]
              \/ lvl <> LPass /\ tr <> [] /\ Forall (fun ev => ev_level ev <> LPass) tr)
    | None => results (self s') !! key = results (self s) !! key
    end.
Proof.
  revert s s' ts. induction l as [|x l IH]; intros s s' ts; simpl.
  - by intros [= <- <-].
  - destruct (session B x s) as [[[[]|e] s1] t1] eqn:Hx; [|done].
    destruct (sessions B l s1) as [[o2 s2] ts2] eqn:Hl.
    intros [= -> <- <-] key.
    apply session_pass in Hx as (lvl & Hx & Hlvl). specialize (IH _ _ _ Hl key). simpl.
    destruct (last_session key ts2) as [tr|]; [done|].
    rewrite IH, Hx. case_decide as Hk.
    + subst key. exists lvl. by rewrite lookup_insert_eq.
    + by rewrite lookup_insert_ne.
Qed.

(** X22. An operation passes exactly when its check emitted no message at
    all: the session of an operation reported as "pass" consists of one
    message, the notice of success that the call itself prints at level
    "pass", and the session of any other operation is not empty and has no
    message at level "pass". *)
Theorem pass_means_no_message (args : call_args) (sd : option Z) (s s' : state)
    (r : gmap positive level) (out : gmap positive string)
    (ts : list (positive * list event)) :
  __call__ B args sd s = (Returns (r, out), s', ts) ->
  forall op_, op_ ∈ operations args ->
    exists tr lvl,
      last_session (checked_key op_) ts = Some tr
      /\ r !! checked_key op_ = Some lvl
      /\ (lvl = LPass /\ ev_level <$> tr = [LPass]
          \/ lvl <> LPass /\ tr <> [] /\ Forall (fun ev => ev_level ev <> LPass) tr).
Proof.
  unfold __call__.
  destruct (normalise args) as [[op todo]|] eqn:Hn; [|done].
  apply normalise_operations in Hn as [-> Htodo].
  destruct (sessions B todo _) as [[[[]|e] s1] ts1] eqn:Hs; [|done].
  intros [= <- <- <- <-] op_ Hop.
  apply sessions_results in Hs as Hkeys. destruct Hkeys as [Hkeys _].
  apply sessions_pass with (key := checked_key op_) in Hs.
  destruct (last_session_is_Some (checked_key op_) ts1) as [tr Htr].
  { rewrite Hkeys. rewrite <- Htodo in Hop.
    apply list_elem_of_fmap in Hop as (x & -> & Hx).
    apply list_elem_of_fmap. by exists x. }
  rewrite Htr in Hs. destruct Hs as (lvl & ? & ?). by exists tr, lvl.
Qed.
End Passing.

Lemma pass_means_no_message_witness :
  exists r out s' ts,
    plain_call = (Returns (r, out), s', ts)
    /\ exists tr lvl,
         last_session 5%positive ts = Some tr
         /\ r !! 5%positive = Some lvl
         /\ (lvl = LPass /\ ev_level <$> tr = [LPass]
             \/ lvl <> LPass /\ tr <> [] /\ Forall (fun ev => ev_level ev <> LPass) tr).
Proof.
  do 4 eexists. split; [vm_compute; reflexivity|].
  apply (pass_means_no_message Examples.null_backend
           (CallOne (OfClass Examples.Plain) None None) None
           (Examples.fresh (__init__ LPass 10 true (1 # 100000)))
           _ _ _ _ ltac:(vm_compute; reflexivity) (OfClass Examples.Plain)).
  apply list_elem_of_singleton. reflexivity.
Defined.

(** ** The verbosity *)

(** X23. The verbosity given to [OperationChecker] is a threshold on the
    order error < hint < comment < pass: a checker built with verbosity [v]
    shows a message exactly when its level is at most [v].  Errors are thus
    shown under every verbosity, and a message shown under one verbosity is
    shown under every higher one. *)
Theorem verbosity_is_a_threshold (v : level) (max : nat) (color : bool) (tol : Q)
    (ev : event) :
  shown (__init__ v max color tol) ev
  = (verbosity_levels (ev_level ev) <=? verbosity_levels v)%nat.
Proof.
  unfold shown. destruct ev as [key lvl m]. simpl.
  destruct v, lvl; reflexivity.
Qed.

(** ** A constructor that raises *)

(** X24. With a declared number of parameters the instantiation is not
    guarded: when the constructor raises on the parameters drawn for an
    operation class, the call ends in the exception of the constructor, and
    no message has been emitted for the operation. *)
Theorem constructor_failure_ends_the_call (B : Backend) (op : OpClass) (nw n : nat)
    (e : exn) (s : state) :
  num_wires op = WiresInt nw ->
  num_params op = ParamsInt n ->
  (forall args, length args = n -> cls_init op args (seq 0 nw) = Raises e) ->
  exists s',
    __call__ B (CallOne (OfClass op) None None) None s = (Raises e, s', [(cls_key op, [])]).
Proof.
  intros Hw Hn Hinit. unfold __call__. cbn [normalise sessions session].
  set (s0 := start_session _ _).
  assert (exists s',
            run B (check_single_operation B (OfClass op) None None) s0 = (Raises e, s', []))
    as [s' ->]; [|by eexists].
  unfold check_single_operation. rewrite run_bind, run_do. cbn [exec].
  change (seed (self s0)) with (@None Z). rewrite run_bind. cbn [run].
  assert (exists s',
            run B (wires <- _check_wires op None ;;
                   parameters <- _check_parameters op None ;;
                   _check_instantiation op parameters wires ;;
                   for_ _default_methods_to_check
                     (fun method_tuple =>
                        _check_single_method op method_tuple parameters wires) ;;
                   _check_decompositions B op parameters wires ;;
                   _check_properties B op parameters wires) s0
            = (Raises e, s', [])) as [s' ->]; [|by eexists].
  rewrite run_bind. unfold _check_wires. rewrite Hw. cbn [run].
  rewrite run_bind. unfold _check_parameters. rewrite Hn.
  rewrite run_bind, run_do. cbn [exec]. change (tmp (self s0)) with (Some
    {| printed_header := false; tmp_op := OfClass op; res := max_level;
       name := checked_name (OfClass op);
       num_params_known := None; possible_num_params := None |}).
  cbn beta iota. rewrite run_do. cbn [exec].
  match goal with |- context [draw ?next n ?st] =>
    pose proof (draw_length next n st) as Hlen; destruct (draw next n st) as [l st'] end.
  simpl in Hlen. cbn beta iota. rewrite run_bind.
  unfold _check_instantiation. rewrite run_bind, run_do. cbn [exec].
  cbn [self tmp set_tmp with_self num_params_known set_num_params_known].
  cbn beta iota. rewrite run_bind. unfold instantiate.
  cbn [unpack mbind outcome_mbind outcome_bind].
  rewrite (Hinit l Hlen). cbn [lift run]. by eexists.
Qed.

Lemma constructor_failure_ends_the_call_witness :
  exists s',
    __call__ Examples.null_backend (CallOne (OfClass Unbuildable) None None) None
      (Examples.fresh checker0)
    = (Raises Examples.boom, s', [(10%positive, [])]).
Proof.
  exact (constructor_failure_ends_the_call Examples.null_backend Unbuildable 1 1
           Examples.boom (Examples.fresh checker0) eq_refl eq_refl (fun _ _ => eq_refl)).
Defined.

(** ** Sorted eigenvalues *)

Lemma Qeq_bool_sym (x y : Q) : Qeq_bool x y = Qeq_bool y x.
Proof.
  destruct (Qeq_bool x y) eqn:E1, (Qeq_bool y x) eqn:E2; try done.
  - apply Qeq_bool_iff in E1. symmetry in E1. apply Qeq_bool_iff in E1. congruence.
  - apply Qeq_bool_iff in E2. symmetry in E2. apply Qeq_bool_iff in E2. congruence.
Qed.

Lemma Cleb_total (a b : C) : Cleb a b = true \/ Cleb b a = true.
Proof.
  unfold Cleb. rewrite (Qeq_bool_sym (re b) (re a)).
  destruct (Qeq_bool (re a) (re b)).
  - destruct (Qle_bool (im a) (im b)) eqn:E; [by left|right].
    apply Qle_bool_iff. apply not_true_iff_false in E. rewrite Qle_bool_iff in E. lra.
  - destruct (Qle_bool (re a) (re b)) eqn:E; [by left|right].
    apply Qle_bool_iff. apply not_true_iff_false in E. rewrite Qle_bool_iff in E. lra.
Qed.

Lemma Cleb_spec (a b : C) :
  Cleb a b = true
  <-> (re a < re b)%Q \/ ((re a == re b)%Q /\ (im a <= im b)%Q).
Proof.
  unfold Cleb. destruct (Qeq_bool (re a) (re b)) eqn:E.
  - apply Qeq_bool_iff in E. rewrite Qle_bool_iff. split; [by right|].
    intros [H|[_ H]]; [lra|done].
  - apply Qeq_bool_neq in E. rewrite Qle_bool_iff. split.
    + intros H. left. lra.
    + intros [H|[H _]]; [lra|done].
Qed.

Lemma Cleb_trans (a b c : C) : Cleb a b = true -> Cleb b c = true -> Cleb a c = true.
Proof. rewrite !Cleb_spec. intros [?|[? ?]] [?|[? ?]]; [left|left|left|right]; lra. Qed.

Lemma Cleb_antisym (a b : C) : Cleb a b = true -> Cleb b a = true -> Ceq a b.
Proof. rewrite !Cleb_spec. unfold Ceq. intros [?|[? ?]] [?|[? ?]]; lra. Qed.

Lemma Cleb_Ceq_r (x a b : C) : Ceq a b -> Cleb x a = Cleb x b.
Proof.
  intros [Hr Hi].
  destruct (Cleb x a) eqn:E1, (Cleb x b) eqn:E2; try done.
  - apply not_true_iff_false in E2. exfalso. apply E2.
    apply Cleb_spec in E1. apply Cleb_spec. destruct E1 as [?|[? ?]]; [left|right]; lra.
  - apply not_true_iff_false in E1. exfalso. apply E1.
    apply Cleb_spec in E2. apply Cleb_spec. destruct E2 as [?|[? ?]]; [left|right]; lra.
Qed.

Lemma Ceq_refl (a : C) : Ceq a a.
Proof. by split. Qed.

Lemma Ceq_sym (a b : C) : Ceq a b -> Ceq b a.
Proof. intros [? ?]. by split. Qed.

Lemma Ceq_trans (a b c : C) : Ceq a b -> Ceq b c -> Ceq a c.
Proof. intros [? ?] [? ?]. split; lra. Qed.

Lemma Forall2_Ceq_refl (l : list C) : Forall2 Ceq l l.
Proof. induction l; constructor; [apply Ceq_refl|done]. Qed.

Lemma Forall2_Ceq_trans (l1 l2 l3 : list C) :
  Forall2 Ceq l1 l2 -> Forall2 Ceq l2 l3 -> Forall2 Ceq l1 l3.
Proof.
  intros H. revert l3. induction H as [|a b l1 l2 Hab _ IH]; intros l3 H3.
  - by inversion H3.
  - inversion H3 as [|? c ? l3' Hbc H3']; subst. constructor; [by eapply Ceq_trans|by apply IH].
Qed.

Lemma insert_sorted_Ceq (x : C) (l1 l2 : list C) :
  Forall2 Ceq l1 l2 -> Forall2 Ceq (insert_sorted x l1) (insert_sorted x l2).
Proof.
  induction 1 as [|a b l1 l2 Hab Hl IH]; simpl.
  - constructor; [apply Ceq_refl|done].
  - rewrite (Cleb_Ceq_r x a b Hab). destruct (Cleb x b).
    + constructor; [apply Ceq_refl|]. by constructor.
    + by constructor.
Qed.

Lemma insert_sorted_swap (x y : C) (l : list C) :
  Forall2 Ceq (insert_sorted x (insert_sorted y l)) (insert_sorted y (insert_sorted x l)).
Proof.
  induction l as [|z l IH]; simpl.
  - destruct (Cleb x y) eqn:Hxy, (Cleb y x) eqn:Hyx.
    + pose proof (Cleb_antisym _ _ Hxy Hyx) as H.
      constructor; [done|]. constructor; [by apply Ceq_sym|done].
    + apply Forall2_Ceq_refl.
    + apply Forall2_Ceq_refl.
    + destruct (Cleb_total x y); congruence.
  - destruct (Cleb y z) eqn:Hyz, (Cleb x z) eqn:Hxz; simpl.
    + destruct (Cleb x y) eqn:Hxy, (Cleb y x) eqn:Hyx; rewrite ?Hxz, ?Hyz.
      * pose proof (Cleb_antisym _ _ Hxy Hyx) as H.
        constructor; [done|]. constructor; [by apply Ceq_sym|apply Forall2_Ceq_refl].
      * apply Forall2_Ceq_refl.
      * apply Forall2_Ceq_refl.
      * destruct (Cleb_total x y); congruence.
    + destruct (Cleb x y) eqn:Hxy.
      * rewrite (Cleb_trans x y z Hxy Hyz) in Hxz. done.
      * rewrite Hxz, Hyz. apply Forall2_Ceq_refl.
    + destruct (Cleb y x) eqn:Hyx.
      * rewrite (Cleb_trans y x z Hyx Hxz) in Hyz. done.
      * rewrite Hxz, Hyz. apply Forall2_Ceq_refl.
    + rewrite Hxz, Hyz. constructor; [apply Ceq_refl|done].
Qed.

Lemma np_sort_Permutation (l1 l2 : list C) :
  l1 ≡ₚ l2 -> Forall2 Ceq (np_sort l1) (np_sort l2).
Proof.
  unfold np_sort. induction 1 as [|x l1 l2 _ IH|x y l|l1 l2 l3 _ IH1 _ IH2]; simpl.
  - constructor.
  - by apply insert_sorted_Ceq.
  - apply insert_sorted_swap.
  - by eapply Forall2_Ceq_trans.
Qed.

Lemma isclose_Ceq (rtol atol : Q) (a b : C) :
  (0 <= rtol)%Q -> (0 <= atol)%Q -> Ceq a b -> isclose rtol atol a b = true.
Proof.
  intros Hr Ha [Hre Him]. unfold isclose, sqrt_le_affine.
  apply Qle_bool_iff in Ha as Ha'. rewrite Ha'.
  apply orb_true_iff. left. apply Qle_bool_iff.
  unfold Cnorm2, Csub. cbn [re im].
  assert (0 <= rtol * rtol * (re b * re b + im b * im b))%Q by nra.
  assert ((re a - re b) * (re a - re b) + (im a - im b) * (im a - im b) == 0)%Q as ->
    by (rewrite Hre, Him; ring).
  nra.
Qed.

Lemma allclose_row_Ceq (rtol atol : Q) (u v : list C) :
  (0 <= rtol)%Q -> (0 <= atol)%Q -> Forall2 Ceq u v ->
  allclose rtol atol [u] [v] = Returns true.
Proof.
  intros Hr Ha Huv. unfold allclose, same_shape. simpl.
  rewrite (Forall2_length _ _ _ Huv), Nat.eqb_refl. simpl. f_equal.
  rewrite andb_true_r. induction Huv as [|a b u v Hab _ IH]; simpl; [done|].
  by rewrite isclose_Ceq, IH.
Qed.

(** X26. [_check_diag_gates] sorts the declared eigenvalues and the diagonal
    of the diagonalized matrix before it compares them.  With an empty list
    of diagonalizing gates (the identity is used) and a matrix that is
    diagonal, eigenvalues declared in any order pass without a message as
    long as they are a permutation of the diagonal. *)
Theorem diag_gates_compare_sorted_eigenvalues (B : Backend) (op : OpClass) (m d : matrix)
    (ev : list C) (s : state) :
  conjugate_by (eye (shape0 m)) m = Returns d ->
  is_diagonal d = Returns true ->
  ev ≡ₚ diag_of d ->
  run B (_check_diag_gates B (VGates []) (VArray m) (VVector ev) op) s = (Returns tt, s, []).
Proof.
  intros Hd Hdiag Hperm. unfold _check_diag_gates.
  cbn [is_None orb as_array mbind outcome_mbind outcome_bind lift bind].
  rewrite Hd. cbn [lift bind]. rewrite Hdiag.
  cbn [lift bind negb sorted_rows as_rows rows_of mbind outcome_mbind outcome_bind map].
  rewrite (allclose_row_Ceq default_rtol default_atol (np_sort ev) (np_sort (diag_of d)));
    [reflexivity|done|done|by apply np_sort_Permutation].
Qed.

Lemma diag_gates_compare_sorted_eigenvalues_witness :
  run diagonal_backend
    (_check_diag_gates diagonal_backend (VGates []) (VArray pauli_z) (VVector [Cm1; C1])
       Examples.Plain) plain_session
  = (Returns tt, plain_session, []).
Proof.
  apply (diag_gates_compare_sorted_eigenvalues diagonal_backend Examples.Plain pauli_z
           pauli_z [Cm1; C1] plain_session);
    [vm_compute; reflexivity|vm_compute; reflexivity|].
  exact (perm_swap C1 Cm1 [] : [Cm1; C1] ≡ₚ diag_of pauli_z).
Defined.

(** ** Supplied parameters and an unknown number of parameters *)

Lemma foldl_try_instantiate_numbers (op : OpClass) (wires : Wires) (l : list pvalue)
    (acc : list nat) :
  Forall (fun p => exists q, p = PNum q) l ->
  foldl (try_instantiate op wires) acc l = acc.
Proof.
  intros Hl. revert acc. induction Hl as [|p l [q ->] _ IH]; intros acc; simpl; [done|].
  apply IH.
Qed.

(** X27. For an operation class that does not declare its number of
    parameters, supplied parameters are read as a sequence of candidate
    parameter sets.  A flat sequence of numbers is not reported as unusable:
    every instantiation fails on unpacking a number, and collecting the
    lengths of the candidates for the error message ends the call in a
    [TypeError], without any message. *)
Theorem flat_parameters_end_in_type_error (B : Backend) (op : OpClass) (nw : nat) (q : Q)
    (l : list pvalue) (s : state) :
  num_wires op = WiresInt nw ->
  num_params op = ParamsProperty ->
  Forall (fun p => exists q, p = PNum q) l ->
  exists e s',
    __call__ B (CallOne (OfClass op) (Some (PSeq (PNum q :: l))) None) None s
    = (Raises e, s', [(cls_key op, [])])
    /\ exc_type e = TypeError.
Proof.
  intros Hw Hn Hl. unfold __call__. cbn [normalise sessions session].
  set (s0 := start_session _ _).
  assert (exists s',
            run B (check_single_operation B (OfClass op) (Some (PSeq (PNum q :: l))) None) s0
            = (Raises (type_error "object of type 'float' has no len()"), s', []))
    as [s' ->]; [|by eexists _, _].
  unfold check_single_operation. rewrite run_bind, run_do. cbn [exec].
  change (seed (self s0)) with (@None Z). rewrite run_bind. cbn [run].
  assert (exists s',
            run B (wires <- _check_wires op None ;;
                   parameters <- _check_parameters op (Some (PSeq (PNum q :: l))) ;;
                   _check_instantiation op parameters wires ;;
                   for_ _default_methods_to_check
                     (fun method_tuple =>
                        _check_single_method op method_tuple parameters wires) ;;
                   _check_decompositions B op parameters wires ;;
                   _check_properties B op parameters wires) s0
            = (Raises (type_error "object of type 'float' has no len()"), s', []))
    as [s' ->]; [|by eexists].
  rewrite run_bind. unfold _check_wires. rewrite Hw. cbn [run].
  rewrite run_bind. unfold _check_parameters. rewrite Hn.
  rewrite run_bind, run_do. cbn [exec]. change (tmp (self s0)) with (Some
    {| printed_header := false; tmp_op := OfClass op; res := max_level;
       name := checked_name (OfClass op);
       num_params_known := None; possible_num_params := None |}).
  cbn beta iota. cbn [run]. cbn beta iota. rewrite run_bind.
  unfold _check_instantiation. rewrite run_bind, run_do. cbn [exec].
  cbn [self tmp set_tmp with_self num_params_known set_num_params_known].
  cbn beta iota. cbn [py_iter lift bind]. rewrite run_bind.
  rewrite (foldl_try_instantiate_numbers op (seq 0 nw) (PNum q :: l) [])
    by (constructor; [by eexists|done]).
  cbn [map_outcome py_len mbind outcome_mbind outcome_bind lift bind run].
  by eexists.
Qed.

Lemma flat_parameters_end_in_type_error_witness :
  exists e s',
    __call__ Examples.null_backend
      (CallOne (OfClass OneParameter) (Some (PSeq [PNum (1 # 2)])) None) None
      (Examples.fresh checker0)
    = (Raises e, s', [(8%positive, [])])
    /\ exc_type e = TypeError.
Proof.
  exact (flat_parameters_end_in_type_error Examples.null_backend OneParameter 1 (1 # 2) []
           (Examples.fresh checker0) eq_refl eq_refl (List.Forall_nil _)).
Defined.

(** ** A mismatch between two reconstructions *)

Section Mismatch.
Context (B : Backend).

Lemma run_comparison_mismatch (op : OpClass) (first mat : value)
    (same later : list value) (s : state) (t : Tmp) :
  tmp (self s) = Some t ->
  Forall (fun m => equal_up_to_phase_values first m (tol (self s)) = Returns true) same ->
  equal_up_to_phase_values first mat (tol (self s)) = Returns false ->
  run B (for_ (same ++ mat :: later) (fun mat =>
           atol <- do_ Ctol ;;
           equal <- lift (equal_up_to_phase_values first mat atol) ;;
           if equal : bool then Ret tt
           else print_without_level
                  (MStr ("Matrices do not coincide for " +:+ cls_repr op +:+ "." +:+ "error")))) s
  = (Raises (key_error "None"), s, []).
Proof.
  intros Ht Hsame Hmat. induction Hsame as [|m same Hm Hsame IH].
  - cbn [app for_]. rewrite run_bind, run_bind, run_do. cbn [exec].
    rewrite run_bind, run_lift, Hmat. unfold print_without_level. rewrite run_do.
    cbn [exec]. unfold print_. by rewrite Ht.
  - cbn [app for_]. rewrite run_bind, run_bind, run_do. cbn [exec].
    rewrite run_bind, run_lift, Hm. cbn [run]. by rewrite IH.
Qed.

(** X28. A mismatch is not recorded.  When the reconstructions of an
    operation with a known number of parameters return, and one of the
    values that are not [None] is found not to be equal to the first one up to
    a phase (those before it being equal to it), [_check_decompositions] ends
    in the [KeyError] of [print_] called without a level: no message is
    emitted, the severity and the text of the operation stay as they were,
    and the values after the mismatch are not compared. *)
Theorem mismatch_ends_in_key_error (op : OpClass) (par : pvalue) (wires : Wires)
    (values : list value) (first mat : value) (same later : list value)
    (s : state) (t : Tmp) :
  tmp (self s) = Some t ->
  num_params_known t = Some true ->
  map_outcome (fun meth => meth op par wires) (decomposition_methods B) = Returns values ->
  List.filter (fun mat => negb (is_None mat)) values = first :: same ++ mat :: later ->
  Forall (fun m => equal_up_to_phase_values first m (tol (self s)) = Returns true) same ->
  equal_up_to_phase_values first mat (tol (self s)) = Returns false ->
  run B (_check_decompositions B op par wires) s = (Raises (key_error "None"), s, []).
Proof.
  intros Ht Hknown Hvalues Hfilter Hsame Hmat.
  unfold _check_decompositions.
  rewrite run_bind, run_do. cbn [exec]. rewrite Ht, Hknown.
  cbn [bind for_]. rewrite run_bind, run_bind, run_lift, Hvalues, Hfilter.
  by rewrite (run_comparison_mismatch op first mat same later s t Ht Hsame Hmat).
Qed.
End Mismatch.

Lemma mismatch_ends_in_key_error_witness :
  run sparse_backend (_check_decompositions sparse_backend Mismatched half [0%nat])
    (known_session Mismatched LPass true)
  = (Raises (key_error "None"), known_session Mismatched LPass true, []).
Proof.
  refine (mismatch_ends_in_key_error sparse_backend Mismatched half [0%nat]
            _ (VArray Examples.identity2) (VArray pauli_z) [] []
            (known_session Mismatched LPass true) _ eq_refl eq_refl _ _ _ _).
  - vm_compute. reflexivity.
  - reflexivity.
  - constructor.
  - vm_compute. reflexivity.
Defined.

(** The whole call on that operation: the [KeyError] leaves [__call__], and
    the session has no message. *)
Lemma mismatched_call :
  let r := __call__ sparse_backend (CallOne (OfClass Mismatched) None None) None
             (Examples.fresh checker0) in
  r.1.1 = Raises (key_error "None") /\ r.2 = [(12%positive, [])].
Proof. vm_compute. done. Qed.

(** ** One parameter set per operation *)

(** X29. Parameters whose first entry is a list or a tuple are taken as
    one parameter set per operation: every set, the first included, goes to
    the operation at its position, and the call ends in an [AssertionError]
    when the number of sets differs from the number of operations.  A NumPy
    array is no sequence in this test: parameters whose first entry is an
    array, in a list or in an array, are shared by all operations. *)
Theorem call_takes_one_parameter_set_per_operation (op : list checked)
    (first : list pvalue) (sets : list pvalue) (a : list pvalue) (l : list pvalue) :
  normalise (CallSeq op (Some (PSeq (PSeq first :: sets))) None)
  = (if Nat.eqb (length (PSeq first :: sets)) (length op)
     then Returns (op, zip3 op (Some <$> PSeq first :: sets) (replicate (length op) None))
     else Raises assertion_error)
  /\ normalise (CallSeq op (Some (PSeq (PArr a :: l))) None)
     = Returns (op, (fun op_ => (op_, Some (PSeq (PArr a :: l)), None)) <$> op)
  /\ normalise (CallSeq op (Some (PArr (PArr a :: l))) None)
     = Returns (op, (fun op_ => (op_, Some (PArr (PArr a :: l)), None)) <$> op).
Proof.
  unfold normalise, broadcast_parameters, broadcast_wires.
  cbn [first_entry isinstance_Sequence negb py_len py_iter mbind outcome_mbind outcome_bind].
  split; [|by rewrite !zip3_replicate].
  by destruct (Nat.eqb _ _).
Qed.
